(** * 1Password document reattacher: a shallow embedding in Rocq

    This development embeds [1password_document_reattacher.py]:
    the string helpers ([sanitize], [allowed_by_white_black_lists]),
    the reference-mode entry point [main] and the orphan-cleanup entry
    point [cleanup_documents].  Python strings are modelled as ASCII
    [string]s (code points 0..127); the [op] command line tool is the
    record store, an external collaborator reached through [R]. *)

From Stdlib Require Import String Ascii List ZArith Bool Lia.
Import ListNotations.
Open Scope string_scope.
Open Scope nat_scope.

(** ** Python string primitives on ASCII strings *)
Module PyStr.

(** [str.lower] on ASCII. *)
Definition lower_char (c : ascii) : ascii :=
  let n := nat_of_ascii c in
  if (65 <=? n) && (n <=? 90) then ascii_of_nat (n + 32) else c.

Fixpoint lower (s : string) : string :=
  match s with
  | EmptyString => EmptyString
  | String c r => String (lower_char c) (lower r)
  end.

(** [str.isspace] on ASCII: \t \n \x0b \x0c \r, \x1c..\x1f and space. *)
Definition isspace (c : ascii) : bool :=
  let n := nat_of_ascii c in
  ((9 <=? n) && (n <=? 13)) || ((28 <=? n) && (n <=? 32)).

Fixpoint lstrip_by (p : ascii -> bool) (s : string) : string :=
  match s with
  | EmptyString => EmptyString
  | String c r => if p c then lstrip_by p r else s
  end.

Fixpoint rev_str (s : string) : string :=
  match s with
  | EmptyString => EmptyString
  | String c r => rev_str r ++ String c EmptyString
  end.

Definition rstrip_by (p : ascii -> bool) (s : string) : string :=
  rev_str (lstrip_by p (rev_str s)).

(** [str.strip()] *)
Definition strip (s : string) : string := rstrip_by isspace (lstrip_by isspace s).

(** [str.rstrip(chars)] *)
Definition mem_char (chars : string) (c : ascii) : bool :=
  existsb (Ascii.eqb c) (list_ascii_of_string chars).

Definition rstrip_chars (chars s : string) : string := rstrip_by (mem_char chars) s.

(** [needle in hay] for strings: the empty needle is in every string. *)
Fixpoint contains (needle hay : string) : bool :=
  match hay with
  | EmptyString => String.eqb needle EmptyString
  | String _ r => String.prefix needle hay || contains needle r
  end.

(** [s.split(sep)] for a non-empty [sep]: cut at every non-overlapping
    occurrence, scanning left to right. *)
Fixpoint split_go (sep s : string) (skip : nat) (cur : string) : list string :=
  match skip with
  | S k =>
      match s with
      | EmptyString => [rev_str cur]
      | String _ r => split_go sep r k cur
      end
  | O =>
      match s with
      | EmptyString => [rev_str cur]
      | String c r =>
          if String.prefix sep s && negb (String.eqb sep EmptyString)
          then rev_str cur :: split_go sep r (String.length sep - 1) EmptyString
          else split_go sep r 0 (String c cur)
      end
  end.

Definition split (sep s : string) : list string := split_go sep s 0 EmptyString.

Fixpoint join (sep : string) (l : list string) : string :=
  match l with
  | [] => EmptyString
  | [x] => x
  | x :: r => x ++ sep ++ join sep r
  end.

(** [s.replace(old, new)] for a non-empty [old] is [new.join(s.split(old))]. *)
Definition replace (old new s : string) : string := join new (split old s).

(** [s[:m]] with Python's handling of a negative bound. *)
Definition take_z (m : Z) (s : string) : string :=
  let n := Z.of_nat (String.length s) in
  let k := if (m <? 0)%Z then Z.max 0 (n + m) else Z.min m n in
  substring 0 (Z.to_nat k) s.

(** [s[k:]] for a non-negative [k]. *)
Definition drop (k : nat) (s : string) : string :=
  substring k (String.length s - k) s.

Fixpoint filter_str (p : ascii -> bool) (s : string) : string :=
  match s with
  | EmptyString => EmptyString
  | String c r => if p c then String c (filter_str p r) else filter_str p r
  end.

(** [l[-1]] of a non-empty list (Python raises on []; every use here is on
    the result of [split], which is never empty). *)
Definition last_or (d : string) (l : list string) : string := last l d.

End PyStr.

Import PyStr.

(** ** [sanitize] (lines 26-71) *)

Definition sanitize_blacklist : list ascii :=
  (list_ascii_of_string "\/:*?" ++ [ascii_of_nat 34] ++ list_ascii_of_string "<>|"
   ++ [ascii_of_nat 0])%list.

Definition reserved : list string :=
  [ "CON"; "PRN"; "AUX"; "NUL"; "COM1"; "COM2"; "COM3"; "COM4"; "COM5";
    "COM6"; "COM7"; "COM8"; "COM9"; "LPT1"; "LPT2"; "LPT3"; "LPT4"; "LPT5";
    "LPT6"; "LPT7"; "LPT8"; "LPT9" ].

(** [unicodedata.normalize("NFKD", _)] is the identity on 7-bit ASCII text
    (code points below 128), the text this model is exact for; the
    properties of [sanitize] proved below assume such input. *)
Definition nfkd (s : string) : string := s.

(** [re.split(r"/|\\", s)]: cut at every slash or backslash. *)
Definition is_path_sep (c : ascii) : bool :=
  Ascii.eqb c "/"%char || Ascii.eqb c "\"%char.

Fixpoint split_by_go (p : ascii -> bool) (s cur : string) : list string :=
  match s with
  | EmptyString => [rev_str cur]
  | String c r => if p c then rev_str cur :: split_by_go p r EmptyString
                  else split_by_go p r (String c cur)
  end.

Definition split_by (p : ascii -> bool) (s : string) : list string :=
  split_by_go p s EmptyString.

Definition sanitize (filename0 : string) : string :=
  let filename := filter_str (fun c => negb (existsb (Ascii.eqb c) sanitize_blacklist)) filename0 in
  let filename := filter_str (fun c => 31 <? nat_of_ascii c) filename in
  let filename := nfkd filename in
  let filename := rstrip_chars ". " filename in
  let filename := strip filename in
  let filename := if forallb (fun x => Ascii.eqb x "."%char) (list_ascii_of_string filename)
                  then "__" ++ filename else filename in
  let filename := if existsb (String.eqb filename) reserved then "__" ++ filename else filename in
  let filename := if String.length filename =? 0 then "__" else filename in
  if 255 <? String.length filename then
    let last_path := last_or EmptyString (split_by is_path_sep filename) in
    let parts := split "." last_path in
    let '(ext, filename) :=
      if 1 <? List.length parts
      then let ext := "." ++ last_or EmptyString parts in
           (ext, take_z (- Z.of_nat (String.length ext)) filename)
      else (EmptyString, filename) in
    let filename := if String.eqb filename EmptyString then "__" else filename in
    let ext := if 254 <? String.length ext then drop 254 ext else ext in
    let maxl := (255 - Z.of_nat (String.length ext))%Z in
    let filename := take_z maxl filename in
    let filename := filename ++ ext in
    let filename := rstrip_chars ". " filename in
    if String.length filename =? 0 then "__" else filename
  else filename.

(** ** [allowed_by_white_black_lists] (lines 118-136):
    the pair (allowed by the whitelist, allowed by the blacklist). *)
Definition allowed_by_white_black_lists (s : string) (whitelist blacklist : list string)
    (exact_match : bool) : bool * bool :=
  if exact_match then
    ((List.length whitelist =? 0) || existsb (fun w => String.eqb w s) whitelist,
     (List.length blacklist =? 0) || forallb (fun b => negb (String.eqb b s)) blacklist)
  else
    ((List.length whitelist =? 0) || existsb (fun w => contains (lower w) (lower s)) whitelist,
     (List.length blacklist =? 0) || forallb (fun b => negb (contains (lower b) (lower s))) blacklist).

(** [False in wbla] *)
Definition denied (wbla : bool * bool) : bool := negb (fst wbla) || negb (snd wbla).

Fixpoint repeat_char (n : nat) (c : ascii) : string :=
  match n with O => EmptyString | S k => String c (repeat_char k c) end.

(** A 602-character name whose extension is 600 characters long. *)
Definition long_ext_name : string := "a." ++ repeat_char 600 "b"%char.



(** ** The record store and the Python objects read from it *)

Record File := mkFile { file_id : string; file_name : string; file_size : Z }.

(** A field; [field_value] and [field_section] (the section's label) are
    [None] when the JSON key is absent. *)
Record Field := mkField {
  field_id : string; field_type : string;
  field_value : option string; field_section : option string }.

(** An item as [op item get] returns it; [item_state] is [""] when absent. *)
Record Item := mkItem {
  item_id : string; item_title : string; item_category : string;
  item_state : string; item_vault : string;
  item_tags : option (list string);
  item_fields : option (list Field);
  item_files : option (list File) }.

Definition fields_of (i : Item) : list Field :=
  match item_fields i with Some l => l | None => [] end.
Definition files_of (i : Item) : list File :=
  match item_files i with Some l => l | None => [] end.
Definition tags_of (i : Item) : list string :=
  match item_tags i with Some l => l | None => [] end.

(** The [op] invocations of the script. *)
Inductive Cmd :=
| ItemList (include_archive : bool) (tags : list string)
| ItemGet (id : string)
| ShareLink (id vault : string)
| DocumentGet (id vault out_file : string)
| EditAttach (id vault : string) (dry : bool) (field out_file : string)
| EditTags (id vault : string) (dry : bool) (tags : list string)
| EditDeleteField (id vault : string) (dry : bool) (sec fid : string)
| ItemDelete (id vault : string) (archive : bool).

(** The calls that change the store. *)
Definition mutating (c : Cmd) : bool :=
  match c with
  | EditAttach _ _ _ _ _ | EditTags _ _ _ _ | EditDeleteField _ _ _ _ _
  | ItemDelete _ _ _ => true
  | _ => false
  end.

(** The environment: the store snapshot and which calls [op] rejects. *)
Record Env := mkEnv { store : list Item; fails : Cmd -> bool }.

Definition find_item (l : list Item) (id : string) : option Item :=
  find (fun i => String.eqb (item_id i) id) l.

(** [op item list [--include-archive] [--tags t1,...]]. *)
Definition list_items (l : list Item) (include_archive : bool) (tags : list string) : list Item :=
  filter (fun i =>
    (include_archive || negb (String.eqb (item_state i) "ARCHIVED"))
    && ((List.length tags =? 0) || existsb (fun t => existsb (String.eqb t) tags) (tags_of i))) l.

(** Python exceptions raised along the code paths. *)
Inductive Exn :=
| CalledProcessError (c : Cmd)
| KeyError (key : string)
| NameError (var : string)
| IndexError
| ValueError
| EOFError.

Definition catchable (e : Exn) : bool :=
  match e with CalledProcessError _ | KeyError _ => true | _ => false end.
Definition is_cpe (e : Exn) : bool :=
  match e with CalledProcessError _ => true | _ => false end.

Definition show_exn (e : Exn) : string :=
  match e with
  | CalledProcessError _ => "Command returned non-zero exit status 1."
  | KeyError k => k
  | NameError v => v
  | IndexError => "list index out of range"
  | ValueError => "max() arg is an empty sequence"
  | EOFError => "EOF when reading a line"
  end.

(** ** A state and exception monad for the script's control flow

    [io_trace] lists every [op] call attempted, oldest first; [io_stdin]
    holds the operator's answers still to be read by [input()];
    [io_heap] holds the Python tag lists, which the script mutates in
    place and shares between dictionaries. *)
Record IO := mkIO { io_trace : list Cmd; io_stdin : list string;
                    io_heap : list (nat * list string) }.

Inductive Res (A : Type) := Ok (a : A) | Exc (e : Exn).
Arguments Ok {A}. Arguments Exc {A}.

Definition M (S A : Type) := Env -> IO * S -> Res A * (IO * S).

Module Py.
Section Ops.
Context {S : Type}.

Definition ret {A} (a : A) : M S A := fun _ w => (Ok a, w).
Definition bind {A B} (m : M S A) (f : A -> M S B) : M S B :=
  fun env w => match m env w with
               | (Ok a, w') => f a env w'
               | (Exc e, w') => (Exc e, w')
               end.
Definition raise {A} (e : Exn) : M S A := fun _ w => (Exc e, w).

(** [try: m except <p> as e: h e] *)
Definition try_except {A} (p : Exn -> bool) (m : M S A) (h : Exn -> M S A) : M S A :=
  fun env w => match m env w with
               | (Exc e, w') => if p e then h e env w' else (Exc e, w')
               | r => r
               end.

Definition get : M S S := fun _ w => (Ok (snd w), w).
Definition modify (f : S -> S) : M S unit := fun _ w => (Ok tt, (fst w, f (snd w))).
Definition ask : M S Env := fun env w => (Ok env, w).

Definition push (c : Cmd) (io : IO) : IO :=
  mkIO (io_trace io ++ [c]) (io_stdin io) (io_heap io).

(** [R(cmd)]: run [op]; a rejected call raises [CalledProcessError]. *)
Definition R (c : Cmd) : M S unit :=
  fun env w => let w' := (push c (fst w), snd w) in
               if fails env c then (Exc (CalledProcessError c), w') else (Ok tt, w').

(** [J("item get " + id)] *)
Definition item_get (id : string) : M S Item :=
  fun env w => let w' := (push (ItemGet id) (fst w), snd w) in
               match find_item (store env) id with
               | Some i => if fails env (ItemGet id)
                           then (Exc (CalledProcessError (ItemGet id)), w') else (Ok i, w')
               | None => (Exc (CalledProcessError (ItemGet id)), w')
               end.

(** [J("item list ...")] *)
Definition item_list (ia : bool) (tags : list string) : M S (list Item) :=
  fun env w => let c := ItemList ia tags in
               let w' := (push c (fst w), snd w) in
               if fails env c then (Exc (CalledProcessError c), w')
               else (Ok (list_items (store env) ia tags), w').

(** [S("item get <id> --share-link --vault <v>")] *)
Definition share_link (id vault : string) : M S string :=
  fun env w => let c := ShareLink id vault in
               let w' := (push c (fst w), snd w) in
               if fails env c then (Exc (CalledProcessError c), w')
               else (Ok ("https://share/" ++ id), w').

(** [input()] *)
Definition input : M S string :=
  fun _ w => match io_stdin (fst w) with
             | [] => (Exc EOFError, w)
             | l :: r => (Ok l, (mkIO (io_trace (fst w)) r (io_heap (fst w)), snd w))
             end.

(** Lists on the heap. *)
Definition alloc (l : list string) : M S nat :=
  fun _ w => let h := io_heap (fst w) in
             let n := List.length h in
             (Ok n, (mkIO (io_trace (fst w)) (io_stdin (fst w)) ((h ++ [(n, l)])%list), snd w)).

Definition heap_read (h : list (nat * list string)) (loc : nat) : list string :=
  match find (fun p => Nat.eqb (fst p) loc) h with Some (_, l) => l | None => [] end.

Definition load (loc : nat) : M S (list string) :=
  fun _ w => (Ok (heap_read (io_heap (fst w)) loc), w).

(** [lst.append(x)] on the list at [loc]. *)
Definition append (loc : nat) (x : string) : M S unit :=
  fun _ w => let io := fst w in
             (Ok tt, (mkIO (io_trace io) (io_stdin io)
                        (map (fun p => if Nat.eqb (fst p) loc then (fst p, (snd p ++ [x])%list) else p)
                             (io_heap io)), snd w)).

(** [d.get("tags", [])]: the shared list, or a fresh empty one. *)
Definition get_tags (t : option nat) : M S nat :=
  match t with Some loc => ret loc | None => alloc [] end.

(** [for x in xs: body(x)] *)
Fixpoint for_each {A} (xs : list A) (body : A -> M S unit) : M S unit :=
  match xs with
  | [] => ret tt
  | x :: r => bind (body x) (fun _ => for_each r body)
  end.

End Ops.
End Py.

Notation "x <- m ;; k" := (Py.bind m (fun x => k)) (at level 61, m at next level, right associativity).
Notation "m ;;; k" := (Py.bind m (fun _ => k)) (at level 61, right associativity).

(** Python's insertion-ordered [defaultdict(list)]. *)
Definition DL (V : Type) := list (string * list V).

Fixpoint dl_append {V} (k : string) (v : V) (d : DL V) : DL V :=
  match d with
  | [] => [(k, [v])]
  | (k', vs) :: r => if String.eqb k k' then (k', (vs ++ [v])%list) :: r else (k', vs) :: dl_append k v r
  end.

Definition dl_values {V} (d : DL V) : list V := flat_map snd d.

Definition dl_get {V} (k : string) (d : DL V) : list V :=
  match find (fun p => String.eqb (fst p) k) d with Some (_, l) => l | None => [] end.

(** ** The title and tag pre-check shared by both entry points
    (lines 180-193 and 553-564): returns the skipped dictionary and the
    set [skipped_itms]. *)
Fixpoint tag_check {E} (mk : Item -> E) (twl tbl : list string) (itm : Item)
    (tags : list string) (sk : DL E) (ids : list string) : DL E * list string :=
  match tags with
  | [] => (sk, ids)
  | tag :: r =>
      let wbla := allowed_by_white_black_lists tag twl tbl true in
      if denied wbla then
        let rs := if negb (snd wbla) then "item tag blacklisted" else "item tag not on whitelist" in
        (dl_append rs (mk itm) sk, item_id itm :: ids)
      else tag_check mk twl tbl itm r sk ids
  end.

Definition precheck_one {E} (mk : Item -> E) (wl bl twl tbl : list string)
    (acc : DL E * list string) (itm : Item) : DL E * list string :=
  let '(sk, ids) := acc in
  let wbla := allowed_by_white_black_lists (item_title itm) wl bl false in
  let '(sk, ids) :=
    if denied wbla then
      let rs := if negb (snd wbla) then "item blacklisted" else "item not on whitelist" in
      (dl_append rs (mk itm) sk, item_id itm :: ids)
    else (sk, ids) in
  if existsb (String.eqb (item_id itm)) ids then (sk, ids)
  else tag_check mk twl tbl itm (tags_of itm) sk ids.

Definition precheck {E} (mk : Item -> E) (wl bl twl tbl : list string)
    (items : list Item) (sk : DL E) : DL E * list string :=
  fold_left (precheck_one mk wl bl twl tbl) items (sk, []).

Definition not_skipped (ids : list string) (i : Item) : bool :=
  negb (existsb (String.eqb (item_id i)) ids).

Definition dq : string := String (ascii_of_nat 34) EmptyString.
Definition sq : string := "'".

(** [rsp.lower().strip() == "n"] *)
Definition is_no (rsp : string) : bool := String.eqb (strip (lower rsp)) "n".
(** [rsp.lower().strip() == "y"] *)
Definition is_yes (rsp : string) : bool := String.eqb (strip (lower rsp)) "y".

(** [reattached_tag] with double and single quotes removed, then stripped
    (line 161 / 491). *)
Definition clean_tag (t : string) : string := strip (replace sq EmptyString (replace dq EmptyString t)).

(** [os.path.join(tmp_dir, name)]; the temporary directory's random name
    is fixed to [tmp_dir]. *)
Definition tmp_dir : string := "/tmp/op".
Definition path_join (d n : string) : string :=
  if String.prefix "/" n then n else d ++ "/" ++ n.

(** The file name with spaces turned into underscores and quote characters
    removed (lines 361 / 704). *)
Definition out_name (n : string) : string :=
  replace sq EmptyString (replace dq EmptyString (replace " " "_" n)).

(** The file name with every dot escaped by a backslash and quote characters
    removed (lines 357 / 642). *)
Definition escape_name (n : string) : string :=
  replace sq EmptyString (replace dq EmptyString (replace "." "\." n)).

(** Command line options shared by [main] and [cleanup_documents]. *)
Record Config := mkConfig {
  dry_run : bool; archive_docs : bool; supervise_run : bool;
  confirm_before_modifying : bool; verbose : bool;
  item_whitelist : list string; item_blacklist : list string;
  doc_whitelist : list string; doc_blacklist : list string;
  tag_whitelist : list string; tag_blacklist : list string;
  generate_share_links : bool; reattached_tag : string }.

(** [verbose |= supervise_run] and the like. *)
Definition verbose' (c : Config) := verbose c || supervise_run c.
Definition share_links' (c : Config) := generate_share_links c || supervise_run c.
Definition confirm' (c : Config) := confirm_before_modifying c || supervise_run c.

Definition Row := list string.

(** ** Reference mode: [main] (lines 472-785) *)
Module RefMode.

(** The dictionaries [{"item", "document", "item link"}] of the skipped
    list, and the same with ["error"] in the failed list. *)
Record Entry := mkEntry {
  e_item : string; e_document : string; e_link : string; e_error : option Exn }.

(** The dictionary queued in [reattached_docs[ref_id]] (lines 643-656);
    the two tag lists are heap locations, shared as Python shares them. *)
Record Queued := mkQueued {
  q_item : string; q_document : string; q_link : string;
  q_ref_vid : string; q_ref_name_escaped : string; q_ref_sec : string;
  q_ref_field_id : string; q_ref_file_name : string;
  q_item_id : string; q_item_vid : string;
  q_item_tags : nat; q_doc_tags : nat }.

(** The function's locals that outlive one loop iteration: the three
    dictionaries and [ref_name], which stays bound from one reference to
    the next. *)
Record St := mkSt {
  reattached_docs : DL Queued; skipped_docs : DL Entry; failed_docs : DL Entry;
  ref_name : option string }.

Definition init : St := mkSt [] [] [] None.

Definition set_ref_name (n : string) (s : St) : St :=
  mkSt (reattached_docs s) (skipped_docs s) (failed_docs s) (Some n).
Definition skip (rs : string) (e : Entry) : M St unit :=
  Py.modify (fun s => mkSt (reattached_docs s) (dl_append rs e (skipped_docs s)) (failed_docs s) (ref_name s)).
Definition fail (rs : string) (e : Entry) : M St unit :=
  Py.modify (fun s => mkSt (reattached_docs s) (skipped_docs s) (dl_append rs e (failed_docs s)) (ref_name s)).
Definition queue (k : string) (q : Queued) : M St unit :=
  Py.modify (fun s => mkSt (dl_append k q (reattached_docs s)) (skipped_docs s) (failed_docs s) (ref_name s)).

Definition key_value (f : Field) : M St string :=
  match field_value f with Some v => Py.ret v | None => Py.raise (KeyError "value") end.
Definition key_section (f : Field) : M St string :=
  match field_section f with Some v => Py.ret v | None => Py.raise (KeyError "section") end.
Definition key_files (i : Item) : M St (list File) :=
  match item_files i with Some v => Py.ret v | None => Py.raise (KeyError "files") end.

(** [ref_j.get("tags", [])] on the freshly fetched [ref_j]. *)
Definition fresh_tags (i : Item) : M St nat := Py.alloc (tags_of i).

(** [itm_j]'s tag list, allocated once when [itm_j] is fetched. *)
Definition fetched_tags (i : Item) : M St (option nat) :=
  match item_tags i with
  | Some l => loc <- Py.alloc l ;; Py.ret (Some loc)
  | None => Py.ret None
  end.

(** The checks of lines 615-640 after the referenced record was fetched
    and admitted: [true] when the supervised gate was answered "n". *)
Definition gate (c : Config) (ref_id ref_vid : string) : M St bool :=
  if verbose' c then
    _ <- (if share_links' c then Py.share_link ref_id ref_vid else Py.ret EmptyString) ;;
    if supervise_run c then rsp <- Py.input ;; Py.ret (is_no rsp) else Py.ret false
  else Py.ret false.

(** Lines 637-657: the multi-file check and the queueing. *)
Definition after_gate (itm_i itm_name itm_vid itm_lnk : string) (itm_tags : option nat)
    (ref_id : string) (ref_j : Item) (rn ref_sec ref_field_id : string) : M St unit :=
  files <- key_files ref_j ;;
  (if 1 <? List.length files
   then skip "more than one file" (mkEntry itm_name rn itm_lnk None)
   else Py.ret tt) ;;;
  match files with
  | [] => Py.raise IndexError
  | f :: _ =>
      let ref_file_name := file_name f in
      itl <- Py.get_tags itm_tags ;;
      dtl <- fresh_tags ref_j ;;
      queue ref_id (mkQueued itm_name rn itm_lnk (item_vault ref_j) (escape_name ref_file_name)
                      ref_sec ref_field_id ref_file_name itm_i itm_vid itl dtl)
  end.

(** Lines 625-657: the supervised gate, then the rest. *)
Definition supervised (c : Config) (itm_i itm_name itm_vid itm_lnk : string) (itm_tags : option nat)
    (ref_id : string) (ref_j : Item) (rn ref_sec ref_field_id : string) : M St unit :=
  declined <- gate c ref_id (item_vault ref_j) ;;
  if declined then skip "user skipped" (mkEntry itm_name rn itm_lnk None)
  else after_gate itm_i itm_name itm_vid itm_lnk itm_tags ref_id ref_j rn ref_sec ref_field_id.

(** The body of [for ref in refs] (lines 603-661). *)
Definition ref_body (c : Config) (itm_i itm_name itm_vid itm_lnk : string)
    (itm_tags : option nat) (ref : Field) : M St unit :=
  Py.try_except catchable
    (ref_id <- key_value ref ;;
     ref_j <- Py.item_get ref_id ;;
     let ref_vid := item_vault ref_j in
     let rn0 := item_title ref_j in
     Py.modify (set_ref_name rn0) ;;;
     let wbla := allowed_by_white_black_lists rn0 (doc_whitelist c) (doc_blacklist c) false in
     if denied wbla then
       let rs := if negb (snd wbla) then "doc blacklisted" else "doc not on whitelist" in
       skip rs (mkEntry itm_name rn0 itm_lnk None)
     else if negb (String.eqb (item_category ref_j) "DOCUMENT") then
       skip "not a document" (mkEntry itm_name rn0 itm_lnk None)
     else
       let rn := sanitize (replace (" - " ++ itm_name) EmptyString rn0) in
       Py.modify (set_ref_name rn) ;;;
       ref_sec <- key_section ref ;;
       let ref_field_id := field_id ref in
       supervised c itm_i itm_name itm_vid itm_lnk itm_tags ref_id ref_j rn ref_sec ref_field_id)
    (fun e => s <- Py.get ;;
              match ref_name s with
              | None => Py.raise (NameError "ref_name")
              | Some rn => fail "failed to check document" (mkEntry itm_name rn itm_lnk (Some e))
              end).

(** The body of the item loop (lines 577-602). *)
Definition item_body (c : Config) (all_itms : list Item) (itm_i : string) : M St unit :=
  o <- Py.try_except is_cpe (itm_j <- Py.item_get itm_i ;; Py.ret (Some itm_j))
         (fun e =>
            (* [next(i for i in all_itms if i["id"] == itm_i)] always finds it *)
            let t := match find_item all_itms itm_i with Some i => item_title i | None => EmptyString end in
            fail "failed to get item" (mkEntry t EmptyString EmptyString (Some e)) ;;; Py.ret None) ;;
  match o with
  | None => Py.ret tt
  | Some itm_j =>
      itags <- fetched_tags itm_j ;;
      let itm_name := item_title itm_j in
      let itm_vid := item_vault itm_j in
      let refs := filter (fun r => String.eqb (field_type r) "REFERENCE") (fields_of itm_j) in
      l <- Py.try_except is_cpe
             (if share_links' c then lk <- Py.share_link itm_i itm_vid ;; Py.ret (Some lk)
              else Py.ret (Some EmptyString))
             (fun e => fail "failed to get item link" (mkEntry itm_name EmptyString EmptyString (Some e)) ;;;
                       Py.ret None) ;;
      match l with
      | None => Py.ret tt
      | Some itm_lnk => Py.for_each refs (ref_body c itm_i itm_name itm_vid itm_lnk itags)
      end
  end.

(** The statistics printed when verbose (lines 501-542): [max] of an
    empty list raises when there is no item or no item has a tag. *)
Definition stats (all_itms : list Item) : M St unit :=
  if (List.length all_itms =? 0) || (List.length (flat_map tags_of all_itms) =? 0)
  then Py.raise ValueError else Py.ret tt.

Definition mk_skip (i : Item) : Entry := mkEntry (item_title i) EmptyString EmptyString None.

(** Step 1 of 2: classification (lines 499-661). *)
Definition classify (c : Config) : M St unit :=
  all_itms <- Py.item_list false [] ;;
  (if verbose' c then stats all_itms else Py.ret tt) ;;;
  let all_itms := filter (fun i => negb (String.eqb (item_category i) "DOCUMENT")) all_itms in
  s <- Py.get ;;
  let '(sk, skipped_itms) := precheck mk_skip (item_whitelist c) (item_blacklist c)
                               (tag_whitelist c) (tag_blacklist c) all_itms (skipped_docs s) in
  Py.modify (fun s => mkSt (reattached_docs s) sk (failed_docs s) (ref_name s)) ;;;
  let itm_ids := map item_id (filter (not_skipped skipped_itms) all_itms) in
  Py.for_each itm_ids (item_body c all_itms).

(** One reattachment (lines 689-732): a single handler covers all steps. *)
Definition reattach_one (c : Config) (ref_id : string) (d : Queued) : M St unit :=
  let tag := clean_tag (reattached_tag c) in
  let dry := dry_run c in
  Py.try_except catchable
    (let out_file := path_join tmp_dir (out_name (q_ref_file_name d)) in
     Py.R (DocumentGet ref_id (q_ref_vid d) out_file) ;;;
     Py.R (EditAttach (q_item_id d) (q_item_vid d) dry (q_ref_name_escaped d) out_file) ;;;
     (if negb (String.eqb tag EmptyString) then
        itm_tags <- Py.load (q_item_tags d) ;;
        if negb (existsb (String.eqb tag) itm_tags) then
          Py.append (q_item_tags d) tag ;;;
          itm_tags <- Py.load (q_item_tags d) ;;
          Py.R (EditTags (q_item_id d) (q_item_vid d) dry itm_tags)
        else Py.ret tt
      else Py.ret tt) ;;;
     Py.R (EditDeleteField (q_item_id d) (q_item_vid d) dry (q_ref_sec d) (q_ref_field_id d)) ;;;
     doc_tags <- Py.load (q_doc_tags d) ;;
     (if negb (existsb (String.eqb (tag ++ " deleted")) doc_tags) then
        Py.append (q_doc_tags d) (tag ++ " deleted") ;;;
        doc_tags <- Py.load (q_doc_tags d) ;;
        Py.R (EditTags ref_id (q_ref_vid d) dry doc_tags)
      else Py.ret tt) ;;;
     (if negb dry then Py.R (ItemDelete ref_id (q_ref_vid d) (archive_docs c)) else Py.ret tt))
    (fun e => fail "failed to reattach document" (mkEntry (q_item d) (q_document d) (q_link d) (Some e))).

(** Step 2 of 2 (lines 687-732). *)
Definition execute (c : Config) (q : DL Queued) : M St unit :=
  Py.for_each q (fun kv => Py.for_each (snd kv) (reattach_one c (fst kv))).

(** The CSV rows (lines 775-783). *)
Definition report (s : St) : list Row :=
  map (fun d => [q_item d; q_document d; q_link d; "reattached"]) (dl_values (reattached_docs s))
  ++ flat_map (fun kv => map (fun d => [e_item d; e_document d; e_link d; "skipped: " ++ fst kv]) (snd kv))
       (skipped_docs s)
  ++ flat_map (fun kv => map (fun d => [e_item d; e_document d; e_link d;
                                        "error: " ++ match e_error d with Some e => show_exn e | None => "None" end])
                             (snd kv))
       (failed_docs s).

(** The whole run: [Some rows] when the report is written. *)
Definition main (c : Config) : M St (option (list Row)) :=
  classify c ;;;
  s <- Py.get ;;
  if List.length (dl_values (reattached_docs s)) =? 0 then Py.ret None
  else
    cancel <- (if confirm' c then rsp <- Py.input ;; Py.ret (is_no rsp) else Py.ret false) ;;
    if cancel then Py.ret None
    else
      execute c (reattached_docs s) ;;;
      s' <- Py.get ;;
      Py.ret (Some (report s')).

Definition run (env : Env) (c : Config) (stdin : list string) :=
  main c env (mkIO [] stdin [], init).

End RefMode.

(** [d1 |= d2] on insertion-ordered dictionaries. *)
Fixpoint dl_set {V} (k : string) (vs : list V) (d : DL V) : DL V :=
  match d with
  | [] => [(k, vs)]
  | (k', vs') :: r => if String.eqb k k' then (k', vs) :: r else (k', vs') :: dl_set k vs r
  end.
Definition dl_merge {V} (d1 d2 : DL V) : DL V :=
  fold_left (fun d kv => dl_set (fst kv) (snd kv) d) d2 d1.

(** ** Orphan-cleanup mode: [cleanup_documents] (lines 139-470) *)
Module Cleanup.

(** A JSON object held by the script: an item with its tag list on the heap
    ([None] when the key is absent). *)
Definition PyItem := (Item * option nat)%type.

(** Entries of the dictionaries: [{"title": t}] from the pre-check, or a
    fetched document [doc_j], possibly merged with [{"referenced by": cand}]. *)
Inductive Entry :=
| Titled (t : string)
| DocJ (doc : PyItem) (ref_by : option PyItem).

Definition entry_title (e : Entry) : string :=
  match e with Titled t => t | DocJ d _ => item_title (fst d) end.

(** The [{"item", "document", "error"}] dictionaries of [failed_docs]. *)
Record Fail := mkFail { f_item : string; f_document : string; f_error : Exn }.

(** The function's dictionaries and sets, and [doc_vid], a local that
    stays bound from one loop iteration to the next. *)
Record St := mkSt {
  reattached_docs : DL Entry; skipped_docs : DL Entry; removed_docs : DL Entry;
  removal_pending_docs : DL Entry; failed_docs : DL Fail;
  removed_doc_ids : list string; doc_vid : option string }.

Definition init : St := mkSt [] [] [] [] [] [] None.

Definition reattach (k : string) (e : Entry) : M St unit :=
  Py.modify (fun s => mkSt (dl_append k e (reattached_docs s)) (skipped_docs s) (removed_docs s)
                           (removal_pending_docs s) (failed_docs s) (removed_doc_ids s) (doc_vid s)).
Definition skip (rs : string) (e : Entry) : M St unit :=
  Py.modify (fun s => mkSt (reattached_docs s) (dl_append rs e (skipped_docs s)) (removed_docs s)
                           (removal_pending_docs s) (failed_docs s) (removed_doc_ids s) (doc_vid s)).
(** [removed_docs[rs].append(e)] followed by [removed_doc_ids.add(id)]. *)
Definition remove (rs : string) (e : Entry) (id : string) : M St unit :=
  Py.modify (fun s => mkSt (reattached_docs s) (skipped_docs s) (dl_append rs e (removed_docs s))
                           (removal_pending_docs s) (failed_docs s) (id :: removed_doc_ids s) (doc_vid s)).
Definition pend (rs : string) (e : Entry) : M St unit :=
  Py.modify (fun s => mkSt (reattached_docs s) (skipped_docs s) (removed_docs s)
                           (dl_append rs e (removal_pending_docs s)) (failed_docs s) (removed_doc_ids s) (doc_vid s)).
Definition fail (rs : string) (f : Fail) : M St unit :=
  Py.modify (fun s => mkSt (reattached_docs s) (skipped_docs s) (removed_docs s)
                           (removal_pending_docs s) (dl_append rs f (failed_docs s)) (removed_doc_ids s) (doc_vid s)).
Definition set_doc_vid (v : string) : M St unit :=
  Py.modify (fun s => mkSt (reattached_docs s) (skipped_docs s) (removed_docs s)
                           (removal_pending_docs s) (failed_docs s) (removed_doc_ids s) (Some v)).

Definition is_removed (id : string) (s : St) : bool := existsb (String.eqb id) (removed_doc_ids s).

(** A JSON object read from [op]: its tag list is a new Python list. *)
Definition materialize (i : Item) : M St PyItem :=
  match item_tags i with
  | Some l => loc <- Py.alloc l ;; Py.ret (i, Some loc)
  | None => Py.ret (i, None)
  end.

Fixpoint materialize_all (l : list Item) : M St (list PyItem) :=
  match l with
  | [] => Py.ret []
  | i :: r => p <- materialize i ;; ps <- materialize_all r ;; Py.ret (p :: ps)
  end.

(** [J("item get " + id)] inside [try/except CalledProcessError]. *)
Definition try_get (id : string) (on_fail : Exn -> M St unit) : M St (option Item) :=
  Py.try_except is_cpe (i <- Py.item_get id ;; Py.ret (Some i))
    (fun e => on_fail e ;;; Py.ret None).

Definition is_archived (p : PyItem) : bool := String.eqb (item_state (fst p)) "ARCHIVED".

(** The archived-reference pass (lines 239-254). *)
Fixpoint archived_pass (doc_i doc_name : string) (doc_j : PyItem) (cands : list PyItem) : M St unit :=
  match cands with
  | [] => Py.ret tt
  | cand :: r =>
      if negb (is_archived cand) then archived_pass doc_i doc_name doc_j r
      else
        o <- try_get (item_id (fst cand))
               (fun e => fail "failed to get item" (mkFail (item_title (fst cand)) doc_name e)) ;;
        match o with
        | None => archived_pass doc_i doc_name doc_j r
        | Some itm_j =>
            let refs := filter (fun f => String.eqb (field_type f) "REFERENCE"
                                         && String.eqb (match field_value f with Some v => v | None => EmptyString end) doc_i)
                               (fields_of itm_j) in
            if List.length refs =? 0 then archived_pass doc_i doc_name doc_j r
            else remove "referenced by archived item" (DocJ doc_j (Some cand)) doc_i
        end
  end.

(** The active-overlap pass (lines 261-288). *)
Fixpoint active_pass (doc_i doc_name : string) (doc_size : Z) (doc_j : PyItem) (cands : list PyItem) : M St unit :=
  match cands with
  | [] => Py.ret tt
  | cand :: r =>
      if is_archived cand then active_pass doc_i doc_name doc_size doc_j r
      else
        o <- try_get (item_id (fst cand))
               (fun e => fail "failed to get item" (mkFail (item_title (fst cand)) doc_name e)) ;;
        match o with
        | None => active_pass doc_i doc_name doc_size doc_j r
        | Some itm_j =>
            let itm_files := files_of itm_j in
            if List.length itm_files =? 0 then active_pass doc_i doc_name doc_size doc_j r
            else if existsb (fun f => Z.eqb (file_size f) doc_size) itm_files then
              remove "already attached to item (size match)" (DocJ doc_j (Some cand)) doc_i
            else if existsb (fun f => String.eqb (file_name f)
                                        (replace (" - " ++ item_title (fst cand)) EmptyString doc_name)) itm_files then
              remove "already attached to item (name match)" (DocJ doc_j (Some cand)) doc_i
            else reattach doc_i (DocJ doc_j (Some cand))
        end
  end.

(** The test of line 231: not named like an upgrade document. *)
Definition not_upgrade_named (doc_name : string) : bool :=
  let sp := split " - " doc_name in
  let lastp := last_or EmptyString sp in
  let ext := last_or EmptyString (split "." lastp) in
  (List.length sp <? 2)
  || (contains "." lastp && (0 <? String.length ext) && (String.length ext <? 5)).

(** The body of the classification loop (lines 200-301). *)
Definition doc_body (confirm : bool) (all_docs : list Item) (all_itms_w_archive : list PyItem)
    (doc : Item) : M St unit :=
  let doc_i := item_id doc in
  o <- try_get doc_i
         (fun e => let t := match find_item all_docs doc_i with Some d => item_title d | None => item_title doc end in
                   fail "failed to get doc" (mkFail t t e)) ;;
  match o with
  | None => Py.ret tt
  | Some dj =>
      doc_j <- materialize dj ;;
      let doc_name := item_title dj in
      let doc_files := filter (fun f => negb (String.eqb (file_id f) EmptyString)) (files_of dj) in
      match doc_files with
      | [] => remove "no files" (DocJ doc_j None) doc_i
      | f0 :: _ =>
          let doc_size := file_size f0 in
          if not_upgrade_named doc_name then
            skip "not named like document from 1P v7 upgrade" (DocJ doc_j None)
          else
            let itm_check_name := strip (last_or EmptyString (split " - " doc_name)) in
            let matching_itms := filter (fun p => String.eqb (strip (item_title (fst p))) itm_check_name)
                                        all_itms_w_archive in
            archived_pass doc_i doc_name doc_j matching_itms ;;;
            s <- Py.get ;;
            if is_removed doc_i s then Py.ret tt
            else
              active_pass doc_i doc_name doc_size doc_j matching_itms ;;;
              s <- Py.get ;;
              if is_removed doc_i s then Py.ret tt
              else if confirm then pend "no matching items" (DocJ doc_j None)
              else skip "no matching items" (DocJ doc_j None)
      end
  end.

(** The arguments of [cleanup_documents]; list arguments are Python lists,
    that is heap locations, as the function receives them. *)
Record Args := mkArgs {
  a_dry_run : bool; a_archive_docs : bool; a_supervise_run : bool;
  a_confirm_before_modifying : bool; a_verbose : bool;
  a_item_whitelist : nat; a_item_blacklist : nat;
  a_doc_whitelist : nat; a_doc_blacklist : nat;
  a_tag_whitelist : nat; a_tag_blacklist : nat;
  a_generate_share_links : bool; a_reattached_tag : string }.

(** [l1 += l2]: extends the list at [l1] in place. *)
Definition extend (l1 l2 : nat) : M St unit :=
  fun _ w => let io := fst w in
             let h := io_heap io in
             let add := Py.heap_read h l2 in
             (Ok tt, (mkIO (io_trace io) (io_stdin io)
                        (map (fun p => if Nat.eqb (fst p) l1 then (fst p, (snd p ++ add)%list) else p) h),
                      snd w)).

(** One fuzzy reattachment (lines 351-399): four separate handlers. *)
Definition reattach_one (a : Args) (tag doc_id : string) (e : Entry) : M St unit :=
  match e with
  | DocJ doc_j (Some cand) =>
      let itm_i := item_id (fst cand) in
      let itm_vid := item_vault (fst cand) in
      let itm_name := item_title (fst cand) in
      let doc_name := sanitize (replace (" - " ++ itm_name) EmptyString (item_title (fst doc_j))) in
      let escaped := escape_name doc_name in
      let dry := a_dry_run a in
      Py.try_except catchable
        (let out_file := path_join tmp_dir (out_name doc_name) in
         Py.R (DocumentGet doc_id itm_vid out_file) ;;;
         Py.R (EditAttach itm_i itm_vid dry escaped out_file))
        (fun x => fail "failed to reattach document" (mkFail itm_name doc_name x)) ;;;
      Py.try_except catchable
        (if negb (String.eqb tag EmptyString) then
           loc <- Py.get_tags (snd cand) ;;
           itm_tags <- Py.load loc ;;
           if negb (existsb (String.eqb (tag ++ " fuzzy")) itm_tags) then
             Py.append loc (tag ++ " fuzzy") ;;;
             itm_tags <- Py.load loc ;;
             Py.R (EditTags itm_i itm_vid dry itm_tags)
           else Py.ret tt
         else Py.ret tt)
        (fun x => fail "failed to add reattached tag to item" (mkFail itm_name doc_name x)) ;;;
      Py.try_except catchable
        (l1 <- Py.get_tags (snd doc_j) ;;
         t1 <- Py.load l1 ;;
         if negb (existsb (String.eqb (tag ++ " deleted")) t1) then
           l2 <- Py.get_tags (snd doc_j) ;;
           Py.append l2 (tag ++ " deleted") ;;;
           doc_tags <- Py.load l2 ;;
           set_doc_vid (item_vault (fst doc_j)) ;;;
           Py.R (EditTags doc_id (item_vault (fst doc_j)) dry doc_tags)
         else Py.ret tt)
        (fun x => fail "failed to tag document before removal" (mkFail itm_name doc_name x)) ;;;
      Py.try_except catchable
        (if negb dry then
           s <- Py.get ;;
           match doc_vid s with
           | None => Py.raise (NameError "doc_vid")
           | Some v => Py.R (ItemDelete doc_id v (a_archive_docs a))
           end
         else Py.ret tt)
        (fun x => fail "failed to delete document" (mkFail itm_name doc_name x))
  | _ => Py.raise (KeyError "referenced by")
  end.

(** One removal (lines 404-425). *)
Definition remove_one (a : Args) (tag : string) (e : Entry) : M St unit :=
  match e with
  | DocJ doc_j _ =>
      let doc_id := item_id (fst doc_j) in
      let vid := item_vault (fst doc_j) in
      let doc_name := item_title (fst doc_j) in
      let dry := a_dry_run a in
      set_doc_vid vid ;;;
      Py.try_except is_cpe
        (l1 <- Py.get_tags (snd doc_j) ;;
         t1 <- Py.load l1 ;;
         if negb (existsb (String.eqb (tag ++ " deleted")) t1) then
           l2 <- Py.get_tags (snd doc_j) ;;
           Py.append l2 (tag ++ " deleted") ;;;
           doc_tags <- Py.load l2 ;;
           Py.R (EditTags doc_id vid dry doc_tags)
         else Py.ret tt)
        (fun x => fail "failed to tag document before removal" (mkFail doc_name doc_name x)) ;;;
      Py.try_except is_cpe
        (if negb dry then Py.R (ItemDelete doc_id vid (a_archive_docs a)) else Py.ret tt)
        (fun x => fail "failed to delete document" (mkFail doc_name doc_name x))
  | Titled _ => Py.raise (KeyError "id")
  end.

Definition ref_by_title (e : Entry) : string :=
  match e with DocJ _ (Some c) => item_title (fst c) | _ => EmptyString end.

(** The CSV rows (lines 454-466). *)
Definition report (s : St) : list Row :=
  map (fun d => [entry_title d; "reattached"; ref_by_title d; "matched by item/doc name"])
      (dl_values (reattached_docs s))
  ++ flat_map (fun kv => map (fun d => [entry_title d; "removed"; ref_by_title d; fst kv]) (snd kv))
       (removed_docs s)
  ++ flat_map (fun kv => map (fun d => [entry_title d; "skipped"; EmptyString; fst kv]) (snd kv))
       (skipped_docs s)
  ++ flat_map (fun kv => map (fun d => [f_item d; fst kv; f_document d; show_exn (f_error d)]) (snd kv))
       (failed_docs s).

(** Step 1 of 3: listing, pre-check and classification (lines 153-301). *)
Definition classify (a : Args) : M St unit :=
  let confirm := a_confirm_before_modifying a || a_supervise_run a in
  docs0 <- Py.item_list false [] ;;
  let all_docs := filter (fun i => String.eqb (item_category i) "DOCUMENT") docs0 in
  twl <- Py.load (a_tag_whitelist a) ;;
  itms0 <- Py.item_list true twl ;;
  all_itms_w_archive <- materialize_all (filter (fun i => negb (String.eqb (item_category i) "DOCUMENT")) itms0) ;;
  extend (a_item_whitelist a) (a_doc_whitelist a) ;;;
  extend (a_item_blacklist a) (a_doc_blacklist a) ;;;
  wl <- Py.load (a_item_whitelist a) ;;
  bl <- Py.load (a_item_blacklist a) ;;
  tbl <- Py.load (a_tag_blacklist a) ;;
  s <- Py.get ;;
  let '(sk, skipped_itms) := precheck (fun i => Titled (item_title i)) wl bl twl tbl all_docs (skipped_docs s) in
  Py.modify (fun s => mkSt (reattached_docs s) sk (removed_docs s) (removal_pending_docs s)
                           (failed_docs s) (removed_doc_ids s) (doc_vid s)) ;;;
  let all_docs := filter (not_skipped skipped_itms) all_docs in
  Py.for_each all_docs (doc_body confirm all_docs all_itms_w_archive).

(** Steps 2 and 3 (lines 350-425). *)
Definition execute (a : Args) : M St unit :=
  let tag := clean_tag (a_reattached_tag a) in
  s <- Py.get ;;
  Py.for_each (reattached_docs s) (fun kv => Py.for_each (snd kv) (reattach_one a tag (fst kv))) ;;;
  s <- Py.get ;;
  Py.for_each (dl_values (removed_docs s)) (remove_one a tag).

(** The whole function: [Some rows] when the report is written. *)
Definition cleanup_documents (a : Args) : M St (option (list Row)) :=
  let confirm := a_confirm_before_modifying a || a_supervise_run a in
  classify a ;;;
  s <- Py.get ;;
  let n_re := List.length (dl_values (reattached_docs s)) in
  let n_rm := List.length (dl_values (removed_docs s)) in
  let n_pend := List.length (dl_values (removal_pending_docs s)) in
  cancel <- (if confirm && ((0 <? n_rm) || (0 <? n_re))
             then rsp <- Py.input ;; Py.ret (is_no rsp) else Py.ret false) ;;
  if cancel then Py.ret None
  else
    (if 0 <? n_pend then
       rsp <- Py.input ;;
       if is_yes rsp then
         Py.modify (fun s => mkSt (reattached_docs s) (skipped_docs s)
                                  (dl_merge (removed_docs s) (removal_pending_docs s))
                                  (removal_pending_docs s) (failed_docs s) (removed_doc_ids s) (doc_vid s))
       else Py.ret tt
     else Py.ret tt) ;;;
    execute a ;;;
    s <- Py.get ;;
    Py.ret (Some (report s)).

Definition run (env : Env) (a : Args) (heap : list (nat * list string)) (stdin : list string) :=
  cleanup_documents a env (mkIO [] stdin heap, init).

End Cleanup.

(** ** Concrete stores and configurations *)
Module Scenarios.
Local Open Scope Z_scope.

Definition no_fail : Cmd -> bool := fun _ => false.
Definition doc_get_fails : Cmd -> bool :=
  fun c => match c with DocumentGet _ _ _ => true | _ => false end.

(** Orphan documents and candidate owners. *)
Definition passport_doc : Item :=
  mkItem "d1" "Passport - Jane Doe" "DOCUMENT" EmptyString "v" None None
         (Some [mkFile "f1" "passport.pdf" 100]).
Definition jane_no_files : Item :=
  mkItem "i1" "Jane Doe" "IDENTITY" EmptyString "v" None None None.
Definition jane_with_file : Item :=
  mkItem "i2" "Jane Doe" "IDENTITY" EmptyString "v" None None
         (Some [mkFile "g1" "scan.pdf" 100]).
Definition empty_doc : Item :=
  mkItem "d3" "Passport - Jane Doe" "DOCUMENT" EmptyString "v" None None None.

(** The default list arguments of [cleanup_documents] are the list objects
    at locations 0 to 5, created once with the function. *)
Definition default_heap : list (nat * list string) :=
  [(0%nat, []); (1%nat, []); (2%nat, []); (3%nat, []); (4%nat, []); (5%nat, [])].
Definition default_args : Cleanup.Args :=
  Cleanup.mkArgs true true false false false 0 1 2 3 4 5 false EmptyString.
(** [cleanup_documents(doc_whitelist=["Receipt"])] *)
Definition receipt_heap : list (nat * list string) := (default_heap ++ [(6%nat, ["Receipt"])])%list.
Definition receipt_args : Cleanup.Args :=
  Cleanup.mkArgs true true false false false 0 1 6 3 4 5 false EmptyString.

(** An item holding a reference field to a document. *)
Definition ref_field : Field := mkField "fld1" "REFERENCE" (Some "d2") (Some "Documents").
Definition owner : Item :=
  mkItem "i1" "Jane Doe" "IDENTITY" EmptyString "v" None (Some [ref_field]) None.
Definition two_file_doc : Item :=
  mkItem "d2" "Passport" "DOCUMENT" EmptyString "v" None None
         (Some [mkFile "f1" "passport.pdf" 100; mkFile "f2" "visa.pdf" 50]).
Definition one_file_doc : Item :=
  mkItem "d2" "Passport" "DOCUMENT" EmptyString "v" None None
         (Some [mkFile "f1" "passport.pdf" 100]).
Definition ref_cfg (dry : bool) : Config :=
  mkConfig dry true false false false [] [] [] [] [] [] false "linked docs reattached".

(** Confirmation and supervision switched on. *)
Definition confirm_cfg : Config :=
  mkConfig false true false true false [] [] [] [] [] [] false "linked docs reattached".
Definition supervise_cfg : Config :=
  mkConfig false true true false false [] [] [] [] [] [] false "linked docs reattached".
Definition confirm_args : Cleanup.Args :=
  Cleanup.mkArgs false true false true false 0 1 2 3 4 5 false EmptyString.
Definition owner_env : Env := mkEnv [owner; one_file_doc] no_fail.
Definition passport_env : Env := mkEnv [passport_doc; jane_with_file] no_fail.

(** An archived owner still holding a reference to [passport_doc]. *)
Definition archived_owner : Item :=
  mkItem "i3" "Jane Doe" "IDENTITY" "ARCHIVED" "v" None
         (Some [mkField "fld2" "REFERENCE" (Some "d1") (Some "Documents")]) None.

(** A live cleanup run with the default lists. *)
Definition live_args : Cleanup.Args :=
  Cleanup.mkArgs false true false false false 0 1 2 3 4 5 false EmptyString.

End Scenarios.

(** ** Predicates on runs *)

(** No call in the list changes the store. *)
Definition no_mutation (l : list Cmd) : bool := forallb (fun c => negb (mutating c)) l.

(** A computation that issues no mutating call. *)
Definition readonly {S A} (m : M S A) : Prop :=
  forall env w r w', m env w = (r, w') ->
    exists l, io_trace (fst w') = (io_trace (fst w) ++ l)%list /\ no_mutation l = true.

(** A fetch that the store answers. *)
Definition fetch_ok (env : Env) (id : string) (it : Item) : Prop :=
  find_item (store env) id = Some it /\ fails env (ItemGet id) = false.

(** [cleanup_documents]'s state with [failed_docs] replaced. *)
Definition with_failed (fl : DL Cleanup.Fail) (s : Cleanup.St) : Cleanup.St :=
  Cleanup.mkSt (Cleanup.reattached_docs s) (Cleanup.skipped_docs s) (Cleanup.removed_docs s)
    (Cleanup.removal_pending_docs s) fl (Cleanup.removed_doc_ids s) (Cleanup.doc_vid s).

(** The test of lines 247-249: [itm_j] has a REFERENCE field whose value
    is [doc_i]. *)
Definition holds_reference (doc_i : string) (itm_j : Item) : bool :=
  negb (List.length (filter (fun f => String.eqb (field_type f) "REFERENCE"
                                      && String.eqb (match field_value f with Some v => v | None => EmptyString end) doc_i)
                            (fields_of itm_j)) =? 0).

(** Every call of the list is accepted by the store. *)
Definition all_ok (env : Env) (l : list Cmd) : bool := forallb (fun c => negb (fails env c)) l.

(** A computation that leaves the script's state alone and issues calls
    until the first rejected one, which is the last call it issues and
    whose [CalledProcessError] it raises. *)
Definition halts_at_rejection {S A} (m : M S A) : Prop :=
  forall env io s r io' s', m env (io, s) = (r, (io', s')) ->
    s' = s /\ exists l, io_trace io' = (io_trace io ++ l)%list /\
      (((exists a, r = Ok a) /\ all_ok env l = true)
       \/ exists l0 cf, l = (l0 ++ [cf])%list /\ all_ok env l0 = true /\ fails env cf = true
                        /\ r = Exc (CalledProcessError cf)).

(** A step of the cleanup executor: it only appends calls, raises nothing
    but [CalledProcessError], and keeps [doc_vid] bound once it is. *)
Definition tame {A} (m : M Cleanup.St A) : Prop :=
  forall env io s r io' s', m env (io, s) = (r, (io', s')) ->
    (exists l, io_trace io' = (io_trace io ++ l)%list)
    /\ (Cleanup.doc_vid s <> None -> Cleanup.doc_vid s' <> None)
    /\ (forall e, r = Exc e -> is_cpe e = true).

(** ** Dry runs *)


Definition is_delete (c : Cmd) : bool :=
  match c with ItemDelete _ _ _ => true | _ => false end.





(** ** Auxiliary definitions for further properties *)

(** Every character of a string satisfies [p]. *)
Fixpoint str_all (p : ascii -> bool) (s : string) : bool :=
  match s with EmptyString => true | String c r => p c && str_all p r end.

(** The characters [sanitize] lets through: no blacklisted character and
    no code point below 32. *)
Definition sanitize_ok_char (c : ascii) : bool :=
  negb (existsb (Ascii.eqb c) sanitize_blacklist) && (31 <? nat_of_ascii c).

(** Put a character in front of the first piece of a split. *)
Definition prepend (c : ascii) (l : list string) : list string :=
  match l with x :: r => String c x :: r | [] => [] end.

Definition no_char (o : ascii) (ch : ascii) : bool := negb (Ascii.eqb ch o).

(** A character that neither separates paths nor needs shell quoting. *)
Definition plain_name_char (ch : ascii) : bool :=
  no_char "/" ch && no_char " " ch && no_char (ascii_of_nat 34) ch && no_char "'" ch.

(** Every location holds at least what it held before. *)
Definition heap_sub (h h' : list (nat * list string)) : Prop :=
  forall loc x, In x (Py.heap_read h loc) -> In x (Py.heap_read h' loc).

(** A cleanup computation that only grows the heap, only appends to the
    trace and leaves [doc_vid] alone. *)
Definition mono {A} (m : M Cleanup.St A) : Prop :=
  forall env io s r io' s', m env (io, s) = (r, (io', s')) ->
    heap_sub (io_heap io) (io_heap io') /\ Cleanup.doc_vid s' = Cleanup.doc_vid s
    /\ exists l, io_trace io' = (io_trace io ++ l)%list.

(** Some tag of the item is refused by the tag lists. *)
Definition tag_denied (twl tbl : list string) (itm : Item) : Prop :=
  exists t, In t (tags_of itm) /\ denied (allowed_by_white_black_lists t twl tbl true) = true.

(** A name longer than 255 characters whose only dot follows its first
    character: [sanitize] keeps the first character and the last 254
    characters of the extension. *)
Definition probe (r : string) : string :=
  match r with
  | String c t => String c ("." ++ repeat_char 253 "x"%char ++ t)
  | EmptyString => EmptyString
  end.

(** An identity whose file differs in size and name from [passport_doc]'s. *)
Definition jane_other_scan : Item :=
  mkItem "i2" "Jane Doe" "IDENTITY" EmptyString "v" None None
         (Some [mkFile "g1" "scan.pdf" 50%Z]).

(** A queued reattachment whose file name is an absolute path. *)
Definition abs_queued : RefMode.Queued :=
  RefMode.mkQueued "Jane Doe" "Passport" EmptyString "v" "Passport" "Documents" "fld1"
                   "/etc/passport.pdf" "i1" "v" 0 1.

(** A 7-bit ASCII character: NFKD leaves it alone, and among the characters
    from 32 on, [str.isspace] holds for the space only. *)
Definition ascii7 (c : ascii) : bool := nat_of_ascii c <? 128.

(** What reference-mode execution does to the outcome lists of
    classification [s] when it ends in [s']: the reattached and skipped
    entries stay as they are, and the failed entries only grow, each new one
    naming a document queued in [q]. *)
Definition ref_exec_inv (q : DL RefMode.Queued) (s s' : RefMode.St) : Prop :=
  RefMode.reattached_docs s' = RefMode.reattached_docs s
  /\ RefMode.skipped_docs s' = RefMode.skipped_docs s
  /\ (forall x, In x (dl_values (RefMode.failed_docs s)) -> In x (dl_values (RefMode.failed_docs s')))
  /\ (forall x, In x (dl_values (RefMode.failed_docs s')) ->
        In x (dl_values (RefMode.failed_docs s))
        \/ exists d e, In d (dl_values q)
           /\ x = RefMode.mkEntry (RefMode.q_item d) (RefMode.q_document d) (RefMode.q_link d) (Some e)).


(** An archived identity named like [passport_doc]'s owner, without any
    reference field. *)
Definition archived_jane : Item :=
  mkItem "i4" "Jane Doe" "IDENTITY" "ARCHIVED" "v" None None None.

(** Reference mode with [verbose] on. *)
Definition verbose_cfg : Config :=
  mkConfig false true false false true [] [] [] [] [] [] false "linked docs reattached".

(** * Properties *)
Example sanitize_ex1 : sanitize "a/b:c. " = "abc". Proof. reflexivity. Qed.
Example sanitize_ex2 : sanitize "CON" = "__CON". Proof. reflexivity. Qed.
Example sanitize_ex3 : sanitize "..." = "__". Proof. reflexivity. Qed.
Example split_ex : split " - " "Passport - Jane Doe" = ["Passport"; "Jane Doe"].
Proof. reflexivity. Qed.
Example replace_ex : replace " - Jane Doe" EmptyString "Passport - Jane Doe" = "Passport".
Proof. reflexivity. Qed.


Import Scenarios.

(** ** The filename sanitizer *)

(** C10 (code bug): [sanitize] is meant to keep names within the Windows
    limit of 255 characters, yet for the 602-character name "a." followed by
    600 "b"s it returns a 347-character name: the extension is cut with
    [ext[254:]], which keeps its tail, and the budget [255 - len(ext)] then
    goes negative. *)
Theorem sanitize_long_extension_length :
  String.length (sanitize long_ext_name) = 347.
Proof. vm_compute. reflexivity. Qed.

(** ** The eligibility filter *)

Lemma length_eqb_0 {A} (l : list A) : (List.length l =? 0) = true <-> l = [].
Proof. destruct l; simpl; split; intro H; congruence. Qed.

Lemma forallb_negb_iff {A} (p : A -> bool) (l : list A) :
  forallb (fun x => negb (p x)) l = true <-> (forall x, In x l -> p x = false).
Proof.
  rewrite forallb_forall. split; intros H x Hx; specialize (H x Hx).
  - now apply negb_true_iff.
  - now rewrite H.
Qed.

(** C7: a title is admitted iff (the whitelist is empty or one of its terms
    occurs in the title, ignoring case) and (the blacklist is empty or none of
    its terms occurs in it); a denied title is recorded once, under "item
    blacklisted" exactly when the blacklist test failed and under "item not on
    whitelist" otherwise, and its tags are then not examined. *)
Theorem title_filter_spec :
  (forall s wl bl,
     denied (allowed_by_white_black_lists s wl bl false) = false <->
     ((wl = [] \/ exists w, In w wl /\ contains (lower w) (lower s) = true) /\
      (bl = [] \/ forall b, In b bl -> contains (lower b) (lower s) = false)))
  /\
  (forall E (mk : Item -> E) wl bl twl tbl sk ids itm,
     denied (allowed_by_white_black_lists (item_title itm) wl bl false) = true ->
     exists rs,
       precheck_one mk wl bl twl tbl (sk, ids) itm = (dl_append rs (mk itm) sk, item_id itm :: ids)
       /\ (rs = "item blacklisted" <->
           snd (allowed_by_white_black_lists (item_title itm) wl bl false) = false)
       /\ (rs = "item not on whitelist" <->
           snd (allowed_by_white_black_lists (item_title itm) wl bl false) = true)).
Proof.
  split.
  - intros s wl bl. unfold denied, allowed_by_white_black_lists; simpl.
    rewrite orb_false_iff, !negb_false_iff, !orb_true_iff, existsb_exists,
      forallb_negb_iff, !length_eqb_0.
    reflexivity.
  - intros E mk wl bl twl tbl sk ids itm Hd.
    unfold precheck_one.
    destruct (allowed_by_white_black_lists (item_title itm) wl bl false) as [a b].
    unfold denied in *; simpl in *.
    destruct a, b; simpl in Hd; try discriminate; simpl; rewrite String.eqb_refl; simpl.
    all: eexists; split; [reflexivity|]; split; split; intro H; try discriminate; reflexivity.
Qed.

(** A blacklisted title at a concrete input. *)
Lemma title_filter_spec_witness :
  denied (allowed_by_white_black_lists "Passport - Jane Doe" [] ["passport"] false) = true /\
  exists rs,
    precheck_one (fun i => item_title i) [] ["passport"] [] [] ([], []) passport_doc
      = (dl_append rs "Passport - Jane Doe" [], "d1" :: [])
    /\ (rs = "item blacklisted" <->
        snd (allowed_by_white_black_lists "Passport - Jane Doe" [] ["passport"] false) = false)
    /\ (rs = "item not on whitelist" <->
        snd (allowed_by_white_black_lists "Passport - Jane Doe" [] ["passport"] false) = true).
Proof.
  split; [vm_compute; reflexivity|].
  apply (proj2 title_filter_spec string (fun i => item_title i) [] ["passport"] [] [] [] [] passport_doc).
  vm_compute. reflexivity.
Defined.

(** ** Reference mode: multi-file documents *)

(** C4: once a referenced document reaches the file check (lines 637-656),
    more than one attached file records [Skip{more than one file}] and the
    document is nevertheless queued for reattachment, carrying its first
    file. *)
Theorem multi_file_doc_still_queued :
  forall env w itm_i itm_name itm_vid itm_lnk itags ref_id ref_j rn sec fid fs,
    item_files ref_j = Some fs -> 1 < List.length fs ->
    exists w' f q,
      RefMode.after_gate itm_i itm_name itm_vid itm_lnk itags ref_id ref_j rn sec fid env w
        = (Ok tt, w')
      /\ RefMode.skipped_docs (snd w')
         = dl_append "more than one file" (RefMode.mkEntry itm_name rn itm_lnk None)
             (RefMode.skipped_docs (snd w))
      /\ RefMode.reattached_docs (snd w') = dl_append ref_id q (RefMode.reattached_docs (snd w))
      /\ hd_error fs = Some f
      /\ RefMode.q_ref_file_name q = file_name f
      /\ RefMode.q_document q = rn.
Proof.
  intros env [io s] itm_i itm_name itm_vid itm_lnk itags ref_id ref_j rn sec fid fs Hf Hlen.
  destruct fs as [|f [|f2 rest]]; simpl in Hlen; try lia.
  unfold RefMode.after_gate, RefMode.key_files. rewrite Hf.
  destruct itags; cbn; do 3 eexists; repeat split; reflexivity.
Qed.

Lemma multi_file_doc_still_queued_witness :
  item_files two_file_doc = Some [mkFile "f1" "passport.pdf" 100%Z; mkFile "f2" "visa.pdf" 50%Z]
  /\ 1 < List.length [mkFile "f1" "passport.pdf" 100%Z; mkFile "f2" "visa.pdf" 50%Z]
  /\ exists w' f q,
      RefMode.after_gate "i1" "Jane Doe" "v" EmptyString None "d2" two_file_doc "Passport" "Documents" "fld1"
        (mkEnv [owner; two_file_doc] no_fail) (mkIO [] [] [], RefMode.init) = (Ok tt, w')
      /\ RefMode.skipped_docs (snd w')
         = dl_append "more than one file" (RefMode.mkEntry "Jane Doe" "Passport" EmptyString None)
             (RefMode.skipped_docs RefMode.init)
      /\ RefMode.reattached_docs (snd w') = dl_append "d2" q (RefMode.reattached_docs RefMode.init)
      /\ hd_error [mkFile "f1" "passport.pdf" 100%Z; mkFile "f2" "visa.pdf" 50%Z] = Some f
      /\ RefMode.q_ref_file_name q = file_name f
      /\ RefMode.q_document q = "Passport".
Proof.
  split; [reflexivity|]. split; [simpl; lia|].
  apply (multi_file_doc_still_queued (mkEnv [owner; two_file_doc] no_fail) (mkIO [] [] [], RefMode.init)
           "i1" "Jane Doe" "v" EmptyString None "d2" two_file_doc "Passport" "Documents" "fld1"
           [mkFile "f1" "passport.pdf" 100%Z; mkFile "f2" "visa.pdf" 50%Z]);
    [reflexivity | simpl; lia].
Defined.

(** ** Orphan-cleanup mode: the shared default lists *)

(** C9: [cleanup_documents] extends [item_whitelist] with [doc_whitelist]
    in place.  After one call with [doc_whitelist=["Receipt"]] the default
    [item_whitelist] object holds "Receipt", and a later call with all
    arguments defaulted skips as "item not on whitelist" the document that
    the same all-default call, made before, removed for having no files. *)
Theorem default_lists_leak_between_calls :
  let snap := mkEnv [empty_doc] no_fail in
  let h1 := io_heap (fst (snd (Cleanup.run snap receipt_args receipt_heap []))) in
  Py.heap_read h1 0 = ["Receipt"]
  /\ Cleanup.removed_docs (snd (snd (Cleanup.run snap default_args receipt_heap [])))
     = [("no files", [Cleanup.DocJ (empty_doc, None) None])]
  /\ Cleanup.skipped_docs (snd (snd (Cleanup.run snap default_args receipt_heap []))) = []
  /\ Cleanup.removed_docs (snd (snd (Cleanup.run snap default_args h1 []))) = []
  /\ Cleanup.skipped_docs (snd (snd (Cleanup.run snap default_args h1 [])))
     = [("item not on whitelist", [Cleanup.Titled "Passport - Jane Doe"])].
Proof. vm_compute. repeat split. Qed.

(** ** Concrete runs refuting claims as stated *)

(** C1 (counterexample): "Passport - Jane Doe" with one file, and "Jane Doe"
    active with no file: the document is not reattached; it is skipped as
    "no matching items". *)
Lemma fuzzy_needs_files_counterexample :
  let s := snd (snd (Cleanup.run (mkEnv [passport_doc; jane_no_files] no_fail)
                                 default_args default_heap [])) in
  Cleanup.reattached_docs s = []
  /\ Cleanup.skipped_docs s = [("no matching items", [Cleanup.DocJ (passport_doc, None) None])].
Proof. vm_compute. split; reflexivity. Qed.

(** C2 (counterexample): an item referencing a two-file document; the
    report lists the document twice, as reattached and as skipped, and a
    third time, as an error, when the store rejects its download. *)
Lemma report_twice_counterexample :
  fst (RefMode.run (mkEnv [owner; two_file_doc] no_fail) (ref_cfg true) [])
  = Ok (Some [["Jane Doe"; "Passport"; EmptyString; "reattached"];
              ["Jane Doe"; "Passport"; EmptyString; "skipped: more than one file"]])
  /\ fst (RefMode.run (mkEnv [owner; two_file_doc] doc_get_fails) (ref_cfg false) [])
     = Ok (Some [["Jane Doe"; "Passport"; EmptyString; "reattached"];
                 ["Jane Doe"; "Passport"; EmptyString; "skipped: more than one file"];
                 ["Jane Doe"; "Passport"; EmptyString; "error: " ++ show_exn (CalledProcessError
                    (DocumentGet "d2" "v" "/tmp/op/passport.pdf"))]]).
Proof. split; vm_compute; reflexivity. Qed.

(** C3 (counterexample): in reference mode, when the download is rejected,
    no later step of that reattachment is attempted. *)
Lemma reattach_stops_at_failure_counterexample :
  io_trace (fst (snd (RefMode.run (mkEnv [owner; one_file_doc] doc_get_fails) (ref_cfg false) [])))
  = [ItemList false []; ItemGet "i1"; ItemGet "d2"; DocumentGet "d2" "v" "/tmp/op/passport.pdf"].
Proof. vm_compute. reflexivity. Qed.

(** C5 (counterexample): two active owners named "Jane Doe", the first
    without files; the second one, holding a file of the same size, decides
    the outcome. *)
Lemma first_active_candidate_counterexample :
  let s := snd (snd (Cleanup.run (mkEnv [passport_doc; jane_no_files; jane_with_file] no_fail)
                                 default_args default_heap [])) in
  Cleanup.reattached_docs s = []
  /\ Cleanup.removed_docs s
     = [("already attached to item (size match)",
         [Cleanup.DocJ (passport_doc, None) (Some (jane_with_file, None))])].
Proof. vm_compute. split; reflexivity. Qed.


(** ** Classification issues no mutating call *)

Section Readonly.
Context {S : Type}.

Lemma ro_ret {A} (a : A) : readonly (S:=S) (Py.ret a).
Proof. intros env w r w' H. inversion H; subst. exists []. rewrite app_nil_r. split; reflexivity. Qed.

Lemma ro_raise {A} (e : Exn) : readonly (S:=S) (A:=A) (Py.raise e).
Proof. intros env w r w' H. inversion H; subst. exists []. rewrite app_nil_r. split; reflexivity. Qed.

Lemma ro_get : readonly (S:=S) Py.get.
Proof. intros env w r w' H. inversion H; subst. exists []. rewrite app_nil_r. split; reflexivity. Qed.

Lemma ro_modify f : readonly (S:=S) (Py.modify f).
Proof. intros env w r w' H. inversion H; subst. exists []. rewrite app_nil_r. split; reflexivity. Qed.

Lemma ro_input : readonly (S:=S) Py.input.
Proof.
  intros env [io s] r w' H. unfold Py.input in H. simpl in H.
  destruct (io_stdin io); inversion H; subst; exists []; rewrite app_nil_r; split; reflexivity.
Qed.

Lemma ro_alloc l : readonly (S:=S) (Py.alloc l).
Proof. intros env [io s] r w' H. inversion H; subst. exists []. rewrite app_nil_r. split; reflexivity. Qed.

Lemma ro_load loc : readonly (S:=S) (Py.load loc).
Proof. intros env [io s] r w' H. inversion H; subst. exists []. rewrite app_nil_r. split; reflexivity. Qed.

Lemma ro_append loc x : readonly (S:=S) (Py.append loc x).
Proof. intros env [io s] r w' H. inversion H; subst. exists []. rewrite app_nil_r. split; reflexivity. Qed.

Lemma ro_get_tags t : readonly (S:=S) (Py.get_tags t).
Proof. destruct t; [apply ro_ret | apply ro_alloc]. Qed.

Lemma ro_R c : mutating c = false -> readonly (S:=S) (Py.R c).
Proof.
  intros Hc env [io s] r w' H. unfold Py.R in H. simpl in H.
  exists [c]. unfold no_mutation; simpl. rewrite Hc.
  destruct (fails env c); inversion H; subst; split; reflexivity.
Qed.

Lemma ro_item_get id : readonly (S:=S) (Py.item_get id).
Proof.
  intros env [io s] r w' H. unfold Py.item_get in H. simpl in H.
  exists [ItemGet id].
  destruct (find_item (store env) id); [destruct (fails env (ItemGet id))|];
    inversion H; subst; split; reflexivity.
Qed.

Lemma ro_item_list ia tags : readonly (S:=S) (Py.item_list ia tags).
Proof.
  intros env [io s] r w' H. unfold Py.item_list in H. simpl in H.
  exists [ItemList ia tags]. destruct (fails env _); inversion H; subst; split; reflexivity.
Qed.

Lemma ro_share_link id v : readonly (S:=S) (Py.share_link id v).
Proof.
  intros env [io s] r w' H. unfold Py.share_link in H. simpl in H.
  exists [ShareLink id v]. destruct (fails env _); inversion H; subst; split; reflexivity.
Qed.

Lemma no_mutation_app l1 l2 : no_mutation (l1 ++ l2) = no_mutation l1 && no_mutation l2.
Proof. unfold no_mutation. apply forallb_app. Qed.

Lemma ro_bind {A B} (m : M S A) (f : A -> M S B) :
  readonly m -> (forall a, readonly (f a)) -> readonly (Py.bind m f).
Proof.
  intros Hm Hf env w r w' H. unfold Py.bind in H.
  destruct (m env w) as [[a|e] w1] eqn:E1.
  - destruct (Hm _ _ _ _ E1) as [l1 [T1 N1]].
    destruct (Hf a _ _ _ _ H) as [l2 [T2 N2]].
    exists (l1 ++ l2)%list. rewrite T2, T1, app_assoc, no_mutation_app, N1, N2. split; reflexivity.
  - inversion H; subst. exact (Hm _ _ _ _ E1).
Qed.

Lemma ro_try {A} p (m : M S A) h :
  readonly m -> (forall e, readonly (h e)) -> readonly (Py.try_except p m h).
Proof.
  intros Hm Hh env w r w' H. unfold Py.try_except in H.
  destruct (m env w) as [[a|e] w1] eqn:E1.
  - inversion H; subst. exact (Hm _ _ _ _ E1).
  - destruct (Hm _ _ _ _ E1) as [l1 [T1 N1]].
    destruct (p e).
    + destruct (Hh e _ _ _ _ H) as [l2 [T2 N2]].
      exists (l1 ++ l2)%list. rewrite T2, T1, app_assoc, no_mutation_app, N1, N2. split; reflexivity.
    + inversion H; subst. exists l1. split; assumption.
Qed.

Lemma ro_for_each {A} (xs : list A) (body : A -> M S unit) :
  (forall x, readonly (body x)) -> readonly (Py.for_each xs body).
Proof.
  intros Hb. induction xs as [|x r IH]; simpl.
  - apply ro_ret.
  - apply ro_bind; [apply Hb | intros _; exact IH].
Qed.

End Readonly.

Create HintDb readonly_db.
#[export] Hint Resolve ro_ret ro_raise ro_get ro_modify ro_input ro_alloc ro_load ro_append
  ro_get_tags ro_item_get ro_item_list ro_share_link : readonly_db.

(** Decompose a computation into the primitives above. *)
Ltac readonly_step :=
  match goal with
  | |- readonly (Py.bind _ _) => apply ro_bind; [|intro]
  | |- readonly (Py.try_except _ _ _) => apply ro_try; [|intro]
  | |- readonly (Py.for_each _ _) => apply ro_for_each; intro
  | |- readonly (if ?b then _ else _) => destruct b
  | |- readonly (match ?x with _ => _ end) => destruct x
  | |- readonly (let '(_, _) := ?p in _) => destruct p
  | |- readonly _ => solve [eauto with readonly_db]
  end.

Lemma ro_extend l1 l2 : readonly (Cleanup.extend l1 l2).
Proof. intros env [io s] r w' H. inversion H; subst. exists []. rewrite app_nil_r. split; reflexivity. Qed.
#[export] Hint Resolve ro_extend : readonly_db.

Lemma ro_ref_classify c : readonly (RefMode.classify c).
Proof.
  unfold RefMode.classify, RefMode.item_body, RefMode.ref_body, RefMode.supervised, RefMode.gate,
    RefMode.after_gate, RefMode.stats, RefMode.skip, RefMode.fail, RefMode.queue, RefMode.key_value,
    RefMode.key_section, RefMode.key_files, RefMode.fresh_tags, RefMode.fetched_tags.
  cbv zeta. repeat readonly_step.
Qed.

Lemma ro_materialize_all l : readonly (Cleanup.materialize_all l).
Proof.
  induction l as [|i r IH]; simpl.
  - apply ro_ret.
  - unfold Cleanup.materialize. repeat readonly_step.
Qed.
#[export] Hint Resolve ro_materialize_all : readonly_db.

Lemma ro_archived_pass doc_i doc_name doc_j cands :
  readonly (Cleanup.archived_pass doc_i doc_name doc_j cands).
Proof.
  induction cands as [|cand r IH]; simpl.
  - apply ro_ret.
  - unfold Cleanup.try_get, Cleanup.fail, Cleanup.remove. cbv zeta. repeat readonly_step.
Qed.

Lemma ro_active_pass doc_i doc_name doc_size doc_j cands :
  readonly (Cleanup.active_pass doc_i doc_name doc_size doc_j cands).
Proof.
  induction cands as [|cand r IH]; simpl.
  - apply ro_ret.
  - unfold Cleanup.try_get, Cleanup.fail, Cleanup.remove, Cleanup.reattach. cbv zeta. repeat readonly_step.
Qed.
#[export] Hint Resolve ro_archived_pass ro_active_pass : readonly_db.

Lemma ro_cleanup_classify a : readonly (Cleanup.classify a).
Proof.
  unfold Cleanup.classify, Cleanup.doc_body, Cleanup.try_get, Cleanup.fail, Cleanup.remove,
    Cleanup.skip, Cleanup.pend, Cleanup.materialize.
  cbv zeta. repeat readonly_step.
Qed.

(** ** Claim C8 *)

(** C8: declining the batch-confirmation gate ends the run before the
    executor: in reference mode and in cleanup mode, when classification has
    queued something and the operator answers no, the run returns without a
    report and no call it issued was mutating. Declining the supervised
    per-document gate (after the share link is fetched) only appends that
    document to [skipped_docs] under user skipped, consumes the answer and
    leaves every other record unchanged. *)
Theorem batch_decline_no_mutation :
  (forall env c stdin io s rsp rest,
     RefMode.classify c env (mkIO [] stdin [], RefMode.init) = (Ok tt, (io, s)) ->
     dl_values (RefMode.reattached_docs s) <> [] ->
     confirm' c = true -> io_stdin io = rsp :: rest -> is_no rsp = true ->
     RefMode.run env c stdin = (Ok None, (mkIO (io_trace io) rest (io_heap io), s))
     /\ no_mutation (io_trace io) = true)
  /\ (forall env a heap stdin io s rsp rest,
     Cleanup.classify a env (mkIO [] stdin heap, Cleanup.init) = (Ok tt, (io, s)) ->
     (dl_values (Cleanup.removed_docs s) <> [] \/ dl_values (Cleanup.reattached_docs s) <> []) ->
     Cleanup.a_confirm_before_modifying a || Cleanup.a_supervise_run a = true ->
     io_stdin io = rsp :: rest -> is_no rsp = true ->
     Cleanup.run env a heap stdin = (Ok None, (mkIO (io_trace io) rest (io_heap io), s))
     /\ no_mutation (io_trace io) = true)
  /\ (forall c env io s itm_i itm_name itm_vid itm_lnk itags ref_id ref_j rn sec fid rsp rest,
     supervise_run c = true -> fails env (ShareLink ref_id (item_vault ref_j)) = false ->
     io_stdin io = rsp :: rest -> is_no rsp = true ->
     RefMode.supervised c itm_i itm_name itm_vid itm_lnk itags ref_id ref_j rn sec fid env (io, s)
     = (Ok tt, (mkIO (io_trace io ++ [ShareLink ref_id (item_vault ref_j)])%list rest (io_heap io),
                RefMode.mkSt (RefMode.reattached_docs s)
                  (dl_append "user skipped" (RefMode.mkEntry itm_name rn itm_lnk None) (RefMode.skipped_docs s))
                  (RefMode.failed_docs s) (RefMode.ref_name s)))).
Proof.
  split; [|split].
  - intros env c stdin io s rsp rest Hcls Hne Hconf Hin Hno.
    destruct (ro_ref_classify c _ _ _ _ Hcls) as [l [Tl Nl]]. simpl in Tl.
    split; [|rewrite Tl; exact Nl].
    unfold RefMode.run, RefMode.main, Py.bind. rewrite Hcls. simpl.
    destruct (dl_values (RefMode.reattached_docs s)) eqn:E; [congruence|]. simpl.
    rewrite Hconf. unfold Py.input. simpl. rewrite Hin, Hno. reflexivity.
  - intros env a heap stdin io s rsp rest Hcls Hne Hconf Hin Hno.
    destruct (ro_cleanup_classify a _ _ _ _ Hcls) as [l [Tl Nl]]. simpl in Tl.
    split; [|rewrite Tl; exact Nl].
    unfold Cleanup.run, Cleanup.cleanup_documents, Py.bind. rewrite Hcls. simpl.
    rewrite Hconf. simpl.
    assert (Hg : ((0 <? List.length (dl_values (Cleanup.removed_docs s)))
                  || (0 <? List.length (dl_values (Cleanup.reattached_docs s)))) = true).
    { destruct Hne as [Hne|Hne]; destruct (dl_values _); try congruence; simpl;
        [reflexivity | apply orb_true_r]. }
    rewrite Hg. unfold Py.input. simpl. rewrite Hin, Hno. reflexivity.
  - intros c env io s itm_i itm_name itm_vid itm_lnk itags ref_id ref_j rn sec fid rsp rest
      Hsup Hf Hin Hno.
    unfold RefMode.supervised, RefMode.gate, verbose', share_links', Py.bind.
    rewrite Hsup, !orb_true_r. unfold Py.share_link. simpl. rewrite Hf.
    unfold Py.input. simpl. rewrite Hin, Hno. reflexivity.
Qed.

Lemma batch_decline_no_mutation_witness :
  (RefMode.run owner_env confirm_cfg ["n"]
   = (Ok None, (mkIO [ItemList false []; ItemGet "i1"; ItemGet "d2"] [] [(0, []); (1, [])],
                snd (snd (RefMode.classify confirm_cfg owner_env (mkIO [] ["n"] [], RefMode.init)))))
   /\ no_mutation [ItemList false []; ItemGet "i1"; ItemGet "d2"] = true)
  /\ (Cleanup.run passport_env confirm_args default_heap ["n"]
   = (Ok None, (mkIO [ItemList false []; ItemList true []; ItemGet "d1"; ItemGet "i2"] [] default_heap,
                snd (snd (Cleanup.classify confirm_args passport_env (mkIO [] ["n"] default_heap, Cleanup.init)))))
   /\ no_mutation [ItemList false []; ItemList true []; ItemGet "d1"; ItemGet "i2"] = true)
  /\ RefMode.supervised supervise_cfg "i1" "Jane Doe" "v" EmptyString None "d2" one_file_doc "Passport"
       "Documents" "fld1" owner_env (mkIO [] ["n"] [], RefMode.init)
     = (Ok tt, (mkIO [ShareLink "d2" "v"] [] [],
                RefMode.mkSt [] [("user skipped", [RefMode.mkEntry "Jane Doe" "Passport" EmptyString None])] [] None)).
Proof.
  destruct batch_decline_no_mutation as [H1 [H2 H3]].
  split; [|split].
  - apply (H1 owner_env confirm_cfg ["n"]
             (mkIO [ItemList false []; ItemGet "i1"; ItemGet "d2"] ["n"] [(0, []); (1, [])])
             (snd (snd (RefMode.classify confirm_cfg owner_env (mkIO [] ["n"] [], RefMode.init))))
             "n" []);
      [vm_compute; reflexivity | vm_compute; discriminate | reflexivity | reflexivity | reflexivity].
  - apply (H2 passport_env confirm_args default_heap ["n"]
             (mkIO [ItemList false []; ItemList true []; ItemGet "d1"; ItemGet "i2"] ["n"] default_heap)
             (snd (snd (Cleanup.classify confirm_args passport_env (mkIO [] ["n"] default_heap, Cleanup.init))))
             "n" []);
      [vm_compute; reflexivity | left; vm_compute; discriminate | reflexivity | reflexivity | reflexivity].
  - apply (H3 supervise_cfg owner_env (mkIO [] ["n"] []) RefMode.init "i1" "Jane Doe" "v" EmptyString None
             "d2" one_file_doc "Passport" "Documents" "fld1" "n" []);
      reflexivity.
Defined.

(** ** Stepping lemmas for the monad and the cleanup passes *)

Lemma bind_ok {S A B} (m : M S A) (f : A -> M S B) env w a w' :
  m env w = (Ok a, w') -> Py.bind m f env w = f a env w'.
Proof. intros H. unfold Py.bind. rewrite H. reflexivity. Qed.


Lemma try_ok {S A} p (m : M S A) h env w a w' :
  m env w = (Ok a, w') -> Py.try_except p m h env w = (Ok a, w').
Proof. intros H. unfold Py.try_except. rewrite H. reflexivity. Qed.

Lemma try_caught {S A} p (m : M S A) h env w e w' :
  m env w = (Exc e, w') -> p e = true -> Py.try_except p m h env w = h e env w'.
Proof. intros H Hp. unfold Py.try_except. rewrite H, Hp. reflexivity. Qed.

Lemma try_get_ok env id h it io s :
  fetch_ok env id it ->
  Cleanup.try_get id h env (io, s) = (Ok (Some it), (Py.push (ItemGet id) io, s)).
Proof.
  intros [Hf Hn]. unfold Cleanup.try_get, Py.try_except, Py.bind, Py.item_get. simpl.
  rewrite Hf, Hn. reflexivity.
Qed.

Lemma materialize_state i env io s :
  exists p io', Cleanup.materialize i env (io, s) = (Ok p, (io', s)) /\ fst p = i.
Proof.
  unfold Cleanup.materialize. destruct (item_tags i); do 2 eexists; split; reflexivity.
Qed.

Lemma archived_pass_skips_active doc_i doc_name doc_j cands env w :
  (forall cand, In cand cands -> Cleanup.is_archived cand = false) ->
  Cleanup.archived_pass doc_i doc_name doc_j cands env w = (Ok tt, w).
Proof.
  induction cands as [|cand r IH]; intros Ha; simpl.
  - reflexivity.
  - rewrite (Ha cand (or_introl eq_refl)). simpl. apply IH. intros c Hc. apply Ha. right. exact Hc.
Qed.

(** Active candidates that are fetched and hold no file are passed over. *)
Lemma active_pass_no_files doc_i doc_name doc_size doc_j cands env io s :
  (forall cand, In cand cands ->
     Cleanup.is_archived cand = false
     /\ exists it, fetch_ok env (item_id (fst cand)) it /\ files_of it = []) ->
  exists io', Cleanup.active_pass doc_i doc_name doc_size doc_j cands env (io, s) = (Ok tt, (io', s)).
Proof.
  revert io. induction cands as [|cand r IH]; intros io Ha; simpl.
  - exists io. reflexivity.
  - destruct (Ha cand (or_introl eq_refl)) as [Harch [it [Hf Hfiles]]].
    rewrite Harch. simpl.
    rewrite (bind_ok _ _ _ _ _ _ (try_get_ok env _ _ it io s Hf)).
    rewrite Hfiles. simpl. apply IH. intros c Hc. apply Ha. right. exact Hc.
Qed.

(** ** Claim C1 *)

(** C1 (amended): in cleanup mode, the active-overlap pass considers only
    active candidates that have at least one file. For an upgrade-named
    document with a file, when every matching item is active, answers its
    fetch and has no file, the document is neither reattached nor removed:
    it is recorded under no matching items, pending approval when
    confirmation is on, skipped otherwise. *)
Theorem active_item_without_files_passed_over confirm all_docs all_itms doc env io s dj f0 fs :
  fetch_ok env (item_id doc) dj ->
  filter (fun f => negb (String.eqb (file_id f) EmptyString)) (files_of dj) = f0 :: fs ->
  Cleanup.not_upgrade_named (item_title dj) = false ->
  Cleanup.is_removed (item_id doc) s = false ->
  (forall cand, In cand all_itms ->
     String.eqb (strip (item_title (fst cand))) (strip (last_or EmptyString (split " - " (item_title dj)))) = true ->
     Cleanup.is_archived cand = false
     /\ exists it, fetch_ok env (item_id (fst cand)) it /\ files_of it = []) ->
  exists doc_j io', fst doc_j = dj /\
    Cleanup.doc_body confirm all_docs all_itms doc env (io, s)
    = (Ok tt, (io',
        if confirm then
          Cleanup.mkSt (Cleanup.reattached_docs s) (Cleanup.skipped_docs s) (Cleanup.removed_docs s)
            (dl_append "no matching items" (Cleanup.DocJ doc_j None) (Cleanup.removal_pending_docs s))
            (Cleanup.failed_docs s) (Cleanup.removed_doc_ids s) (Cleanup.doc_vid s)
        else
          Cleanup.mkSt (Cleanup.reattached_docs s)
            (dl_append "no matching items" (Cleanup.DocJ doc_j None) (Cleanup.skipped_docs s))
            (Cleanup.removed_docs s) (Cleanup.removal_pending_docs s)
            (Cleanup.failed_docs s) (Cleanup.removed_doc_ids s) (Cleanup.doc_vid s))).
Proof.
  intros Hdoc Hfiles Hname Hrm Hcands.
  unfold Cleanup.doc_body.
  rewrite (bind_ok _ _ _ _ _ _ (try_get_ok env _ _ dj io s Hdoc)). cbv beta iota.
  destruct (materialize_state dj env (Py.push (ItemGet (item_id doc)) io) s) as [doc_j [io2 [Hm Hp]]].
  rewrite (bind_ok _ _ _ _ _ _ Hm). cbv beta. rewrite Hfiles, Hname. cbv beta iota zeta.
  set (matching := filter (fun p => String.eqb (strip (item_title (fst p)))
                                     (strip (last_or EmptyString (split " - " (item_title dj))))) all_itms).
  assert (Hact : forall cand, In cand matching -> Cleanup.is_archived cand = false).
  { intros cand Hin. apply filter_In in Hin as [Hin Heq]. exact (proj1 (Hcands cand Hin Heq)). }
  rewrite (bind_ok _ _ _ _ _ _ (archived_pass_skips_active _ _ _ _ env (io2, s) Hact)).
  cbv beta. unfold Py.bind at 1. cbn [Py.get fst snd]. rewrite Hrm. cbv iota.
  destruct (active_pass_no_files (item_id doc) (item_title dj) (file_size f0) doc_j matching
              env io2 s) as [io3 Ha].
  { intros cand Hin. apply filter_In in Hin as [Hin Heq]. exact (Hcands cand Hin Heq). }
  rewrite (bind_ok _ _ _ _ _ _ Ha). cbv beta. unfold Py.bind at 1. cbn [Py.get fst snd]. rewrite Hrm.
  cbv iota. exists doc_j, io3. split; [exact Hp|].
  destruct confirm; reflexivity.
Qed.

Lemma active_item_without_files_passed_over_witness :
  fetch_ok (mkEnv [passport_doc; jane_no_files] no_fail) "d1" passport_doc
  /\ Cleanup.not_upgrade_named "Passport - Jane Doe" = false
  /\ exists doc_j io', fst doc_j = passport_doc /\
     Cleanup.doc_body false [passport_doc] [(jane_no_files, None)] passport_doc
       (mkEnv [passport_doc; jane_no_files] no_fail) (mkIO [] [] [], Cleanup.init)
     = (Ok tt, (io', Cleanup.mkSt [] [("no matching items", [Cleanup.DocJ doc_j None])] [] [] [] [] None)).
Proof.
  split; [split; reflexivity|]. split; [vm_compute; reflexivity|].
  apply (active_item_without_files_passed_over false [passport_doc] [(jane_no_files, None)] passport_doc
           (mkEnv [passport_doc; jane_no_files] no_fail) (mkIO [] [] []) Cleanup.init passport_doc
           (mkFile "f1" "passport.pdf" 100) []).
  - split; reflexivity.
  - reflexivity.
  - vm_compute. reflexivity.
  - reflexivity.
  - intros cand [<-|[]] _. split; [reflexivity|].
    exists jane_no_files. split; [split; reflexivity | reflexivity].
Defined.

Lemma with_failed_id s : with_failed (Cleanup.failed_docs s) s = s.
Proof. destruct s; reflexivity. Qed.

Lemma try_get_failed env id rs t n io s :
  (forall it, ~ fetch_ok env id it) ->
  exists e, Cleanup.try_get id (fun e => Cleanup.fail rs (Cleanup.mkFail t n e)) env (io, s)
            = (Ok None, (Py.push (ItemGet id) io,
                         with_failed (dl_append rs (Cleanup.mkFail t n e) (Cleanup.failed_docs s)) s)).
Proof.
  intros Hno. unfold Cleanup.try_get, Py.try_except, Py.bind, Py.item_get. simpl.
  destruct (find_item (store env) id) as [it|] eqn:Ef.
  - destruct (fails env (ItemGet id)) eqn:Eb.
    + eexists. reflexivity.
    + exfalso. apply (Hno it). split; assumption.
  - eexists. reflexivity.
Qed.

Lemma fetch_ok_dec env id : (exists it, fetch_ok env id it) \/ (forall it, ~ fetch_ok env id it).
Proof.
  unfold fetch_ok. destruct (find_item (store env) id) as [it|]; [destruct (fails env (ItemGet id)) eqn:Eb|].
  - right. intros it' [_ H]. discriminate.
  - left. exists it. split; reflexivity.
  - right. intros it' [H _]. discriminate.
Qed.

(** The first active candidate that answers its fetch and has a file
    decides the active pass: the candidates before it only add failures. *)
Lemma active_pass_first doc_i doc_name doc_size doc_j pre cand post env io s it :
  Cleanup.is_archived cand = false -> fetch_ok env (item_id (fst cand)) it -> files_of it <> [] ->
  (forall c it', In c pre -> Cleanup.is_archived c = false -> fetch_ok env (item_id (fst c)) it' ->
                 files_of it' = []) ->
  exists io1 fl,
    Cleanup.active_pass doc_i doc_name doc_size doc_j (pre ++ cand :: post) env (io, s)
    = Cleanup.active_pass doc_i doc_name doc_size doc_j [cand] env (io1, with_failed fl s).
Proof.
  intros Ha Hf Hfiles. revert io s. induction pre as [|c pre IH]; intros io s Hpre; simpl.
  - exists io, (Cleanup.failed_docs s). rewrite with_failed_id. simpl. rewrite Ha. simpl.
    rewrite !(bind_ok _ _ _ _ _ _ (try_get_ok env _ _ it io s Hf)).
    destruct (files_of it) eqn:E; [congruence|]. reflexivity.
  - assert (Hpre' : forall c' it', In c' pre -> Cleanup.is_archived c' = false ->
                      fetch_ok env (item_id (fst c')) it' -> files_of it' = [])
      by (intros c' it' Hin; apply Hpre; right; exact Hin).
    destruct (Cleanup.is_archived c) eqn:Ec; simpl.
    + apply IH. exact Hpre'.
    + destruct (fetch_ok_dec env (item_id (fst c))) as [[it' Hf']|Hno].
      * rewrite (bind_ok _ _ _ _ _ _ (try_get_ok env _ _ it' io s Hf')).
        rewrite (Hpre c it' (or_introl eq_refl) Ec Hf'). simpl. apply IH. exact Hpre'.
      * destruct (try_get_failed env (item_id (fst c)) "failed to get item" (item_title (fst c)) doc_name io s Hno)
          as [e He].
        rewrite (bind_ok _ _ _ _ _ _ He). simpl.
        destruct (IH (Py.push (ItemGet (item_id (fst c))) io)
                     (with_failed (dl_append "failed to get item"
                        (Cleanup.mkFail (item_title (fst c)) doc_name e) (Cleanup.failed_docs s)) s) Hpre') as [io1 [fl Hr]].
        exists io1, fl. exact Hr.
Qed.

(** The first archived candidate that answers its fetch and holds a
    reference to the document decides the archived pass. *)
Lemma archived_pass_first doc_i doc_name doc_j pre cand post env io s it :
  Cleanup.is_archived cand = true -> fetch_ok env (item_id (fst cand)) it -> holds_reference doc_i it = true ->
  (forall c it', In c pre -> Cleanup.is_archived c = true -> fetch_ok env (item_id (fst c)) it' ->
                 holds_reference doc_i it' = false) ->
  exists io1 fl,
    Cleanup.archived_pass doc_i doc_name doc_j (pre ++ cand :: post) env (io, s)
    = (Ok tt, (io1, Cleanup.mkSt (Cleanup.reattached_docs s) (Cleanup.skipped_docs s)
                      (dl_append "referenced by archived item" (Cleanup.DocJ doc_j (Some cand))
                         (Cleanup.removed_docs s))
                      (Cleanup.removal_pending_docs s) fl (doc_i :: Cleanup.removed_doc_ids s)
                      (Cleanup.doc_vid s))).
Proof.
  intros Ha Hf Hr. revert io s. induction pre as [|c pre IH]; intros io s Hpre; simpl.
  - rewrite Ha. simpl. rewrite (bind_ok _ _ _ _ _ _ (try_get_ok env _ _ it io s Hf)).
    unfold holds_reference in Hr. cbv beta iota.
    destruct (_ =? 0); [discriminate|]. do 2 eexists. reflexivity.
  - assert (Hpre' : forall c' it', In c' pre -> Cleanup.is_archived c' = true ->
                      fetch_ok env (item_id (fst c')) it' -> holds_reference doc_i it' = false)
      by (intros c' it' Hin; apply Hpre; right; exact Hin).
    destruct (Cleanup.is_archived c) eqn:Ec; simpl.
    + destruct (fetch_ok_dec env (item_id (fst c))) as [[it' Hf']|Hno].
      * rewrite (bind_ok _ _ _ _ _ _ (try_get_ok env _ _ it' io s Hf')).
        pose proof (Hpre c it' (or_introl eq_refl) Ec Hf') as Hn. unfold holds_reference in Hn.
        cbv beta iota. destruct (_ =? 0); [|discriminate]. apply IH. exact Hpre'.
      * destruct (try_get_failed env (item_id (fst c)) "failed to get item" (item_title (fst c)) doc_name io s Hno)
          as [e He].
        rewrite (bind_ok _ _ _ _ _ _ He). simpl.
        destruct (IH (Py.push (ItemGet (item_id (fst c))) io)
                     (with_failed (dl_append "failed to get item"
                        (Cleanup.mkFail (item_title (fst c)) doc_name e) (Cleanup.failed_docs s)) s) Hpre') as [io1 [fl Hr']].
        exists io1, fl. exact Hr'.
    + apply IH. exact Hpre'.
Qed.

(** ** Claim C5 *)

(** C5 (amended): in cleanup mode, for a document that answers its fetch,
    has a file and an upgrade-shaped title, the matching items are scanned
    in store order, archived ones first. The first archived matching item
    that answers its fetch and holds a reference to the document decides
    removal as referenced by archived item; the active pass is then skipped
    and the only other change is the failures of earlier fetches. Among the
    active matching items, the first one that answers its fetch and has at
    least one file decides the active pass alone; active items before it
    whose fetch fails or that have no file are passed over. *)
Theorem archived_reference_precedence :
  (forall confirm all_docs all_itms doc env io s dj f0 fs pre cand post it,
     fetch_ok env (item_id doc) dj ->
     filter (fun f => negb (String.eqb (file_id f) EmptyString)) (files_of dj) = f0 :: fs ->
     Cleanup.not_upgrade_named (item_title dj) = false ->
     Cleanup.is_removed (item_id doc) s = false ->
     filter (fun p => String.eqb (strip (item_title (fst p)))
                                 (strip (last_or EmptyString (split " - " (item_title dj))))) all_itms
       = (pre ++ cand :: post)%list ->
     Cleanup.is_archived cand = true -> fetch_ok env (item_id (fst cand)) it ->
     holds_reference (item_id doc) it = true ->
     (forall c it', In c pre -> Cleanup.is_archived c = true -> fetch_ok env (item_id (fst c)) it' ->
                    holds_reference (item_id doc) it' = false) ->
     exists doc_j io' fl, fst doc_j = dj /\
       Cleanup.doc_body confirm all_docs all_itms doc env (io, s)
       = (Ok tt, (io', Cleanup.mkSt (Cleanup.reattached_docs s) (Cleanup.skipped_docs s)
                         (dl_append "referenced by archived item" (Cleanup.DocJ doc_j (Some cand))
                            (Cleanup.removed_docs s))
                         (Cleanup.removal_pending_docs s) fl (item_id doc :: Cleanup.removed_doc_ids s)
                         (Cleanup.doc_vid s))))
  /\ (forall doc_i doc_name doc_size doc_j pre cand post env io s it,
     Cleanup.is_archived cand = false -> fetch_ok env (item_id (fst cand)) it -> files_of it <> [] ->
     (forall c it', In c pre -> Cleanup.is_archived c = false -> fetch_ok env (item_id (fst c)) it' ->
                    files_of it' = []) ->
     exists io1 fl,
       Cleanup.active_pass doc_i doc_name doc_size doc_j (pre ++ cand :: post) env (io, s)
       = Cleanup.active_pass doc_i doc_name doc_size doc_j [cand] env (io1, with_failed fl s)).
Proof.
  split.
  - intros confirm all_docs all_itms doc env io s dj f0 fs pre cand post it
      Hdoc Hfiles Hname Hrm Hmatch Ha Hf Hr Hpre.
    unfold Cleanup.doc_body.
    rewrite (bind_ok _ _ _ _ _ _ (try_get_ok env _ _ dj io s Hdoc)). cbv beta iota.
    destruct (materialize_state dj env (Py.push (ItemGet (item_id doc)) io) s) as [doc_j [io2 [Hm Hp]]].
    rewrite (bind_ok _ _ _ _ _ _ Hm). cbv beta. rewrite Hfiles, Hname. cbv beta iota zeta.
    rewrite Hmatch.
    destruct (archived_pass_first (item_id doc) (item_title dj) doc_j pre cand post env io2 s it Ha Hf Hr Hpre)
      as [io1 [fl Hap]].
    rewrite (bind_ok _ _ _ _ _ _ Hap). cbv beta. unfold Py.bind at 1. cbn [Py.get fst snd].
    unfold Cleanup.is_removed. simpl. rewrite String.eqb_refl. simpl.
    exists doc_j, io1, fl. split; [exact Hp | reflexivity].
  - intros doc_i doc_name doc_size doc_j pre cand post env io s it Ha Hf Hfiles Hpre.
    exact (active_pass_first doc_i doc_name doc_size doc_j pre cand post env io s it Ha Hf Hfiles Hpre).
Qed.

Lemma archived_reference_precedence_witness :
  (exists doc_j io' fl, fst doc_j = passport_doc /\
     Cleanup.doc_body false [passport_doc] [(archived_owner, None); (jane_with_file, None)] passport_doc
       (mkEnv [passport_doc; archived_owner; jane_with_file] no_fail) (mkIO [] [] [], Cleanup.init)
     = (Ok tt, (io', Cleanup.mkSt [] []
                       [("referenced by archived item", [Cleanup.DocJ doc_j (Some (archived_owner, None))])]
                       [] fl ["d1"] None)))
  /\ (exists io1 fl,
     Cleanup.active_pass "d1" "Passport - Jane Doe" 100%Z (passport_doc, None)
       [(jane_no_files, None); (jane_with_file, None)] (mkEnv [passport_doc; jane_no_files; jane_with_file] no_fail)
       (mkIO [] [] [], Cleanup.init)
     = Cleanup.active_pass "d1" "Passport - Jane Doe" 100%Z (passport_doc, None)
       [(jane_with_file, None)] (mkEnv [passport_doc; jane_no_files; jane_with_file] no_fail)
       (io1, with_failed fl Cleanup.init)).
Proof.
  destruct archived_reference_precedence as [H1 H2]. split.
  - apply (H1 false [passport_doc] [(archived_owner, None); (jane_with_file, None)] passport_doc
             (mkEnv [passport_doc; archived_owner; jane_with_file] no_fail) (mkIO [] [] []) Cleanup.init
             passport_doc (mkFile "f1" "passport.pdf" 100) [] [] (archived_owner, None) [(jane_with_file, None)]
             archived_owner).
    + split; reflexivity.
    + reflexivity.
    + vm_compute. reflexivity.
    + reflexivity.
    + vm_compute. reflexivity.
    + reflexivity.
    + split; reflexivity.
    + vm_compute. reflexivity.
    + intros c it' [].
  - apply (H2 "d1" "Passport - Jane Doe" 100%Z (passport_doc, None) [(jane_no_files, None)]
             (jane_with_file, None) [] (mkEnv [passport_doc; jane_no_files; jane_with_file] no_fail)
             (mkIO [] [] []) Cleanup.init jane_with_file).
    + reflexivity.
    + split; reflexivity.
    + discriminate.
    + intros c it' [<-|[]] _ [Hf _]. vm_compute in Hf. injection Hf as <-. reflexivity.
Defined.

(** ** Reports *)

Lemma length_dl_rows {V} (f : string -> V -> Row) (d : DL V) :
  List.length (flat_map (fun kv => map (f (fst kv)) (snd kv)) d) = List.length (dl_values d).
Proof.
  unfold dl_values. induction d as [|[k vs] r IH]; simpl; [reflexivity|].
  rewrite !length_app, length_map, IH. reflexivity.
Qed.

Lemma ref_report_length s :
  List.length (RefMode.report s)
  = List.length (dl_values (RefMode.reattached_docs s)) + List.length (dl_values (RefMode.skipped_docs s))
    + List.length (dl_values (RefMode.failed_docs s)).
Proof.
  unfold RefMode.report. rewrite !length_app, length_map.
  rewrite (length_dl_rows (fun k d => [RefMode.e_item d; RefMode.e_document d; RefMode.e_link d; "skipped: " ++ k])).
  rewrite (length_dl_rows (fun k d => [RefMode.e_item d; RefMode.e_document d; RefMode.e_link d;
             "error: " ++ match RefMode.e_error d with Some e => show_exn e | None => "None" end])).
  lia.
Qed.

Lemma ref_main_report c env w rows w' :
  RefMode.main c env w = (Ok (Some rows), w') -> rows = RefMode.report (snd w').
Proof.
  unfold RefMode.main, Py.bind, Py.get, Py.ret. intros H.
  repeat (match type of H with
          | context[match ?x with _ => _ end] => destruct x
          end; try discriminate).
  all: injection H as <- <-; reflexivity.
Qed.

Lemma cleanup_report_length s :
  List.length (Cleanup.report s)
  = List.length (dl_values (Cleanup.reattached_docs s)) + List.length (dl_values (Cleanup.removed_docs s))
    + List.length (dl_values (Cleanup.skipped_docs s)) + List.length (dl_values (Cleanup.failed_docs s)).
Proof.
  unfold Cleanup.report. rewrite !length_app, length_map.
  rewrite (length_dl_rows (fun k d => [Cleanup.entry_title d; "removed"; Cleanup.ref_by_title d; k])).
  rewrite (length_dl_rows (fun k d => [Cleanup.entry_title d; "skipped"; EmptyString; k])).
  rewrite (length_dl_rows (fun k d => [Cleanup.f_item d; k; Cleanup.f_document d; show_exn (Cleanup.f_error d)])).
  lia.
Qed.

Lemma cleanup_main_report a env w rows w' :
  Cleanup.cleanup_documents a env w = (Ok (Some rows), w') -> rows = Cleanup.report (snd w').
Proof.
  unfold Cleanup.cleanup_documents, Py.bind, Py.get, Py.ret. intros H.
  repeat (match type of H with
          | context[match ?x with _ => _ end] => destruct x
          end; try discriminate).
  all: injection H as <- <-; reflexivity.
Qed.

(** ** Failure handling of the executors *)

Section Halts.
Context {S : Type}.

Lemma hr_ret {A} (a : A) : halts_at_rejection (S:=S) (Py.ret a).
Proof.
  intros env io s r io' s' H. inversion H; subst. split; [reflexivity|].
  exists []. rewrite app_nil_r. split; [reflexivity|]. left. split; [eauto | reflexivity].
Qed.

Lemma hr_load loc : halts_at_rejection (S:=S) (Py.load loc).
Proof.
  intros env io s r io' s' H. inversion H; subst. split; [reflexivity|].
  exists []. rewrite app_nil_r. split; [reflexivity|]. left. split; [eauto | reflexivity].
Qed.

Lemma hr_append loc x : halts_at_rejection (S:=S) (Py.append loc x).
Proof.
  intros env io s r io' s' H. inversion H; subst. split; [reflexivity|].
  exists []. rewrite app_nil_r. split; [reflexivity|]. left. split; [eauto | reflexivity].
Qed.

Lemma hr_R c : halts_at_rejection (S:=S) (Py.R c).
Proof.
  intros env io s r io' s' H. unfold Py.R in H. simpl in H.
  destruct (fails env c) eqn:Ef; inversion H; subst; (split; [reflexivity|]); exists [c];
    (split; [reflexivity|]).
  - right. exists [], c. repeat split; assumption.
  - left. split; [eauto|]. unfold all_ok. simpl. rewrite Ef. reflexivity.
Qed.

Lemma all_ok_app env l1 l2 : all_ok env (l1 ++ l2) = all_ok env l1 && all_ok env l2.
Proof. unfold all_ok. apply forallb_app. Qed.

Lemma hr_bind {A B} (m : M S A) (f : A -> M S B) :
  halts_at_rejection m -> (forall a, halts_at_rejection (f a)) -> halts_at_rejection (Py.bind m f).
Proof.
  intros Hm Hf env io s r io' s' H. unfold Py.bind in H.
  destruct (m env (io, s)) as [[a|e] [io1 s1]] eqn:E1.
  - destruct (Hm _ _ _ _ _ _ E1) as [-> [l1 [T1 [[_ O1]|[l0 [cf [_ [_ [_ Hr]]]]]]]]]; [|discriminate].
    destruct (Hf a _ _ _ _ _ _ H) as [-> [l2 [T2 C2]]]. split; [reflexivity|].
    exists (l1 ++ l2)%list. rewrite T2, T1, app_assoc. split; [reflexivity|].
    destruct C2 as [[Ha O2]|[l0 [cf [-> [O0 [Fc Hr]]]]]].
    + left. rewrite all_ok_app, O1, O2. split; [exact Ha | reflexivity].
    + right. exists (l1 ++ l0)%list, cf. rewrite app_assoc, all_ok_app, O1, O0.
      repeat split; assumption.
  - inversion H; subst. destruct (Hm _ _ _ _ _ _ E1) as [-> [l1 [T1 C1]]].
    split; [reflexivity|]. exists l1. split; [exact T1|].
    destruct C1 as [[[a Ha] O1]|[l0 [cf [Hl [O0 [Fc Hr]]]]]]; [discriminate|].
    right. exists l0, cf. inversion Hr; subst. repeat split; assumption.
Qed.

End Halts.

(** Decompose a computation into the steps above. *)
Ltac halts_step :=
  first [ apply hr_bind; [|intro]
        | match goal with |- halts_at_rejection (if ?b then _ else _) => destruct b end
        | apply hr_R | apply hr_load | apply hr_append | apply hr_ret ].

Lemma tame_ret {A} (a : A) : tame (Py.ret a).
Proof. intros env io s r io' s' H. inversion H; subst. split; [exists []; rewrite app_nil_r; reflexivity|].
  split; [tauto | discriminate]. Qed.

Lemma tame_load loc : tame (Py.load loc).
Proof. intros env io s r io' s' H. inversion H; subst. split; [exists []; rewrite app_nil_r; reflexivity|].
  split; [tauto | discriminate]. Qed.

Lemma tame_append loc x : tame (Py.append loc x).
Proof. intros env io s r io' s' H. inversion H; subst. split; [exists []; rewrite app_nil_r; reflexivity|].
  split; [tauto | discriminate]. Qed.

Lemma tame_alloc l : tame (Py.alloc l).
Proof. intros env io s r io' s' H. inversion H; subst. split; [exists []; rewrite app_nil_r; reflexivity|].
  split; [tauto | discriminate]. Qed.

Lemma tame_get : tame Py.get.
Proof. intros env io s r io' s' H. inversion H; subst. split; [exists []; rewrite app_nil_r; reflexivity|].
  split; [tauto | discriminate]. Qed.

Lemma tame_get_tags t : tame (Py.get_tags t).
Proof. destruct t; [apply tame_ret | apply tame_alloc]. Qed.

Lemma tame_set_doc_vid v : tame (Cleanup.set_doc_vid v).
Proof. intros env io s r io' s' H. inversion H; subst. split; [exists []; rewrite app_nil_r; reflexivity|].
  split; [simpl; discriminate | discriminate]. Qed.

Lemma tame_fail rs f : tame (Cleanup.fail rs f).
Proof. intros env io s r io' s' H. inversion H; subst. split; [exists []; rewrite app_nil_r; reflexivity|].
  split; [simpl; tauto | discriminate]. Qed.

Lemma tame_R c : tame (Py.R c).
Proof.
  intros env io s r io' s' H. unfold Py.R in H. simpl in H.
  destruct (fails env c); inversion H; subst; (split; [exists [c]; reflexivity|]);
    split; [tauto | | tauto | discriminate].
  intros e He. inversion He. reflexivity.
Qed.

Lemma tame_bind {A B} (m : M Cleanup.St A) (f : A -> M Cleanup.St B) :
  tame m -> (forall a, tame (f a)) -> tame (Py.bind m f).
Proof.
  intros Hm Hf env io s r io' s' H. unfold Py.bind in H.
  destruct (m env (io, s)) as [[a|e] [io1 s1]] eqn:E1.
  - destruct (Hm _ _ _ _ _ _ E1) as [[l1 T1] [V1 _]].
    destruct (Hf a _ _ _ _ _ _ H) as [[l2 T2] [V2 X2]].
    split; [exists (l1 ++ l2)%list; rewrite T2, T1, app_assoc; reflexivity|]. split; [tauto | exact X2].
  - inversion H; subst. destruct (Hm _ _ _ _ _ _ E1) as [T1 [V1 X1]].
    split; [exact T1|]. split; [exact V1|]. intros e' He'. inversion He'; subst. apply (X1 e' eq_refl).
Qed.

Lemma tame_try {A} p (m : M Cleanup.St A) h :
  tame m -> (forall e, tame (h e)) -> tame (Py.try_except p m h).
Proof.
  intros Hm Hh env io s r io' s' H. unfold Py.try_except in H.
  destruct (m env (io, s)) as [[a|e] [io1 s1]] eqn:E1.
  - inversion H; subst. exact (Hm _ _ _ _ _ _ E1).
  - destruct (Hm _ _ _ _ _ _ E1) as [[l1 T1] [V1 X1]]. destruct (p e).
    + destruct (Hh e _ _ _ _ _ _ H) as [[l2 T2] [V2 X2]].
      split; [exists (l1 ++ l2)%list; rewrite T2, T1, app_assoc; reflexivity|]. split; [tauto | exact X2].
    + inversion H; subst. split; [exists l1; exact T1|]. split; [exact V1 | exact X1].
Qed.

Ltac tame_step :=
  first [ apply tame_bind; [|intro]
        | apply tame_try; [|intro]
        | match goal with |- tame (if ?b then _ else _) => destruct b end
        | apply tame_R | apply tame_load | apply tame_append | apply tame_alloc | apply tame_get
        | apply tame_get_tags | apply tame_set_doc_vid | apply tame_fail | apply tame_ret ].

(** A group of the cleanup executor under its [except] clause never raises. *)
Lemma tame_group (m : M Cleanup.St unit) rs t n env io s r io' s' :
  tame m ->
  Py.try_except catchable m (fun x => Cleanup.fail rs (Cleanup.mkFail t n x)) env (io, s) = (r, (io', s')) ->
  r = Ok tt /\ (exists l, io_trace io' = (io_trace io ++ l)%list)
  /\ (Cleanup.doc_vid s <> None -> Cleanup.doc_vid s' <> None).
Proof.
  intros Hm H.
  destruct (tame_try catchable m _ Hm (fun e => tame_fail _ _) _ _ _ _ _ _ H) as [T [V _]].
  split; [|split; assumption].
  unfold Py.try_except in H. destruct (m env (io, s)) as [[[]|e] [io1 s1]] eqn:E1.
  - inversion H; reflexivity.
  - destruct (Hm _ _ _ _ _ _ E1) as [_ [_ X]]. specialize (X e eq_refl).
    destruct e; try discriminate; simpl in H; inversion H; reflexivity.
Qed.

(** In cleanup mode every group of a reattachment runs: the download comes
    first and the delete last, whatever the store rejects in between. *)
Lemma cleanup_reattach_continues a tag doc_id doc_j cand env io s :
  Cleanup.a_dry_run a = false -> Cleanup.doc_vid s <> None ->
  exists out l v io' s',
    Cleanup.reattach_one a tag doc_id (Cleanup.DocJ doc_j (Some cand)) env (io, s) = (Ok tt, (io', s'))
    /\ io_trace io' = (io_trace io ++ DocumentGet doc_id (item_vault (fst cand)) out
                                     :: l ++ [ItemDelete doc_id v (Cleanup.a_archive_docs a)])%list.
Proof.
  intros Hdry Hv. unfold Cleanup.reattach_one. cbv zeta. rewrite Hdry.
  generalize (sanitize (replace (" - " ++ item_title (fst cand)) EmptyString (item_title (fst doc_j)))).
  intro dn.
  match goal with |- context[Py.bind (Py.try_except catchable (Py.bind (Py.R ?dg) (fun _ => Py.R ?ea)) ?h1) ?k] =>
    assert (E1 : exists io1 s1 l1,
               Py.try_except catchable (Py.bind (Py.R dg) (fun _ => Py.R ea)) h1 env (io, s) = (Ok tt, (io1, s1))
               /\ io_trace io1 = (io_trace io ++ dg :: l1)%list /\ Cleanup.doc_vid s1 <> None)
  end.
  { unfold Py.try_except, Py.bind, Py.R. simpl.
    destruct (fails env _); simpl; [|destruct (fails env _); simpl].
    all: do 3 eexists; split; [reflexivity|]; split; [|exact Hv].
    all: unfold Py.push; simpl; rewrite <- ?app_assoc; reflexivity. }
  destruct E1 as [io1 [s1 [l1 [E1 [T1 V1]]]]]. rewrite (bind_ok _ _ _ _ _ _ E1).
  match goal with |- context[Py.bind (Py.try_except catchable ?b2 ?h2) ?k env (io1, s1)] =>
    destruct (Py.try_except catchable b2 h2 env (io1, s1)) as [r2 [io2 s2]] eqn:E2;
    destruct (tame_group b2 _ _ _ env io1 s1 r2 io2 s2 ltac:(repeat tame_step) E2) as [-> [[l2 T2] V2]]
  end.
  rewrite (bind_ok _ _ _ _ _ _ E2).
  match goal with |- context[Py.bind (Py.try_except catchable ?b3 ?h3) ?k env (io2, s2)] =>
    destruct (Py.try_except catchable b3 h3 env (io2, s2)) as [r3 [io3 s3]] eqn:E3;
    destruct (tame_group b3 _ _ _ env io2 s2 r3 io3 s3 ltac:(repeat tame_step) E3) as [-> [[l3 T3] V3]]
  end.
  rewrite (bind_ok _ _ _ _ _ _ E3).
  specialize (V3 (V2 V1)). destruct (Cleanup.doc_vid s3) as [v|] eqn:Ev; [|congruence].
  unfold Py.try_except, Py.bind, Py.get, Py.R. simpl. rewrite Ev.
  destruct (fails env _); simpl.
  all: eexists _, (l1 ++ l2 ++ l3)%list, v, _, _; split; [reflexivity|].
  all: simpl; rewrite T3, T2, T1; rewrite <- ?app_assoc; simpl; rewrite <- ?app_assoc; reflexivity.
Qed.

(** In reference mode a reattachment stops at its first rejected call. *)
Lemma ref_reattach_one_spec c ref_id d env io s :
  exists io' s' l,
    RefMode.reattach_one c ref_id d env (io, s) = (Ok tt, (io', s'))
    /\ io_trace io' = (io_trace io ++ l)%list
    /\ ((all_ok env l = true /\ s' = s)
        \/ exists l0 cf, l = (l0 ++ [cf])%list /\ all_ok env l0 = true /\ fails env cf = true
           /\ s' = RefMode.mkSt (RefMode.reattached_docs s) (RefMode.skipped_docs s)
                     (dl_append "failed to reattach document"
                        (RefMode.mkEntry (RefMode.q_item d) (RefMode.q_document d) (RefMode.q_link d)
                           (Some (CalledProcessError cf)))
                        (RefMode.failed_docs s))
                     (RefMode.ref_name s)).
Proof.
  unfold RefMode.reattach_one. cbv zeta.
  match goal with |- context[Py.try_except catchable ?b ?h] =>
    assert (Hb : halts_at_rejection (S:=RefMode.St) b) by (repeat halts_step);
    unfold Py.try_except; destruct (b env (io, s)) as [r [io1 s1]] eqn:E
  end.
  destruct (Hb _ _ _ _ _ _ E) as [-> [l [T [[[[] ->] O] | [l0 [cf [-> [O0 [Fc ->]]]]]]]]].
  - exists io1, s, l. split; [reflexivity|]. split; [exact T|]. left; split; [exact O | reflexivity].
  - do 3 eexists. split; [reflexivity|]. split; [exact T|]. right. exists l0, cf. repeat split; assumption.
Qed.

Lemma for_each_total {S A} (xs : list A) (body : A -> M S unit) :
  (forall x env w, exists w', body x env w = (Ok tt, w')) ->
  forall env w, exists w', Py.for_each xs body env w = (Ok tt, w').
Proof.
  intros Hb. induction xs as [|x r IH]; intros env w; simpl.
  - exists w. reflexivity.
  - destruct (Hb x env w) as [w1 E1]. rewrite (bind_ok _ _ _ _ _ _ E1). apply IH.
Qed.

Lemma ref_execute_total c q env w : exists w', RefMode.execute c q env w = (Ok tt, w').
Proof.
  unfold RefMode.execute. apply for_each_total. intros kv env' w'. apply for_each_total.
  intros d env'' [io s]. destruct (ref_reattach_one_spec c (fst kv) d env'' io s) as [io' [s' [l [E _]]]].
  exists (io', s'). exact E.
Qed.

(** ** Reference-mode execution keeps the classification entries *)

Lemma in_dl_append {V} k (v x : V) d : In x (dl_values (dl_append k v d)) <-> x = v \/ In x (dl_values d).
Proof.
  unfold dl_values. induction d as [|[k' vs] r IH]; simpl.
  - rewrite ?app_nil_r. intuition.
  - destruct (String.eqb k k'); simpl; rewrite !in_app_iff; [simpl|rewrite IH]; intuition.
Qed.

Lemma ref_exec_inv_refl q s : ref_exec_inv q s s.
Proof. repeat split; auto. Qed.

Lemma ref_exec_inv_trans q s1 s2 s3 : ref_exec_inv q s1 s2 -> ref_exec_inv q s2 s3 -> ref_exec_inv q s1 s3.
Proof.
  intros [A1 [B1 [C1 D1]]] [A2 [B2 [C2 D2]]]. split; [congruence|]. split; [congruence|].
  split; [auto|]. intros x Hx. destruct (D2 x Hx) as [H|H]; [apply D1, H | right; exact H].
Qed.

Lemma ref_reattach_one_inv q c k d env io s r io' s' :
  In d (dl_values q) -> RefMode.reattach_one c k d env (io, s) = (r, (io', s')) ->
  r = Ok tt /\ ref_exec_inv q s s'.
Proof.
  intros Hd H. destruct (ref_reattach_one_spec c k d env io s) as [io1 [s1 [l [E [_ C]]]]].
  rewrite E in H. injection H as <- <- <-. split; [reflexivity|].
  destruct C as [[_ ->] | [l0 [cf [_ [_ [_ ->]]]]]]; [apply ref_exec_inv_refl|].
  split; [reflexivity|]. split; [reflexivity|]. cbn [RefMode.failed_docs]. split.
  - intros x Hx. apply in_dl_append. right. exact Hx.
  - intros x Hx. apply in_dl_append in Hx as [->|Hx]; [right; eauto | left; exact Hx].
Qed.

Lemma ref_execute_inv c q env io s r io' s' :
  RefMode.execute c q env (io, s) = (r, (io', s')) -> r = Ok tt /\ ref_exec_inv q s s'.
Proof.
  unfold RefMode.execute.
  assert (Hout : forall kvs, (forall kv, In kv kvs -> In kv q) -> forall io s r io' s',
            Py.for_each kvs (fun kv => Py.for_each (snd kv) (RefMode.reattach_one c (fst kv))) env (io, s)
            = (r, (io', s')) -> r = Ok tt /\ ref_exec_inv q s s').
  { induction kvs as [|kv rest IH]; intros Hsub io0 s0 r0 io1 s1 H; simpl in H.
    - injection H as <- <- <-. split; [reflexivity | apply ref_exec_inv_refl].
    - assert (Hin : forall ds, (forall d, In d ds -> In d (dl_values q)) -> forall io s r io' s',
                Py.for_each ds (RefMode.reattach_one c (fst kv)) env (io, s) = (r, (io', s'))
                -> r = Ok tt /\ ref_exec_inv q s s').
      { induction ds as [|d ds IHd]; intros Hds io2 s2 r2 io3 s3 H2; simpl in H2.
        - injection H2 as <- <- <-. split; [reflexivity | apply ref_exec_inv_refl].
        - unfold Py.bind in H2.
          destruct (RefMode.reattach_one c (fst kv) d env (io2, s2)) as [r4 [io4 s4]] eqn:E4.
          destruct (ref_reattach_one_inv q c (fst kv) d env io2 s2 r4 io4 s4 (Hds d (or_introl eq_refl)) E4)
            as [-> I4].
          destruct (IHd (fun d' H' => Hds d' (or_intror H')) io4 s4 r2 io3 s3 H2) as [-> I5].
          split; [reflexivity | exact (ref_exec_inv_trans _ _ _ _ I4 I5)]. }
      unfold Py.bind in H.
      destruct (Py.for_each (snd kv) (RefMode.reattach_one c (fst kv)) env (io0, s0)) as [r4 [io4 s4]] eqn:E4.
      assert (Hkv : forall d, In d (snd kv) -> In d (dl_values q)).
      { intros d Hd. unfold dl_values. apply in_flat_map. exists kv. split; [apply Hsub; left; reflexivity | exact Hd]. }
      destruct (Hin (snd kv) Hkv io0 s0 r4 io4 s4 E4) as [-> I4].
      destruct (IH (fun kv' H' => Hsub kv' (or_intror H')) io4 s4 r0 io1 s1 H) as [-> I5].
      split; [reflexivity | exact (ref_exec_inv_trans _ _ _ _ I4 I5)]. }
  apply Hout. auto.
Qed.

Lemma ref_run_keeps_classification env c stdin io s rows w :
  RefMode.classify c env (mkIO [] stdin [], RefMode.init) = (Ok tt, (io, s)) ->
  RefMode.run env c stdin = (Ok (Some rows), w) ->
  rows = RefMode.report (snd w) /\ ref_exec_inv (RefMode.reattached_docs s) s (snd w).
Proof.
  intros Hc H. split; [exact (ref_main_report _ _ _ _ _ H)|].
  unfold RefMode.run, RefMode.main in H. rewrite (bind_ok _ _ _ _ _ _ Hc) in H.
  unfold Py.bind at 1 in H. cbn [Py.get fst snd] in H.
  destruct (List.length (dl_values (RefMode.reattached_docs s)) =? 0); [discriminate|].
  assert (Hcan : exists b io1, (if confirm' c then rsp <- Py.input ;; Py.ret (is_no rsp) else Py.ret false) env (io, s)
                               = (Ok b, (io1, s))
                 \/ exists e, (if confirm' c then rsp <- Py.input ;; Py.ret (is_no rsp) else Py.ret false) env (io, s)
                              = (Exc e, (io1, s))).
  { destruct (confirm' c).
    - unfold Py.bind, Py.input. cbn [fst snd]. destruct (io_stdin io) as [|l r].
      + exists false, io. right. exists EOFError. reflexivity.
      + do 2 eexists. left. reflexivity.
    - exists false, io. left. reflexivity. }
  destruct Hcan as [b [io1 [E|[e E]]]]; unfold Py.bind at 1 in H; rewrite E in H; [|discriminate].
  destruct b; [discriminate|].
  unfold Py.bind at 1 in H.
  destruct (RefMode.execute c (RefMode.reattached_docs s) env (io1, s)) as [r2 [io2 s2]] eqn:E2.
  destruct (ref_execute_inv _ _ _ _ _ _ _ _ E2) as [-> I]. cbn in H. injection H as _ <-. exact I.
Qed.

(** ** Claim C2 *)

(** C2 (amended): a run that writes its CSV export writes the rows of its
    final outcome dictionaries, one row per recorded entry, so the number of
    rows is the number of entries (reattached, skipped and failed in
    reference mode; also removed in cleanup mode; pending removals are not
    exported). A reference-mode run that queues nothing returns without an
    export. In reference mode the execution step keeps the reattached and
    skipped entries of the classification unchanged and only adds failure
    entries, each naming a queued document: rows are per entry, not per
    document. *)
Theorem export_rows_are_entries :
  (forall env c stdin rows w,
     RefMode.run env c stdin = (Ok (Some rows), w) ->
     rows = RefMode.report (snd w)
     /\ List.length rows = List.length (dl_values (RefMode.reattached_docs (snd w)))
                         + List.length (dl_values (RefMode.skipped_docs (snd w)))
                         + List.length (dl_values (RefMode.failed_docs (snd w))))
  /\ (forall env a heap stdin rows w,
     Cleanup.run env a heap stdin = (Ok (Some rows), w) ->
     rows = Cleanup.report (snd w)
     /\ List.length rows = List.length (dl_values (Cleanup.reattached_docs (snd w)))
                         + List.length (dl_values (Cleanup.removed_docs (snd w)))
                         + List.length (dl_values (Cleanup.skipped_docs (snd w)))
                         + List.length (dl_values (Cleanup.failed_docs (snd w))))
  /\ (forall env c stdin io s,
     RefMode.classify c env (mkIO [] stdin [], RefMode.init) = (Ok tt, (io, s)) ->
     dl_values (RefMode.reattached_docs s) = [] ->
     RefMode.run env c stdin = (Ok None, (io, s)))
  /\ (forall env c stdin io s rows w,
     RefMode.classify c env (mkIO [] stdin [], RefMode.init) = (Ok tt, (io, s)) ->
     RefMode.run env c stdin = (Ok (Some rows), w) ->
     ref_exec_inv (RefMode.reattached_docs s) s (snd w)).
Proof.
  split; [|split; [|split]].
  - intros env c stdin rows w H. apply ref_main_report in H. subst rows.
    split; [reflexivity | apply ref_report_length].
  - intros env a heap stdin rows w H. apply cleanup_main_report in H. subst rows.
    split; [reflexivity | apply cleanup_report_length].
  - intros env c stdin io s Hcls Hnil.
    unfold RefMode.run, RefMode.main. rewrite (bind_ok _ _ _ _ _ _ Hcls).
    unfold Py.bind at 1. cbn [Py.get fst snd]. rewrite Hnil. reflexivity.
  - intros env c stdin io s rows w Hcls H.
    exact (proj2 (ref_run_keeps_classification env c stdin io s rows w Hcls H)).
Qed.

Lemma export_rows_are_entries_witness :
  (let w := snd (RefMode.run (mkEnv [owner; two_file_doc] no_fail) (ref_cfg true) []) in
   [["Jane Doe"; "Passport"; EmptyString; "reattached"];
    ["Jane Doe"; "Passport"; EmptyString; "skipped: more than one file"]] = RefMode.report (snd w)
   /\ List.length [["Jane Doe"; "Passport"; EmptyString; "reattached"];
                   ["Jane Doe"; "Passport"; EmptyString; "skipped: more than one file"]]
      = List.length (dl_values (RefMode.reattached_docs (snd w)))
        + List.length (dl_values (RefMode.skipped_docs (snd w)))
        + List.length (dl_values (RefMode.failed_docs (snd w))))
  /\ (let w := snd (Cleanup.run passport_env default_args default_heap []) in
   [["Passport - Jane Doe"; "removed"; "Jane Doe"; "already attached to item (size match)"]]
     = Cleanup.report (snd w)
   /\ List.length [["Passport - Jane Doe"; "removed"; "Jane Doe"; "already attached to item (size match)"]]
      = List.length (dl_values (Cleanup.reattached_docs (snd w)))
        + List.length (dl_values (Cleanup.removed_docs (snd w)))
        + List.length (dl_values (Cleanup.skipped_docs (snd w)))
        + List.length (dl_values (Cleanup.failed_docs (snd w))))
  /\ RefMode.run (mkEnv [jane_no_files] no_fail) (ref_cfg true) []
     = (Ok None, (mkIO [ItemList false []; ItemGet "i1"] [] [], RefMode.init))
  /\ (exists io s w,
       RefMode.classify (ref_cfg false) (mkEnv [owner; two_file_doc] doc_get_fails) (mkIO [] [] [], RefMode.init)
       = (Ok tt, (io, s))
       /\ RefMode.run (mkEnv [owner; two_file_doc] doc_get_fails) (ref_cfg false) []
          = (Ok (Some [["Jane Doe"; "Passport"; EmptyString; "reattached"];
                       ["Jane Doe"; "Passport"; EmptyString; "skipped: more than one file"];
                       ["Jane Doe"; "Passport"; EmptyString; "error: " ++ show_exn (CalledProcessError
                          (DocumentGet "d2" "v" "/tmp/op/passport.pdf"))]]), w)
       /\ ref_exec_inv (RefMode.reattached_docs s) s (snd w)).
Proof.
  destruct export_rows_are_entries as [H1 [H2 [H3 H4]]]. split; [|split; [|split]].
  - apply (H1 (mkEnv [owner; two_file_doc] no_fail) (ref_cfg true) []).
    vm_compute. reflexivity.
  - apply (H2 passport_env default_args default_heap []).
    vm_compute. reflexivity.
  - apply H3.
    + vm_compute. reflexivity.
    + reflexivity.
  - destruct (RefMode.classify (ref_cfg false) (mkEnv [owner; two_file_doc] doc_get_fails)
                (mkIO [] [] [], RefMode.init)) as [r [io s]] eqn:Ec.
    pose proof Ec as Ec'. vm_compute in Ec'. injection Ec' as Hr _ _. subst r.
    destruct (RefMode.run (mkEnv [owner; two_file_doc] doc_get_fails) (ref_cfg false) []) as [r2 w] eqn:Er.
    pose proof Er as Er'. vm_compute in Er'. injection Er' as Hr2 _. subst r2.
    exists io, s, w. split; [reflexivity|]. split; [vm_compute; reflexivity|].
    exact (H4 (mkEnv [owner; two_file_doc] doc_get_fails) (ref_cfg false) [] io s _ w Ec Er).
Defined.

(** ** Claim C3 *)

(** C3 (amended): in reference mode one handler covers all steps of a
    reattachment. The calls it issues are accepted up to the first rejected
    one, which is its last call: nothing after it is attempted, and exactly
    one failed to reattach document entry carrying that call's error is
    recorded; nothing is rolled back, and the executor goes on with the
    other queued reattachments. In cleanup mode the steps form separate
    groups, each with its own handler: once the document's vault is known
    and outside a dry run, a reattachment always issues the download first
    and the delete last, whatever the store rejected in between, and it
    returns normally. *)
Theorem reattach_failure_isolation :
  (forall c ref_id d env io s,
    exists io' s' l,
      RefMode.reattach_one c ref_id d env (io, s) = (Ok tt, (io', s'))
      /\ io_trace io' = (io_trace io ++ l)%list
      /\ ((all_ok env l = true /\ s' = s)
          \/ exists l0 cf, l = (l0 ++ [cf])%list /\ all_ok env l0 = true /\ fails env cf = true
             /\ s' = RefMode.mkSt (RefMode.reattached_docs s) (RefMode.skipped_docs s)
                       (dl_append "failed to reattach document"
                          (RefMode.mkEntry (RefMode.q_item d) (RefMode.q_document d) (RefMode.q_link d)
                             (Some (CalledProcessError cf)))
                          (RefMode.failed_docs s))
                       (RefMode.ref_name s)))
  /\ (forall c q env w, exists w', RefMode.execute c q env w = (Ok tt, w'))
  /\ (forall a tag doc_id doc_j cand env io s,
    Cleanup.a_dry_run a = false -> Cleanup.doc_vid s <> None ->
    exists out l v io' s',
      Cleanup.reattach_one a tag doc_id (Cleanup.DocJ doc_j (Some cand)) env (io, s) = (Ok tt, (io', s'))
      /\ io_trace io' = (io_trace io ++ DocumentGet doc_id (item_vault (fst cand)) out
                                       :: l ++ [ItemDelete doc_id v (Cleanup.a_archive_docs a)])%list).
Proof.
  split; [|split].
  - exact ref_reattach_one_spec.
  - exact ref_execute_total.
  - exact cleanup_reattach_continues.
Qed.

Lemma reattach_failure_isolation_witness :
  exists out l v io' s',
    Cleanup.reattach_one live_args EmptyString "d1" (Cleanup.DocJ (passport_doc, None) (Some (jane_with_file, None)))
      (mkEnv [passport_doc; jane_with_file] doc_get_fails)
      (mkIO [] [] default_heap, Cleanup.mkSt [] [] [] [] [] [] (Some "v")) = (Ok tt, (io', s'))
    /\ io_trace io' = (DocumentGet "d1" "v" out :: l ++ [ItemDelete "d1" v true])%list.
Proof.
  destruct reattach_failure_isolation as [_ [_ H3]].
  apply (H3 live_args EmptyString "d1" (passport_doc, None) (jane_with_file, None)
            (mkEnv [passport_doc; jane_with_file] doc_get_fails)
            (mkIO [] [] default_heap) (Cleanup.mkSt [] [] [] [] [] [] (Some "v"))).
  - reflexivity.
  - discriminate.
Defined.



Section DrySim.
Variable env : Env.
Hypothesis Hacc : forall c, mutating c = true -> fails env c = false.

Section Generic.
Context {S : Type}.










End Generic.


End DrySim.


Section DryExec.
Variable env : Env.
Hypothesis Hacc : forall c, mutating c = true -> fails env c = false.


End DryExec.








Lemma str_all_app p a b : str_all p (a ++ b) = str_all p a && str_all p b.
Proof. induction a; simpl; [reflexivity|]. rewrite IHa. apply andb_assoc. Qed.

Lemma str_all_rev p s : str_all p (rev_str s) = str_all p s.
Proof. induction s; simpl; [reflexivity|]. rewrite str_all_app, IHs. simpl. rewrite andb_true_r. apply andb_comm. Qed.

Lemma str_all_filter p s : str_all p (filter_str p s) = true.
Proof. induction s; simpl; [reflexivity|]. destruct (p a) eqn:E; simpl; rewrite ?E, ?IHs; reflexivity. Qed.

Lemma str_all_filter_mono p q s : str_all p s = true -> str_all p (filter_str q s) = true.
Proof.
  induction s; simpl; [reflexivity|]. intros H. apply andb_prop in H as [H1 H2].
  destruct (q a); simpl; rewrite ?H1; auto.
Qed.

Lemma str_all_lstrip p q s : str_all p s = true -> str_all p (lstrip_by q s) = true.
Proof.
  induction s; simpl; [reflexivity|]. intros H. destruct (q a); [apply IHs; apply andb_prop in H; tauto|exact H].
Qed.

Lemma str_all_rstrip p q s : str_all p s = true -> str_all p (rstrip_by q s) = true.
Proof. intros H. unfold rstrip_by. rewrite str_all_rev. apply str_all_lstrip. rewrite str_all_rev. exact H. Qed.

Lemma str_all_strip p s : str_all p s = true -> str_all p (strip s) = true.
Proof. intros H. unfold strip. apply str_all_rstrip, str_all_lstrip, H. Qed.

Lemma str_all_substring p s : forall n m, str_all p s = true -> str_all p (substring n m s) = true.
Proof.
  induction s; intros [|n] [|m] H; simpl in *; auto.
  - apply andb_prop in H as [H1 H2]. rewrite H1. simpl. apply IHs, H2.
  - apply IHs. apply andb_prop in H; tauto.
  - apply IHs. apply andb_prop in H; tauto.
Qed.

Lemma str_all_take_z p m s : str_all p s = true -> str_all p (take_z m s) = true.
Proof. intros H. apply str_all_substring, H. Qed.

Lemma str_all_drop p k s : str_all p s = true -> str_all p (drop k s) = true.
Proof. intros H. apply str_all_substring, H. Qed.

Lemma str_all_split_go p sep s : forall k cur x,
  str_all p s = true -> str_all p cur = true -> In x (split_go sep s k cur) -> str_all p x = true.
Proof.
  induction s; intros [|k] cur x Hs Hc Hin; simpl in *.
  - destruct Hin as [<-|[]]. rewrite str_all_rev. exact Hc.
  - destruct Hin as [<-|[]]. rewrite str_all_rev. exact Hc.
  - apply andb_prop in Hs as [Ha Hs].
    match type of Hin with context[if ?b then _ else _] => destruct b end.
    + destruct Hin as [<-|Hin]; [rewrite str_all_rev; exact Hc|]. exact (IHs _ EmptyString x Hs eq_refl Hin).
    + refine (IHs _ (String a cur) x Hs _ Hin). simpl. rewrite Ha. exact Hc.
  - apply andb_prop in Hs as [Ha Hs]. exact (IHs _ cur x Hs Hc Hin).
Qed.

Lemma str_all_split_by_go p q s : forall cur x,
  str_all p s = true -> str_all p cur = true -> In x (split_by_go q s cur) -> str_all p x = true.
Proof.
  induction s; intros cur x Hs Hc Hin; simpl in *.
  - destruct Hin as [<-|[]]. rewrite str_all_rev. exact Hc.
  - apply andb_prop in Hs as [Ha Hs]. destruct (q a).
    + destruct Hin as [<-|Hin]; [rewrite str_all_rev; exact Hc|]. exact (IHs EmptyString x Hs eq_refl Hin).
    + refine (IHs (String a cur) x Hs _ Hin). simpl. rewrite Ha. exact Hc.
Qed.

Lemma last_in_or {A} (P : A -> Prop) (l : list A) d :
  (forall x, In x l -> P x) -> P d -> P (last l d).
Proof.
  induction l as [|a l IH]; intros H Hd; simpl; [exact Hd|].
  destruct l as [|b l']; [apply H; left; reflexivity|].
  apply IH; [intros x Hx; apply H; right; exact Hx|exact Hd].
Qed.

Lemma str_all_join p sep l : str_all p sep = true -> (forall x, In x l -> str_all p x = true) ->
  str_all p (join sep l) = true.
Proof.
  intros Hs. induction l as [|a l IH]; intros H; simpl; [reflexivity|].
  destruct l as [|b l']; [apply H; left; reflexivity|].
  rewrite !str_all_app, Hs, H by (left; reflexivity). simpl.
  apply IH. intros x Hx. apply H. right. exact Hx.
Qed.

Lemma str_all_replace p old new s : str_all p s = true -> str_all p new = true ->
  str_all p (replace old new s) = true.
Proof.
  intros Hs Hn. unfold replace. apply str_all_join; [exact Hn|].
  intros x Hx. eapply str_all_split_go; [exact Hs| |exact Hx]. reflexivity.
Qed.

Lemma str_all_last_split p sep s : str_all p s = true -> str_all p (last_or EmptyString (split sep s)) = true.
Proof.
  intros H. apply (last_in_or (fun x => str_all p x = true)); [|reflexivity].
  intros x Hx. exact (str_all_split_go p sep s 0 EmptyString x H eq_refl Hx).
Qed.

Lemma str_all_last_split_by p q s : str_all p s = true -> str_all p (last_or EmptyString (split_by q s)) = true.
Proof.
  intros H. apply (last_in_or (fun x => str_all p x = true)); [|reflexivity].
  intros x Hx. exact (str_all_split_by_go p q s EmptyString x H eq_refl Hx).
Qed.

Lemma str_all_filter2 (q1 q2 : ascii -> bool) s :
  str_all (fun c => q1 c && q2 c) (filter_str q2 (filter_str q1 s)) = true.
Proof.
  induction s as [|c r IH]; cbn [filter_str]; [reflexivity|].
  destruct (q1 c) eqn:E1; cbn [filter_str]; [|exact IH].
  destruct (q2 c) eqn:E2; cbn [str_all]; [|exact IH].
  rewrite E1, E2. exact IH.
Qed.

Lemma sanitize_filters_ok s :
  str_all sanitize_ok_char
    (filter_str (fun c => 31 <? nat_of_ascii c)
       (filter_str (fun c => negb (existsb (Ascii.eqb c) sanitize_blacklist)) s)) = true.
Proof. exact (str_all_filter2 _ _ s). Qed.

Ltac ok_chars H :=
  repeat first
    [ exact H | reflexivity
    | rewrite str_all_app; apply andb_true_intro; split
    | apply str_all_rstrip | apply str_all_lstrip | apply str_all_strip | apply str_all_take_z | apply str_all_drop
    | apply str_all_last_split | apply str_all_last_split_by ].

Lemma sanitize_output_chars s : str_all sanitize_ok_char (sanitize s) = true.
Proof.
  pose proof (sanitize_filters_ok s) as H.
  unfold sanitize, nfkd, rstrip_chars.
  generalize dependent (filter_str (fun c => 31 <? nat_of_ascii c)
       (filter_str (fun c => negb (existsb (Ascii.eqb c) sanitize_blacklist)) s)).
  intros f Hf. cbv zeta.
  repeat match goal with |- context[if ?b then _ else _] => destruct b end;
  ok_chars Hf.
Qed.

(** X1: on a 7-bit ASCII input, where NFKD changes nothing, [sanitize]
    never returns a blacklisted character (backslash, slash, colon, star,
    question mark, double quote, angle brackets, bar, NUL) nor a character
    below code point 32. *)
Theorem sanitize_chars_ok s : str_all ascii7 s = true -> str_all sanitize_ok_char (sanitize s) = true.
Proof. intros _. exact (sanitize_output_chars s). Qed.

Lemma str_app_nil_r a : (a ++ EmptyString)%string = a.
Proof. induction a; simpl; congruence. Qed.

Lemma str_app_assoc a b c : (a ++ (b ++ c))%string = ((a ++ b) ++ c)%string.
Proof. induction a; simpl; congruence. Qed.

Lemma str_length_app a b : String.length (a ++ b) = String.length a + String.length b.
Proof. induction a; simpl; congruence. Qed.


Lemma rev_str_app a b : rev_str (a ++ b) = (rev_str b ++ rev_str a)%string.
Proof.
  induction a; simpl.
  - rewrite str_app_nil_r. reflexivity.
  - rewrite IHa. symmetry. apply str_app_assoc.
Qed.

Lemma rev_str_involutive s : rev_str (rev_str s) = s.
Proof. induction s; simpl; [reflexivity|]. rewrite rev_str_app, IHs. reflexivity. Qed.

Lemma rev_str_snoc x c : rev_str (x ++ String c EmptyString) = String c (rev_str x).
Proof. rewrite rev_str_app. reflexivity. Qed.

Lemma lstrip_form p t : lstrip_by p t = EmptyString \/ exists c r, lstrip_by p t = String c r /\ p c = false.
Proof.
  induction t as [|c r IH]; simpl; [left; reflexivity|].
  destruct (p c) eqn:E; [exact IH|]. right. exists c, r. split; [reflexivity|exact E].
Qed.

Lemma rstrip_form p t : rstrip_by p t = EmptyString
  \/ exists x c, rstrip_by p t = (x ++ String c EmptyString)%string /\ p c = false.
Proof.
  unfold rstrip_by. destruct (lstrip_form p (rev_str t)) as [->|[c [r [-> E]]]]; [left; reflexivity|].
  right. exists (rev_str r), c. split; [reflexivity|exact E].
Qed.

Lemma lstrip_keeps_last p x c : p c = false ->
  exists y, lstrip_by p (x ++ String c EmptyString) = (y ++ String c EmptyString)%string.
Proof.
  intros E. induction x as [|d r IH]; simpl.
  - rewrite E. exists EmptyString. reflexivity.
  - destruct (p d); [exact IH|]. exists (String d r). reflexivity.
Qed.

Lemma rstrip_keeps p x c : p c = false -> rstrip_by p (x ++ String c EmptyString) = (x ++ String c EmptyString)%string.
Proof.
  intros E. unfold rstrip_by. rewrite rev_str_snoc. simpl. rewrite E.
  simpl. rewrite rev_str_involutive. reflexivity.
Qed.

Lemma ok_not_space c : sanitize_ok_char c = true -> mem_char ". " c = false -> isspace c = false.
Proof.
  unfold sanitize_ok_char, mem_char, isspace. intros H1 H2.
  apply andb_prop in H1 as [_ H1]. apply Nat.ltb_lt in H1.
  cbn [list_ascii_of_string existsb] in H2. apply orb_false_elim in H2 as [_ H2].
  apply orb_false_elim in H2 as [H2 _].
  assert (nat_of_ascii c <> 32).
  { intros E. rewrite <- (ascii_nat_embedding c), E in H2. discriminate. }
  set (n := nat_of_ascii c) in *.
  replace (n <=? 13) with false by (symmetry; apply Nat.leb_gt; lia).
  replace (n <=? 32) with false by (symmetry; apply Nat.leb_gt; lia).
  rewrite !andb_false_r. reflexivity.
Qed.

Lemma strip_form f : str_all sanitize_ok_char f = true ->
  strip (rstrip_chars ". " f) = EmptyString
  \/ exists y c, strip (rstrip_chars ". " f) = (y ++ String c EmptyString)%string /\ mem_char ". " c = false.
Proof.
  intros Hf. unfold rstrip_chars.
  destruct (rstrip_form (mem_char ". ") f) as [H0 | [x [c [H0 Ec]]]].
  - left. rewrite H0. reflexivity.
  - right. assert (Hc : sanitize_ok_char c = true).
    { pose proof (str_all_rstrip sanitize_ok_char (mem_char ". ") f Hf) as H.
      rewrite H0, str_all_app in H. simpl in H. apply andb_prop in H as [_ H]. rewrite andb_true_r in H. exact H. }
    pose proof (ok_not_space c Hc Ec) as Es.
    unfold strip. rewrite H0. destruct (lstrip_keeps_last isspace x c Es) as [y Hy].
    rewrite Hy, (rstrip_keeps isspace y c Es). exists y, c. split; [reflexivity|exact Ec].
Qed.

Lemma forallb_snoc_false (q : ascii -> bool) y c : q c = false ->
  forallb q (list_ascii_of_string (y ++ String c EmptyString)) = false.
Proof.
  intros E. induction y as [|d r IH]; simpl; [rewrite E; reflexivity|]. rewrite IH. apply andb_false_r.
Qed.

Lemma length_snoc_nz x c : (String.length (x ++ String c EmptyString) =? 0) = false.
Proof. rewrite str_length_app. simpl. rewrite Nat.add_comm. reflexivity. Qed.

Lemma ends_tail E : exists x c,
  (if String.length (rstrip_chars ". " E) =? 0 then "__" else rstrip_chars ". " E) = (x ++ String c EmptyString)%string
  /\ mem_char ". " c = false.
Proof.
  unfold rstrip_chars. destruct (rstrip_form (mem_char ". ") E) as [-> | [x [c [-> Ec]]]].
  - exists "_", "_"%char. split; reflexivity.
  - rewrite length_snoc_nz. exists x, c. split; [reflexivity|exact Ec].
Qed.

(** X2: on a 7-bit ASCII input, where [str.strip] removes only the
    whitespace [str.isspace] sees below 128, the result of [sanitize] is
    never empty and never ends in a dot or a space, in both the short and
    the over-long branch. *)
Lemma sanitize_ends s : str_all ascii7 s = true ->
  exists x c, sanitize s = (x ++ String c EmptyString)%string /\ mem_char ". " c = false.
Proof.
  intros _.
  pose proof (sanitize_filters_ok s) as H.
  unfold sanitize, nfkd.
  generalize dependent (filter_str (fun c => 31 <? nat_of_ascii c)
       (filter_str (fun c => negb (existsb (Ascii.eqb c) sanitize_blacklist)) s)).
  intros f Hf. destruct (strip_form f Hf) as [Hg | [y [c [Hg Ec]]]]; rewrite Hg.
  - exists "_", "_"%char. split; [vm_compute; reflexivity|reflexivity].
  - assert (Ed : Ascii.eqb c "." = false).
    { unfold mem_char in Ec. simpl in Ec. apply orb_false_elim in Ec as [Ec _]. exact Ec. }
    rewrite (forallb_snoc_false _ y c Ed). cbv zeta.
    destruct (existsb _ reserved).
    + rewrite str_app_assoc, length_snoc_nz.
      destruct (255 <? _).
      * match goal with |- context[if (1 <? ?n) then _ else _] => destruct (1 <? n) end;
        cbv beta iota zeta; apply ends_tail.
      * exists ("__" ++ y)%string, c. split; [reflexivity|exact Ec].
    + rewrite length_snoc_nz.
      destruct (255 <? _).
      * match goal with |- context[if (1 <? ?n) then _ else _] => destruct (1 <? n) end;
        cbv beta iota zeta; apply ends_tail.
      * exists y, c. split; [reflexivity|exact Ec].
Qed.

Lemma get_snoc x c : String.get (String.length (x ++ String c EmptyString) - 1) (x ++ String c EmptyString) = Some c.
Proof.
  rewrite str_length_app. simpl. rewrite Nat.add_sub.
  induction x as [|d r IH]; simpl; [reflexivity|exact IH].
Qed.

(** ** lengths *)

Lemma len_filter p s : String.length (filter_str p s) <= String.length s.
Proof. induction s; simpl; [lia|]. destruct (p a); simpl; lia. Qed.

Lemma len_rev s : String.length (rev_str s) = String.length s.
Proof. induction s; simpl; [reflexivity|]. rewrite str_length_app. simpl. lia. Qed.

Lemma len_lstrip p s : String.length (lstrip_by p s) <= String.length s.
Proof. induction s; simpl; [lia|]. destruct (p a); simpl; lia. Qed.

Lemma len_rstrip p s : String.length (rstrip_by p s) <= String.length s.
Proof. unfold rstrip_by. rewrite len_rev. etransitivity; [apply len_lstrip|]. rewrite len_rev. lia. Qed.

Lemma len_strip s : String.length (strip s) <= String.length s.
Proof. unfold strip. etransitivity; [apply len_rstrip|apply len_lstrip]. Qed.

Lemma len_substring s : forall n m, String.length (substring n m s) = Nat.min m (String.length s - n).
Proof.
  induction s; intros [|n] [|m]; simpl; try reflexivity.
  - rewrite IHs. rewrite Nat.sub_0_r. reflexivity.
  - rewrite IHs. reflexivity.
  - rewrite IHs. reflexivity.
Qed.


Lemma len_take_z_nonneg m s : (0 <= m)%Z -> (Z.of_nat (String.length (take_z m s)) <= m)%Z.
Proof.
  intros Hm. unfold take_z. rewrite len_substring, Nat.sub_0_r.
  destruct (Z.ltb_spec m 0); [lia|]. lia.
Qed.

Lemma len_drop k s : String.length (drop k s) = String.length s - k.
Proof. unfold drop. rewrite len_substring. lia. Qed.

Lemma split_go_ne sep s k cur : split_go sep s k cur <> [].
Proof.
  revert k cur. induction s; intros [|k] cur; simpl; try congruence.
  all: try apply IHs.
  match goal with |- context[if ?b then _ else _] => destruct b end; [congruence|apply IHs].
Qed.

Lemma last_cons_ne {A} (a : A) l d : l <> [] -> last (a :: l) d = last l d.
Proof. destruct l; [congruence|reflexivity]. Qed.

Lemma split_dot_last t : forall cur,
  String.length (last (split_go "." t 0 cur) EmptyString) + List.length (split_go "." t 0 cur)
  <= String.length t + String.length cur + 1.
Proof.
  induction t as [|c r IH]; intros cur; simpl.
  - rewrite len_rev. lia.
  - cbn [split_go].
    match goal with |- context[if ?b then _ else _] => destruct b end.
    + rewrite last_cons_ne by apply split_go_ne. cbn [List.length].
      specialize (IH EmptyString). simpl in IH |- *. lia.
    + specialize (IH (String c cur)). simpl in IH. lia.
Qed.

Lemma split_by_go_ne q s : forall cur, split_by_go q s cur <> [].
Proof. induction s; intros cur; simpl; [congruence|]. destruct (q a); [congruence|apply IHs]. Qed.

Lemma split_by_last q t : forall cur,
  String.length (last (split_by_go q t cur) EmptyString) <= String.length t + String.length cur.
Proof.
  induction t as [|c r IH]; intros cur; cbn [split_by_go].
  - simpl. rewrite len_rev. lia.
  - destruct (q c).
    + rewrite last_cons_ne by apply split_by_go_ne. specialize (IH EmptyString). simpl in IH |- *. lia.
    + specialize (IH (String c cur)). simpl in IH |- *. lia.
Qed.

Lemma ext_bound Y :
  1 < List.length (split "." (last_or EmptyString (split_by is_path_sep Y))) ->
  String.length ("." ++ last_or EmptyString (split "." (last_or EmptyString (split_by is_path_sep Y))))
  <= String.length Y.
Proof.
  intros H. unfold last_or, split, split_by in *.
  pose proof (split_by_last is_path_sep Y EmptyString) as H1.
  pose proof (split_dot_last (last (split_by_go is_path_sep Y EmptyString) EmptyString) EmptyString) as H2.
  simpl in H1, H2 |- *. lia.
Qed.

Lemma tail_bound ext fn : String.length ext <= 509 ->
  String.length
    (let filename := if String.eqb fn EmptyString then "__" else fn in
     let ext := if 254 <? String.length ext then drop 254 ext else ext in
     let maxl := (255 - Z.of_nat (String.length ext))%Z in
     let filename := take_z maxl filename in
     let filename := filename ++ ext in
     let filename := rstrip_chars ". " filename in
     if String.length filename =? 0 then "__" else filename) <= 255.
Proof.
  intros He. cbv zeta.
  set (fn' := if String.eqb fn EmptyString then "__" else fn).
  set (ext' := if 254 <? String.length ext then drop 254 ext else ext).
  assert (Hx : String.length ext' <= 255).
  { unfold ext'. destruct (Nat.ltb_spec 254 (String.length ext)); [rewrite len_drop|]; lia. }
  pose proof (len_take_z_nonneg (255 - Z.of_nat (String.length ext')) fn') as Ht.
  destruct (String.length (rstrip_chars ". " (take_z (255 - Z.of_nat (String.length ext')) fn' ++ ext')) =? 0).
  - simpl. lia.
  - unfold rstrip_chars. etransitivity; [apply len_rstrip|]. rewrite str_length_app. lia.
Qed.

Lemma reserved_length x : existsb (String.eqb x) reserved = true -> String.length x <= 4.
Proof.
  intros H. apply existsb_exists in H as [r [Hr E]]. apply String.eqb_eq in E. subst r.
  simpl in Hr. repeat (destruct Hr as [<-|Hr]; [simpl; lia|]). destruct Hr.
Qed.

(** X3: a 7-bit ASCII input (which NFKD does not lengthen) of at most 509
    characters is sanitized to at most 255 characters. *)
Lemma sanitize_length_bound s : str_all ascii7 s = true -> String.length s <= 509 ->
  String.length (sanitize s) <= 255.
Proof.
  intros _ Hs.
  pose proof (sanitize_filters_ok s) as H.
  pose proof (len_filter (fun c => 31 <? nat_of_ascii c)
       (filter_str (fun c => negb (existsb (Ascii.eqb c) sanitize_blacklist)) s)) as L1.
  pose proof (len_filter (fun c => negb (existsb (Ascii.eqb c) sanitize_blacklist)) s) as L2.
  unfold sanitize, nfkd.
  generalize dependent (filter_str (fun c => 31 <? nat_of_ascii c)
       (filter_str (fun c => negb (existsb (Ascii.eqb c) sanitize_blacklist)) s)).
  intros f Hf L1. assert (Hl : String.length f <= 509) by lia. clear L1 L2.
  assert (Hg : String.length (strip (rstrip_chars ". " f)) <= 509).
  { etransitivity; [apply len_strip|]. unfold rstrip_chars. etransitivity; [apply len_rstrip|exact Hl]. }
  destruct (strip_form f Hf) as [Hg0 | [y [c [Hg0 Ec]]]]; rewrite Hg0 in *.
  - vm_compute. lia.
  - assert (Ed : Ascii.eqb c "." = false).
    { unfold mem_char in Ec. simpl in Ec. apply orb_false_elim in Ec as [Ec _]. exact Ec. }
    rewrite (forallb_snoc_false _ y c Ed). cbv zeta.
    destruct (existsb (String.eqb (y ++ String c EmptyString)) reserved) eqn:R.
    + apply reserved_length in R. rewrite str_app_assoc, length_snoc_nz.
      replace (255 <? String.length (("__" ++ y) ++ String c EmptyString)) with false
        by (symmetry; apply Nat.ltb_ge; rewrite <- str_app_assoc; rewrite str_length_app; simpl; lia).
      rewrite <- str_app_assoc, str_length_app. simpl. lia.
    + rewrite length_snoc_nz.
      destruct (Nat.ltb_spec 255 (String.length (y ++ String c EmptyString))) as [B|B]; [|exact B].
      match goal with |- context[if (1 <? ?n) then _ else _] => destruct (1 <? n) eqn:P end;
        cbv beta iota zeta; apply tail_bound.
      * apply Nat.ltb_lt in P. pose proof (ext_bound _ P). lia.
      * simpl. lia.
Qed.

Lemma str_all_impl (p q : ascii -> bool) s : (forall c, p c = true -> q c = true) ->
  str_all p s = true -> str_all q s = true.
Proof.
  intros Hpq. induction s; simpl; [reflexivity|]. intros H. apply andb_prop in H as [H1 H2].
  rewrite (Hpq _ H1), (IHs H2). reflexivity.
Qed.

Lemma filter_str_id p s : str_all p s = true -> filter_str p s = s.
Proof.
  induction s; simpl; [reflexivity|]. intros H. apply andb_prop in H as [H1 H2].
  rewrite H1, (IHs H2). reflexivity.
Qed.

Lemma ok_not_isspace c : sanitize_ok_char c = true -> Ascii.eqb c " " = false -> isspace c = false.
Proof.
  unfold sanitize_ok_char, isspace. intros H1 H2.
  apply andb_prop in H1 as [_ H1]. apply Nat.ltb_lt in H1.
  assert (nat_of_ascii c <> 32).
  { intros E. rewrite <- (ascii_nat_embedding c), E in H2. discriminate. }
  set (n := nat_of_ascii c) in *.
  replace (n <=? 13) with false by (symmetry; apply Nat.leb_gt; lia).
  replace (n <=? 32) with false by (symmetry; apply Nat.leb_gt; lia).
  rewrite !andb_false_r. reflexivity.
Qed.


(** X4: a 7-bit ASCII name that is already safe (allowed characters only,
    not ending in a dot or a space, not starting with a space, not
    reserved, at most 255 characters) is returned unchanged by
    [sanitize]. *)
Lemma sanitize_keeps_safe_name x c :
  str_all ascii7 (x ++ String c EmptyString) = true ->
  str_all sanitize_ok_char (x ++ String c EmptyString) = true ->
  c <> "."%char -> c <> " "%char ->
  String.get 0 (x ++ String c EmptyString) <> Some " "%char ->
  existsb (String.eqb (x ++ String c EmptyString)) reserved = false ->
  String.length (x ++ String c EmptyString) <= 255 ->
  sanitize (x ++ String c EmptyString) = (x ++ String c EmptyString)%string.
Proof.
  intros _ Hok Hdot Hsp Hfirst Hres Hlen.
  assert (Ec : mem_char ". " c = false).
  { unfold mem_char. simpl. apply Ascii.eqb_neq in Hdot, Hsp. rewrite Hdot, Hsp. reflexivity. }
  assert (Hcok : sanitize_ok_char c = true).
  { rewrite str_all_app in Hok. apply andb_prop in Hok as [_ Hok]. simpl in Hok. rewrite andb_true_r in Hok. exact Hok. }
  unfold sanitize, nfkd.
  rewrite (filter_str_id (fun c => negb (existsb (Ascii.eqb c) sanitize_blacklist)))
    by (refine (str_all_impl _ _ _ _ Hok); intros d Hd; unfold sanitize_ok_char in Hd;
        apply andb_prop in Hd; tauto).
  rewrite (filter_str_id (fun c => 31 <? nat_of_ascii c))
    by (refine (str_all_impl _ _ _ _ Hok); intros d Hd; unfold sanitize_ok_char in Hd;
        apply andb_prop in Hd; tauto).
  unfold rstrip_chars. rewrite (rstrip_keeps _ x c Ec).
  assert (Hl : lstrip_by isspace (x ++ String c EmptyString) = (x ++ String c EmptyString)%string).
  { destruct x as [|d r]; simpl.
    - rewrite (ok_not_space c Hcok Ec). reflexivity.
    - assert (Hd : sanitize_ok_char d = true) by (simpl in Hok; apply andb_prop in Hok; tauto).
      assert (Hd' : Ascii.eqb d " " = false) by (apply Ascii.eqb_neq; intros ->; apply Hfirst; reflexivity).
      rewrite (ok_not_isspace d Hd Hd'). reflexivity. }
  unfold strip. rewrite Hl, (rstrip_keeps isspace x c (ok_not_space c Hcok Ec)).
  rewrite (forallb_snoc_false _ x c) by (apply Ascii.eqb_neq; exact Hdot).
  cbv zeta. rewrite Hres, length_snoc_nz.
  replace (255 <? String.length (x ++ String c EmptyString)) with false by (symmetry; apply Nat.ltb_ge; exact Hlen).
  reflexivity.
Qed.

(** ** replace on single characters *)


Lemma split_go_snoc sep c s : forall k x,
  split_go sep s k (x ++ String c EmptyString) = prepend c (split_go sep s k x).
Proof.
  induction s as [|d r IH]; intros [|k] x; cbn [split_go].
  - rewrite rev_str_snoc. reflexivity.
  - rewrite rev_str_snoc. reflexivity.
  - match goal with |- context[if ?b then _ else _] => destruct b end.
    + rewrite rev_str_snoc. reflexivity.
    + exact (IH 0 (String d x)).
  - apply IH.
Qed.

Lemma join_prepend sep c l : l <> [] -> join sep (prepend c l) = String c (join sep l).
Proof. destruct l as [|y [|z l]]; [congruence|reflexivity|reflexivity]. Qed.

Lemma replace_cons o new c r : o <> c ->
  replace (String o EmptyString) new (String c r) = String c (replace (String o EmptyString) new r).
Proof.
  intros Hoc. unfold replace, split. cbn [split_go String.prefix].
  destruct (ascii_dec o c) as [E|_]; [contradiction|]. cbn [andb].
  change (String c EmptyString) with (EmptyString ++ String c EmptyString)%string.
  rewrite split_go_snoc. apply join_prepend, split_go_ne.
Qed.

Lemma prefix_nil r : String.prefix EmptyString r = true.
Proof. destruct r; reflexivity. Qed.


Lemma split_go_no_sep o s : forall cur x,
  str_all (no_char o) cur = true -> In x (split_go (String o EmptyString) s 0 cur) -> str_all (no_char o) x = true.
Proof.
  induction s as [|d r IH]; intros cur x Hc Hin; cbn [split_go] in Hin.
  - destruct Hin as [<-|[]]. rewrite str_all_rev. exact Hc.
  - cbn [String.prefix] in Hin. destruct (ascii_dec o d) as [<-|Hne]; cbn [String.prefix andb negb String.eqb] in Hin.
    + rewrite prefix_nil in Hin. cbn [andb String.length Nat.sub] in Hin.
      destruct Hin as [<-|Hin]; [rewrite str_all_rev; exact Hc|]. exact (IH EmptyString x eq_refl Hin).
    + refine (IH (String d cur) x _ Hin). simpl. rewrite Hc, andb_true_r.
      unfold no_char. destruct (Ascii.eqb_spec d o); [congruence|reflexivity].
Qed.

Lemma replace_removes o new s : str_all (no_char o) new = true ->
  str_all (no_char o) (replace (String o EmptyString) new s) = true.
Proof.
  intros Hn. unfold replace, split. apply str_all_join; [exact Hn|].
  intros x Hx. exact (split_go_no_sep o s EmptyString x eq_refl Hx).
Qed.

Lemma out_name_slash n : out_name (String "/" n) = String "/" (out_name n).
Proof.
  unfold out_name, dq, sq.
  rewrite replace_cons by discriminate. rewrite replace_cons by discriminate.
  rewrite replace_cons by discriminate. reflexivity.
Qed.

(** ** Where a download lands *)


Lemma str_all_and (p q : ascii -> bool) s :
  str_all p s = true -> str_all q s = true -> str_all (fun c => p c && q c) s = true.
Proof.
  induction s; simpl; [reflexivity|]. intros H1 H2.
  apply andb_prop in H1 as [A1 B1]. apply andb_prop in H2 as [A2 B2].
  rewrite A1, A2, IHs by assumption. reflexivity.
Qed.

Lemma sanitize_no_char o s : existsb (Ascii.eqb o) sanitize_blacklist = true ->
  str_all (no_char o) (sanitize s) = true.
Proof.
  intros Ho. apply (str_all_impl sanitize_ok_char); [|apply sanitize_output_chars].
  intros c Hc. unfold no_char. destruct (Ascii.eqb_spec c o) as [->|]; [|reflexivity].
  unfold sanitize_ok_char in Hc. rewrite Ho in Hc. discriminate.
Qed.

Lemma out_name_plain n : str_all (no_char "/") n = true -> str_all (no_char (ascii_of_nat 34)) n = true ->
  str_all plain_name_char (out_name n) = true.
Proof.
  intros H1 H2. unfold out_name, dq, sq.
  assert (A : forall p, str_all p n = true -> p "_"%char = true ->
                str_all p (replace "'" EmptyString (replace (String (ascii_of_nat 34) EmptyString) EmptyString
                                                     (replace " " "_" n))) = true).
  { intros p Hp Hu. apply str_all_replace; [|reflexivity]. apply str_all_replace; [|reflexivity].
    apply str_all_replace; [exact Hp|simpl; rewrite Hu; reflexivity]. }
  apply (str_all_impl (fun c => ((no_char "/" c && no_char " " c) && no_char (ascii_of_nat 34) c) && no_char "'" c));
    [intros c Hc; exact Hc|].
  apply str_all_and; [apply str_all_and; [apply str_all_and|]|].
  - apply A; [exact H1|reflexivity].
  - apply str_all_replace; [|reflexivity]. apply str_all_replace; [|reflexivity].
    apply replace_removes. reflexivity.
  - apply str_all_replace; [|reflexivity]. apply replace_removes. reflexivity.
  - apply replace_removes. reflexivity.
Qed.

Lemma path_join_plain n : str_all (no_char "/") n = true -> path_join tmp_dir n = (tmp_dir ++ "/" ++ n)%string.
Proof.
  intros H. unfold path_join. destruct n as [|c r]; [reflexivity|].
  simpl in H. apply andb_prop in H as [H _]. unfold no_char in H.
  cbn [String.prefix]. destruct (ascii_dec "/" c) as [<-|_]; [discriminate|reflexivity].
Qed.

Lemma plain_no_slash n : str_all plain_name_char n = true -> str_all (no_char "/") n = true.
Proof.
  apply str_all_impl. intros c Hc. unfold plain_name_char in Hc.
  apply andb_prop in Hc as [Hc _]. apply andb_prop in Hc as [Hc _]. apply andb_prop in Hc as [Hc _]. exact Hc.
Qed.


(** X5: when the document's title is 7-bit ASCII, a cleanup-mode
    reattachment first downloads the document directly into the temporary
    directory, under a name without slashes, spaces or quotes. *)
Theorem cleanup_download_in_tmp_dir a tag doc_id doc_j cand env io s r io' s' :
  str_all ascii7 (item_title (fst doc_j)) = true ->
  Cleanup.reattach_one a tag doc_id (Cleanup.DocJ doc_j (Some cand)) env (io, s) = (r, (io', s')) ->
  exists n l,
    io_trace io' = (io_trace io ++ DocumentGet doc_id (item_vault (fst cand)) (tmp_dir ++ "/" ++ n) :: l)%list
    /\ str_all plain_name_char n = true.
Proof.
  intros _ H. unfold Cleanup.reattach_one in H. cbv zeta in H.
  pose proof (sanitize_no_char "/" (replace (" - " ++ item_title (fst cand)) EmptyString (item_title (fst doc_j)))
                eq_refl) as N1.
  pose proof (sanitize_no_char (ascii_of_nat 34) (replace (" - " ++ item_title (fst cand)) EmptyString (item_title (fst doc_j)))
                eq_refl) as N2.
  revert H N1 N2.
  generalize (sanitize (replace (" - " ++ item_title (fst cand)) EmptyString (item_title (fst doc_j)))).
  intros dn H N1 N2. pose proof (out_name_plain dn N1 N2) as Hn.
  rewrite (path_join_plain _ (plain_no_slash _ Hn)) in H.
  revert Hn H. generalize (out_name dn). intros n Hn' H. exists n.
  match type of H with Py.bind (Py.try_except catchable (Py.bind (Py.R ?dg) (fun _ => Py.R ?ea)) ?h1) ?k env (io, s) = _ =>
    assert (E1 : exists io1 s1 l1,
               Py.try_except catchable (Py.bind (Py.R dg) (fun _ => Py.R ea)) h1 env (io, s) = (Ok tt, (io1, s1))
               /\ io_trace io1 = (io_trace io ++ dg :: l1)%list)
  end.
  { unfold Py.try_except, Py.bind, Py.R. simpl.
    destruct (fails env _); simpl; [|destruct (fails env _); simpl].
    all: do 3 eexists; split; [reflexivity|].
    all: unfold Py.push; simpl; rewrite <- ?app_assoc; reflexivity. }
  destruct E1 as [io1 [s1 [l1 [E1 T1]]]]. rewrite (bind_ok _ _ _ _ _ _ E1) in H.
  match type of H with Py.bind (Py.try_except catchable ?b2 ?h2) ?k env (io1, s1) = _ =>
    destruct (Py.try_except catchable b2 h2 env (io1, s1)) as [r2 [io2 s2]] eqn:E2;
    destruct (tame_group b2 _ _ _ env io1 s1 r2 io2 s2 ltac:(repeat tame_step) E2) as [-> [[l2 T2] _]]
  end.
  rewrite (bind_ok _ _ _ _ _ _ E2) in H.
  match type of H with Py.bind (Py.try_except catchable ?b3 ?h3) ?k env (io2, s2) = _ =>
    destruct (Py.try_except catchable b3 h3 env (io2, s2)) as [r3 [io3 s3]] eqn:E3;
    destruct (tame_group b3 _ _ _ env io2 s2 r3 io3 s3 ltac:(repeat tame_step) E3) as [-> [[l3 T3] _]]
  end.
  rewrite (bind_ok _ _ _ _ _ _ E3) in H.
  assert (T4 : exists l4, io_trace io' = (io_trace io3 ++ l4)%list).
  { revert H. unfold Py.try_except, Py.bind, Py.get, Py.R, Py.ret, Py.raise.
    destruct (negb (Cleanup.a_dry_run a)); simpl.
    - destruct (Cleanup.doc_vid s3); simpl.
      + destruct (fails env _); simpl; intros H; inversion H; subst; simpl.
        all: eexists; reflexivity.
      + intros H; inversion H; subst. exists []. rewrite app_nil_r. reflexivity.
    - intros H; inversion H; subst. exists []. rewrite app_nil_r. reflexivity. }
  destruct T4 as [l4 T4]. exists (l1 ++ l2 ++ l3 ++ l4)%list. split; [|exact Hn'].
  rewrite T4, T3, T2, T1. rewrite <- !app_assoc. reflexivity.
Qed.

Lemma try_R_first {S A} p c (k : unit -> M S A) h env io s r io' s' :
  (forall io1 s1 r1 io2 s2, k tt env (io1, s1) = (r1, (io2, s2)) -> exists l, io_trace io2 = (io_trace io1 ++ l)%list) ->
  (forall e io1 s1 r1 io2 s2, h e env (io1, s1) = (r1, (io2, s2)) -> exists l, io_trace io2 = (io_trace io1 ++ l)%list) ->
  Py.try_except p (Py.bind (Py.R c) k) h env (io, s) = (r, (io', s')) ->
  exists l, io_trace io' = (io_trace io ++ c :: l)%list.
Proof.
  intros Hk Hh H. unfold Py.try_except, Py.bind, Py.R in H. simpl in H.
  destruct (fails env c).
  - destruct (p (CalledProcessError c)).
    + destruct (Hh _ _ _ _ _ _ H) as [l T]. exists l. rewrite T. simpl. rewrite <- app_assoc. reflexivity.
    + inversion H; subst. exists []. reflexivity.
  - destruct (k tt env (Py.push c io, s)) as [r1 [io2 s2]] eqn:E.
    destruct (Hk _ _ _ _ _ E) as [l T]. simpl in T.
    assert (G : exists l', io_trace io' = (io_trace io2 ++ l')%list).
    { destruct r1 as [a|e]; [inversion H; subst; exists []; rewrite app_nil_r; reflexivity|].
      destruct (p e); [exact (Hh _ _ _ _ _ _ H)|inversion H; subst; exists []; rewrite app_nil_r; reflexivity]. }
    destruct G as [l' T']. exists (l ++ l')%list. rewrite T', T, <- !app_assoc. reflexivity.
Qed.

(** X6: in reference mode a file name starting with a slash is downloaded
    to that absolute path, outside the temporary directory. *)
Theorem ref_download_absolute_name c ref_id d p env io s r io' s' :
  RefMode.q_ref_file_name d = String "/" p ->
  RefMode.reattach_one c ref_id d env (io, s) = (r, (io', s')) ->
  exists l, io_trace io' = (io_trace io ++ DocumentGet ref_id (RefMode.q_ref_vid d) (String "/" (out_name p)) :: l)%list.
Proof.
  intros Hf H. unfold RefMode.reattach_one in H. cbv zeta in H.
  rewrite Hf, out_name_slash in H.
  assert (J : path_join tmp_dir (String "/" (out_name p)) = String "/" (out_name p)).
  { unfold path_join. cbn [String.prefix]. rewrite prefix_nil. reflexivity. }
  rewrite J in H.
  refine (try_R_first _ _ _ _ _ _ _ _ _ _ _ _ H).
  - intros io1 s1 r1 io2 s2 E.
    match type of E with ?m env (io1, s1) = _ =>
      assert (Hb : halts_at_rejection m) by (repeat halts_step) end.
    destruct (Hb _ _ _ _ _ _ E) as [_ [l [T _]]]. exists l. exact T.
  - intros e io1 s1 r1 io2 s2 E. unfold RefMode.fail, Py.modify in E. inversion E; subst.
    exists []. rewrite app_nil_r. reflexivity.
Qed.


Lemma with_failed_twice fl fl' s : with_failed fl (with_failed fl' s) = with_failed fl s.
Proof. reflexivity. Qed.

(** When no archived candidate that answers its fetch refers to the
    document, the archived pass only adds fetch failures. *)
Lemma archived_pass_none doc_i doc_name doc_j cands env io s :
  (forall c it', In c cands -> Cleanup.is_archived c = true -> fetch_ok env (item_id (fst c)) it' ->
                 holds_reference doc_i it' = false) ->
  exists io1 fl,
    Cleanup.archived_pass doc_i doc_name doc_j cands env (io, s) = (Ok tt, (io1, with_failed fl s)).
Proof.
  revert io s. induction cands as [|c r IH]; intros io s Hc; simpl.
  - exists io, (Cleanup.failed_docs s). rewrite with_failed_id. reflexivity.
  - assert (Hr : forall c' it', In c' r -> Cleanup.is_archived c' = true ->
                   fetch_ok env (item_id (fst c')) it' -> holds_reference doc_i it' = false)
      by (intros c' it' Hin; apply Hc; right; exact Hin).
    destruct (Cleanup.is_archived c) eqn:Ec; simpl; [|apply IH, Hr].
    destruct (fetch_ok_dec env (item_id (fst c))) as [[it' Hf']|Hno].
    + rewrite (bind_ok _ _ _ _ _ _ (try_get_ok env _ _ it' io s Hf')).
      pose proof (Hc c it' (or_introl eq_refl) Ec Hf') as Hn. unfold holds_reference in Hn.
      cbv beta iota. destruct (_ =? 0); [|discriminate]. apply IH, Hr.
    + destruct (try_get_failed env (item_id (fst c)) "failed to get item" (item_title (fst c)) doc_name io s Hno)
        as [e He].
      rewrite (bind_ok _ _ _ _ _ _ He). simpl.
      destruct (IH (Py.push (ItemGet (item_id (fst c))) io)
                   (with_failed (dl_append "failed to get item"
                      (Cleanup.mkFail (item_title (fst c)) doc_name e) (Cleanup.failed_docs s)) s) Hr)
        as [io1 [fl E]].
      exists io1, fl. exact E.
Qed.

(** X7: in cleanup mode a document reattached by the fuzzy rule is also
    recorded as having no matching items. The fuzzy rule applies when no
    archived matching item that answers its fetch refers to the document,
    and the first active matching item that answers its fetch and has
    files has no file of the same size or name. *)
Theorem fuzzy_reattach_also_unmatched confirm all_docs all_itms doc env io s dj f0 fs pre cand post it :
  fetch_ok env (item_id doc) dj ->
  filter (fun f => negb (String.eqb (file_id f) EmptyString)) (files_of dj) = f0 :: fs ->
  Cleanup.not_upgrade_named (item_title dj) = false ->
  Cleanup.is_removed (item_id doc) s = false ->
  filter (fun p => String.eqb (strip (item_title (fst p))) (strip (last_or EmptyString (split " - " (item_title dj)))))
         all_itms = (pre ++ cand :: post)%list ->
  (forall c it', In c (pre ++ cand :: post)%list -> Cleanup.is_archived c = true ->
                 fetch_ok env (item_id (fst c)) it' -> holds_reference (item_id doc) it' = false) ->
  (forall c it', In c pre -> Cleanup.is_archived c = false -> fetch_ok env (item_id (fst c)) it' ->
                 files_of it' = []) ->
  Cleanup.is_archived cand = false ->
  fetch_ok env (item_id (fst cand)) it -> files_of it <> [] ->
  existsb (fun f => Z.eqb (file_size f) (file_size f0)) (files_of it) = false ->
  existsb (fun f => String.eqb (file_name f) (replace (" - " ++ item_title (fst cand)) EmptyString (item_title dj)))
          (files_of it) = false ->
  exists doc_j io' s', fst doc_j = dj
    /\ Cleanup.doc_body confirm all_docs all_itms doc env (io, s) = (Ok tt, (io', s'))
    /\ Cleanup.reattached_docs s' = dl_append (item_id doc) (Cleanup.DocJ doc_j (Some cand)) (Cleanup.reattached_docs s)
    /\ (if confirm
        then Cleanup.removal_pending_docs s'
             = dl_append "no matching items" (Cleanup.DocJ doc_j None) (Cleanup.removal_pending_docs s)
        else Cleanup.skipped_docs s'
             = dl_append "no matching items" (Cleanup.DocJ doc_j None) (Cleanup.skipped_docs s)).
Proof.
  intros Hdoc Hfiles Hname Hrm Hmatch Harch Hpre Hca Hf Hne Hsz Hnm.
  unfold Cleanup.doc_body.
  rewrite (bind_ok _ _ _ _ _ _ (try_get_ok env _ _ dj io s Hdoc)). cbv beta iota.
  destruct (materialize_state dj env (Py.push (ItemGet (item_id doc)) io) s) as [doc_j [io2 [Hm Hp]]].
  rewrite (bind_ok _ _ _ _ _ _ Hm). cbv beta. rewrite Hfiles, Hname. cbv beta iota zeta.
  rewrite Hmatch.
  destruct (archived_pass_none (item_id doc) (item_title dj) doc_j (pre ++ cand :: post) env io2 s Harch)
    as [io3 [fl0 Ha0]].
  rewrite (bind_ok _ _ _ _ _ _ Ha0).
  cbv beta. unfold Py.bind at 1. cbn [Py.get fst snd].
  unfold Cleanup.is_removed in *. cbn [with_failed Cleanup.removed_doc_ids]. rewrite Hrm. cbv iota.
  destruct (active_pass_first (item_id doc) (item_title dj) (file_size f0) doc_j pre cand post env io3
              (with_failed fl0 s) it Hca Hf Hne Hpre) as [io1 [fl Ha]].
  rewrite with_failed_twice in Ha.
  assert (Hc : Cleanup.active_pass (item_id doc) (item_title dj) (file_size f0) doc_j [cand] env
                 (io1, with_failed fl s)
               = (Ok tt, (Py.push (ItemGet (item_id (fst cand))) io1,
                          Cleanup.mkSt (dl_append (item_id doc) (Cleanup.DocJ doc_j (Some cand))
                                          (Cleanup.reattached_docs s))
                            (Cleanup.skipped_docs s) (Cleanup.removed_docs s) (Cleanup.removal_pending_docs s)
                            fl (Cleanup.removed_doc_ids s) (Cleanup.doc_vid s)))).
  { cbn [Cleanup.active_pass]. rewrite Hca. cbv beta iota.
    rewrite (bind_ok _ _ _ _ _ _ (try_get_ok env _ _ it io1 _ Hf)). cbv beta iota zeta.
    destruct (files_of it) as [|g gs] eqn:E; [congruence|].
    cbn [List.length Nat.eqb]. rewrite Hsz, Hnm. destruct s. reflexivity. }
  rewrite (bind_ok _ _ _ _ _ _ (eq_trans Ha Hc)).
  unfold Py.bind, Py.get. cbn [fst snd Cleanup.removed_doc_ids]. rewrite Hrm.
  exists doc_j. destruct confirm; do 2 eexists; (split; [exact Hp|]); (split; [reflexivity|]);
    (split; reflexivity).
Qed.


Lemma ref_body_lookup_fails c itm_i itm_name itm_vid itm_lnk itags ref env io s :
  (field_value ref = None \/ exists id, field_value ref = Some id /\ forall it, ~ fetch_ok env id it) ->
  exists io1 e,
    RefMode.ref_body c itm_i itm_name itm_vid itm_lnk itags ref env (io, s)
    = (s0 <- Py.get ;;
       match RefMode.ref_name s0 with
       | None => Py.raise (NameError "ref_name")
       | Some rn => RefMode.fail "failed to check document" (RefMode.mkEntry itm_name rn itm_lnk (Some e))
       end) env (io1, s).
Proof.
  intros Hfail. unfold RefMode.ref_body. cbv zeta.
  match goal with |- context[Py.try_except catchable ?b ?h env (io, s)] =>
    assert (E : exists io1 e, catchable e = true /\ b env (io, s) = (Exc e, (io1, s)))
  end.
  { destruct Hfail as [Hv|[id [Hv Hno]]].
    - exists io, (KeyError "value"). split; [reflexivity|].
      unfold RefMode.key_value, Py.bind. rewrite Hv. reflexivity.
    - unfold RefMode.key_value, Py.bind at 1. rewrite Hv. cbn [Py.ret].
      unfold Py.bind, Py.item_get. unfold fetch_ok in Hno. simpl.
      destruct (find_item (store env) id) as [it|] eqn:Ef.
      + destruct (fails env (ItemGet id)) eqn:Eb.
        * do 2 eexists. split; [|reflexivity]. reflexivity.
        * exfalso. apply (Hno it). split; reflexivity.
      + do 2 eexists. split; [|reflexivity]. reflexivity. }
  destruct E as [io1 [e [Hc E]]]. exists io1, e.
  rewrite (try_caught _ _ _ _ _ _ _ E Hc). reflexivity.
Qed.

(** X8: in reference mode, when the referenced document cannot be looked
    up, the failure is recorded under the previous reference's document
    name, or NameError is raised when there was none. *)
Theorem ref_check_failure_names_previous c itm_i itm_name itm_vid itm_lnk itags ref env io s :
  (field_value ref = None \/ exists id, field_value ref = Some id /\ forall it, ~ fetch_ok env id it) ->
  match RefMode.ref_name s with
  | None => exists w', RefMode.ref_body c itm_i itm_name itm_vid itm_lnk itags ref env (io, s)
                       = (Exc (NameError "ref_name"), w')
  | Some rn => exists io' e,
      RefMode.ref_body c itm_i itm_name itm_vid itm_lnk itags ref env (io, s)
      = (Ok tt, (io', RefMode.mkSt (RefMode.reattached_docs s) (RefMode.skipped_docs s)
                        (dl_append "failed to check document" (RefMode.mkEntry itm_name rn itm_lnk (Some e))
                           (RefMode.failed_docs s))
                        (Some rn)))
  end.
Proof.
  intros Hfail.
  destruct (ref_body_lookup_fails c itm_i itm_name itm_vid itm_lnk itags ref env io s Hfail) as [io1 [e E]].
  rewrite E. unfold Py.bind, Py.get. cbn [fst snd].
  destruct (RefMode.ref_name s) as [rn|] eqn:Er.
  - exists io1, e. unfold RefMode.fail, Py.modify. cbn. rewrite Er. reflexivity.
  - eexists. reflexivity.
Qed.

(** X9: a verbose reference-mode run over items without tags raises
    ValueError right after listing the items. *)
Theorem ref_verbose_without_tags_raises env c stdin :
  verbose' c = true -> fails env (ItemList false []) = false ->
  flat_map tags_of (list_items (store env) false []) = [] ->
  RefMode.run env c stdin = (Exc ValueError, (mkIO [ItemList false []] stdin [], RefMode.init)).
Proof.
  intros Hv Hl Ht. unfold RefMode.run, RefMode.main, RefMode.classify.
  unfold Py.bind at 1 2. unfold Py.bind at 1. unfold Py.item_list. cbn [fst snd].
  rewrite Hl. rewrite Hv. unfold RefMode.stats. rewrite Ht. cbn [List.length Nat.eqb].
  rewrite orb_true_r. reflexivity.
Qed.



Lemma heap_sub_refl h : heap_sub h h.
Proof. intros loc x H. exact H. Qed.

Lemma heap_sub_trans h1 h2 h3 : heap_sub h1 h2 -> heap_sub h2 h3 -> heap_sub h1 h3.
Proof. intros A B loc x H. apply B, A, H. Qed.

Lemma heap_sub_snoc h p : heap_sub h (h ++ [p])%list.
Proof.
  intros loc x. unfold Py.heap_read. induction h as [|q r IH]; simpl; [intros []|].
  destruct (fst q =? loc); [tauto|exact IH].
Qed.

Lemma heap_sub_append h l0 y :
  heap_sub h (map (fun p => if Nat.eqb (fst p) l0 then (fst p, (snd p ++ [y])%list) else p) h).
Proof.
  intros loc x. unfold Py.heap_read. induction h as [|[k v] r IH]; simpl; [tauto|].
  destruct (k =? l0) eqn:E1; simpl; destruct (k =? loc) eqn:E2; simpl; try exact IH.
  - intros H. apply in_or_app. left. exact H.
  - intros H. exact H.
Qed.


Lemma mono_ret {A} (a : A) : mono (Py.ret a).
Proof. intros env io s r io' s' H. inversion H; subst. split; [apply heap_sub_refl|split; [reflexivity|]].
  exists []. rewrite app_nil_r. reflexivity. Qed.

Lemma mono_raise {A} e : mono (A:=A) (Py.raise e).
Proof. intros env io s r io' s' H. inversion H; subst. split; [apply heap_sub_refl|split; [reflexivity|]].
  exists []. rewrite app_nil_r. reflexivity. Qed.

Lemma mono_R c : mono (Py.R c).
Proof.
  intros env io s r io' s' H. unfold Py.R in H. destruct (fails env c); inversion H; subst;
  (split; [apply heap_sub_refl|split; [reflexivity|exists [c]; reflexivity]]).
Qed.

Lemma mono_load loc : mono (Py.load loc).
Proof. intros env io s r io' s' H. inversion H; subst. split; [apply heap_sub_refl|split; [reflexivity|]].
  exists []. rewrite app_nil_r. reflexivity. Qed.

Lemma mono_append loc x : mono (Py.append loc x).
Proof. intros env io s r io' s' H. inversion H; subst. split; [apply heap_sub_append|split; [reflexivity|]].
  exists []. simpl. rewrite app_nil_r. reflexivity. Qed.

Lemma mono_alloc l : mono (Py.alloc l).
Proof. intros env io s r io' s' H. inversion H; subst. split; [apply heap_sub_snoc|split; [reflexivity|]].
  exists []. simpl. rewrite app_nil_r. reflexivity. Qed.

Lemma mono_get_tags t : mono (Py.get_tags t).
Proof. destruct t; [apply mono_ret|apply mono_alloc]. Qed.

Lemma mono_fail rs f : mono (Cleanup.fail rs f).
Proof. intros env io s r io' s' H. inversion H; subst. split; [apply heap_sub_refl|split; [reflexivity|]].
  exists []. rewrite app_nil_r. reflexivity. Qed.

Lemma mono_bind {A B} (m : M Cleanup.St A) (f : A -> M Cleanup.St B) :
  mono m -> (forall a, mono (f a)) -> mono (Py.bind m f).
Proof.
  intros Hm Hf env io s r io' s' H. unfold Py.bind in H.
  destruct (m env (io, s)) as [[a|e] [io1 s1]] eqn:E1.
  - destruct (Hm _ _ _ _ _ _ E1) as [H1 [V1 [l1 T1]]]. destruct (Hf a _ _ _ _ _ _ H) as [H2 [V2 [l2 T2]]].
    split; [exact (heap_sub_trans _ _ _ H1 H2)|split; [congruence|]].
    exists (l1 ++ l2)%list. rewrite T2, T1, app_assoc. reflexivity.
  - inversion H; subst. exact (Hm _ _ _ _ _ _ E1).
Qed.

Lemma mono_try {A} p (m : M Cleanup.St A) h :
  mono m -> (forall e, mono (h e)) -> mono (Py.try_except p m h).
Proof.
  intros Hm Hh env io s r io' s' H. unfold Py.try_except in H.
  destruct (m env (io, s)) as [[a|e] [io1 s1]] eqn:E1.
  - inversion H; subst. exact (Hm _ _ _ _ _ _ E1).
  - destruct (Hm _ _ _ _ _ _ E1) as [H1 [V1 [l1 T1]]]. destruct (p e).
    + destruct (Hh e _ _ _ _ _ _ H) as [H2 [V2 [l2 T2]]].
      split; [exact (heap_sub_trans _ _ _ H1 H2)|split; [congruence|]].
      exists (l1 ++ l2)%list. rewrite T2, T1, app_assoc. reflexivity.
    + inversion H; subst. exact (Hm _ _ _ _ _ _ E1).
Qed.

Ltac mono_step :=
  first [ apply mono_bind; [|intro]
        | apply mono_try; [|intro]
        | match goal with |- mono (if ?b then _ else _) => destruct b end
        | apply mono_R | apply mono_load | apply mono_append | apply mono_alloc
        | apply mono_get_tags | apply mono_fail | apply mono_ret | apply mono_raise ].


(** X10: in a live cleanup run, when the document already carries the tag
    "<tag> deleted", the reattachment deletes it in the vault left by a
    previous document, or raises NameError when there was none. *)
Theorem cleanup_tagged_doc_stale_vault a tag doc_id doc_j cand env io s loc :
  Cleanup.a_dry_run a = false ->
  snd doc_j = Some loc ->
  In (tag ++ " deleted") (Py.heap_read (io_heap io) loc) ->
  match Cleanup.doc_vid s with
  | None => exists w', Cleanup.reattach_one a tag doc_id (Cleanup.DocJ doc_j (Some cand)) env (io, s)
                       = (Exc (NameError "doc_vid"), w')
  | Some v => exists io' s' l,
      Cleanup.reattach_one a tag doc_id (Cleanup.DocJ doc_j (Some cand)) env (io, s) = (Ok tt, (io', s'))
      /\ io_trace io' = (io_trace io ++ l ++ [ItemDelete doc_id v (Cleanup.a_archive_docs a)])%list
  end.
Proof.
  intros Hdry Hloc Hin.
  destruct (Cleanup.reattach_one a tag doc_id (Cleanup.DocJ doc_j (Some cand)) env (io, s)) as [r [io' s']] eqn:H.
  unfold Cleanup.reattach_one in H. cbv zeta in H. rewrite Hdry in H.
  match type of H with context[sanitize ?x] => set (dn := sanitize x) in H; clearbody dn end.
  match type of H with Py.bind (Py.try_except catchable ?b1 ?h1) ?k env (io, s) = _ =>
    destruct (Py.try_except catchable b1 h1 env (io, s)) as [r1 [io1 s1]] eqn:E1;
    destruct (tame_group b1 _ _ _ env io s r1 io1 s1 ltac:(repeat tame_step) E1) as [-> _];
    assert (M1 : mono (Py.try_except catchable b1 h1)) by (repeat mono_step);
    destruct (M1 _ _ _ _ _ _ E1) as [S1 [V1 [l1 T1]]]
  end.
  rewrite (bind_ok _ _ _ _ _ _ E1) in H.
  match type of H with Py.bind (Py.try_except catchable ?b2 ?h2) ?k env (io1, s1) = _ =>
    destruct (Py.try_except catchable b2 h2 env (io1, s1)) as [r2 [io2 s2]] eqn:E2;
    destruct (tame_group b2 _ _ _ env io1 s1 r2 io2 s2 ltac:(repeat tame_step) E2) as [-> _];
    assert (M2 : mono (Py.try_except catchable b2 h2)) by (repeat mono_step);
    destruct (M2 _ _ _ _ _ _ E2) as [S2 [V2 [l2 T2]]]
  end.
  rewrite (bind_ok _ _ _ _ _ _ E2) in H.
  assert (Hex : existsb (String.eqb (tag ++ " deleted")) (Py.heap_read (io_heap io2) loc) = true).
  { apply existsb_exists. exists (tag ++ " deleted"). split; [exact (S2 _ _ (S1 _ _ Hin))|apply String.eqb_refl]. }
  match type of H with Py.bind (Py.try_except catchable ?b3 ?h3) ?k env (io2, s2) = _ =>
    assert (E3 : Py.try_except catchable b3 h3 env (io2, s2) = (Ok tt, (io2, s2)))
  end.
  { rewrite Hloc. unfold Py.try_except, Py.bind, Py.get_tags, Py.ret, Py.load. cbn [fst]. rewrite Hex. reflexivity. }
  rewrite (bind_ok _ _ _ _ _ _ E3) in H.
  unfold Py.try_except, Py.bind, Py.get in H. cbn [negb fst snd] in H.
  rewrite V2, V1 in H.
  destruct (Cleanup.doc_vid s) as [v|].
  - unfold Py.R in H. destruct (fails env _); cbv beta iota zeta in H; cbn [catchable] in H.
    + unfold Cleanup.fail, Py.modify in H. cbv beta iota in H. inversion H; subst.
      eexists _, _, (l1 ++ l2)%list. split; [reflexivity|]. cbn [Py.push io_trace fst]. rewrite T2, T1, <- !app_assoc. reflexivity.
    + inversion H; subst.
      eexists _, _, (l1 ++ l2)%list. split; [reflexivity|]. cbn [Py.push io_trace fst]. rewrite T2, T1, <- !app_assoc. reflexivity.
  - unfold Py.raise in H. cbv beta iota in H. cbn [catchable] in H. eexists. inversion H; subst. reflexivity.
Qed.

(** X11: a cleanup-mode removal always completes, records the document's
    vault, and issues the document's deletion last unless the run is dry. *)
Theorem cleanup_remove_one_spec a tag doc_j r env io s :
  exists io' s',
    Cleanup.remove_one a tag (Cleanup.DocJ doc_j r) env (io, s) = (Ok tt, (io', s'))
    /\ Cleanup.doc_vid s' = Some (item_vault (fst doc_j))
    /\ exists l, forallb (fun c => negb (is_delete c)) l = true
       /\ io_trace io' = (io_trace io ++ l
                          ++ (if Cleanup.a_dry_run a then []
                              else [ItemDelete (item_id (fst doc_j)) (item_vault (fst doc_j))
                                      (Cleanup.a_archive_docs a)]))%list.
Proof.
  unfold Cleanup.remove_one, Cleanup.set_doc_vid, Py.modify. cbv zeta.
  unfold Py.bind at 1. cbn [fst snd].
  match goal with |- context[Py.bind (Py.try_except is_cpe ?b1 ?h1) ?k ?e ?w] =>
    assert (G1 : exists io1 s1 l1, Py.try_except is_cpe b1 h1 e w = (Ok tt, (io1, s1))
                   /\ Cleanup.doc_vid s1 = Cleanup.doc_vid (snd w)
                   /\ forallb (fun c => negb (is_delete c)) l1 = true
                   /\ io_trace io1 = (io_trace (fst w) ++ l1)%list);
    [|destruct G1 as [io1 [s1 [l1 [G1 [V1 [N1 T1]]]]]]; rewrite (bind_ok _ _ _ _ _ _ G1)]
  end.
  { unfold Py.try_except, Py.bind, Py.get_tags, Py.alloc, Py.load, Py.append, Py.ret, Py.R.
    destruct (snd doc_j); cbn [fst snd];
    repeat match goal with |- context[if ?b then _ else _] => destruct b; cbn [fst snd is_cpe] end.
    all: do 3 eexists; split; [reflexivity|]; split; [reflexivity|].
    all: first [ split; [|symmetry; apply app_nil_r]; reflexivity
               | split; [|reflexivity]; reflexivity ]. }
  unfold Py.try_except, Py.R, Py.ret.
  destruct (Cleanup.a_dry_run a); cbn [negb].
  - do 2 eexists. split; [reflexivity|]. split; [rewrite V1; reflexivity|].
    exists l1. split; [exact N1|]. rewrite T1, app_nil_r. reflexivity.
  - destruct (fails env _); cbn [is_cpe].
    + unfold Cleanup.fail, Py.modify. do 2 eexists. split; [reflexivity|]. split; [cbn; rewrite V1; reflexivity|].
      exists l1. split; [exact N1|]. cbn. rewrite T1, <- app_assoc. reflexivity.
    + do 2 eexists. split; [reflexivity|]. split; [cbn; rewrite V1; reflexivity|].
      exists l1. split; [exact N1|]. cbn. rewrite T1, <- app_assoc. reflexivity.
Qed.

(** ** The pre-check's skipped set *)


Lemma tag_check_ids {E} (mk : Item -> E) twl tbl itm tags sk ids x :
  In x (snd (tag_check mk twl tbl itm tags sk ids)) <->
  In x ids \/ (item_id itm = x /\ exists t, In t tags /\ denied (allowed_by_white_black_lists t twl tbl true) = true).
Proof.
  revert sk ids. induction tags as [|t r IH]; intros sk ids; cbn [tag_check].
  - cbn [snd]. split; [tauto|]. intros [H|[_ [t [[] _]]]]. exact H.
  - cbv zeta. destruct (denied (allowed_by_white_black_lists t twl tbl true)) eqn:Ed; cbn [snd In].
    + split.
      * intros [<-|H]; [right; split; [reflexivity|exists t; split; [left; reflexivity|exact Ed]]|left; exact H].
      * intros [H|[<- _]]; [right; exact H|left; reflexivity].
    + rewrite IH. split.
      * intros [H|[Hx [t' [Ht' Hd]]]]; [left; exact H|right; split; [exact Hx|exists t'; split; [right; exact Ht'|exact Hd]]].
      * intros [H|[Hx [t' [[<-|Ht'] Hd]]]]; [left; exact H|congruence|right; split; [exact Hx|exists t'; split; assumption]].
Qed.

Lemma precheck_one_ids {E} (mk : Item -> E) wl bl twl tbl acc itm x :
  In x (snd (precheck_one mk wl bl twl tbl acc itm)) <->
  In x (snd acc) \/ (item_id itm = x /\
                      (denied (allowed_by_white_black_lists (item_title itm) wl bl false) = true
                       \/ tag_denied twl tbl itm)).
Proof.
  destruct acc as [sk ids]. unfold precheck_one, tag_denied. cbn [snd].
  destruct (denied (allowed_by_white_black_lists (item_title itm) wl bl false)) eqn:Ed.
  - cbv beta iota zeta. cbn [existsb]. rewrite String.eqb_refl. cbn [orb snd]. split.
    + intros [<-|H]; [right; split; [reflexivity|left; reflexivity]|left; exact H].
    + intros [H|[<- _]]; [right; exact H|left; reflexivity].
  - destruct (existsb (String.eqb (item_id itm)) ids) eqn:Ex; cbn [snd].
    + split; [tauto|]. intros [H|[<- _]]; [exact H|].
      apply existsb_exists in Ex as [y [Hy Ey]]. apply String.eqb_eq in Ey. subst y. exact Hy.
    + rewrite tag_check_ids. split.
      * intros [H|[Hx Ht]]; [left; exact H|right; split; [exact Hx|right; exact Ht]].
      * intros [H|[Hx [Hd|Ht]]]; [left; exact H|discriminate|right; split; assumption].
Qed.


(** X12: the pre-check skips exactly the ids of the items whose title is
    refused by the title lists or one of whose tags is refused by the tag
    lists. *)
Theorem precheck_skips_exactly_denied {E} (mk : Item -> E) wl bl twl tbl items sk x :
  In x (snd (precheck mk wl bl twl tbl items sk)) <->
  exists itm, In itm items /\ item_id itm = x /\
    (denied (allowed_by_white_black_lists (item_title itm) wl bl false) = true \/ tag_denied twl tbl itm).
Proof.
  unfold precheck.
  assert (G : forall acc, In x (snd (fold_left (precheck_one mk wl bl twl tbl) items acc)) <->
    In x (snd acc) \/ exists itm, In itm items /\ item_id itm = x /\
      (denied (allowed_by_white_black_lists (item_title itm) wl bl false) = true \/ tag_denied twl tbl itm)).
  { induction items as [|i r IH]; intros acc; simpl.
    - split; [tauto|]. intros [H|[_ [[] _]]]. exact H.
    - rewrite IH, precheck_one_ids. split.
      + intros [[H|[Hx Hd]]|[itm [Hin R]]]; [left; exact H|right; exists i; split; [left; reflexivity|split; assumption]|
                                             right; exists itm; split; [right; exact Hin|exact R]].
      + intros [H|[itm [[<-|Hin] [Hx Hd]]]]; [left; left; exact H|left; right; split; assumption|
                                              right; exists itm; split; [exact Hin|split; assumption]]. }
  rewrite G. cbn [snd]. split; [intros [[]|H]; exact H|intros H; right; exact H].
Qed.

(** X13: in cleanup mode a document that is fetched and has no file with a
    non-empty id is recorded as removed with reason "no files", its id is
    added to the removed ids, and nothing but its fetch is issued. *)
Theorem doc_without_files_removed confirm all_docs all_itms doc env io s dj :
  fetch_ok env (item_id doc) dj ->
  filter (fun f => negb (String.eqb (file_id f) EmptyString)) (files_of dj) = [] ->
  exists doc_j io', fst doc_j = dj
    /\ io_trace io' = (io_trace io ++ [ItemGet (item_id doc)])%list
    /\ Cleanup.doc_body confirm all_docs all_itms doc env (io, s)
       = (Ok tt, (io', Cleanup.mkSt (Cleanup.reattached_docs s) (Cleanup.skipped_docs s)
                         (dl_append "no files" (Cleanup.DocJ doc_j None) (Cleanup.removed_docs s))
                         (Cleanup.removal_pending_docs s) (Cleanup.failed_docs s)
                         (item_id doc :: Cleanup.removed_doc_ids s) (Cleanup.doc_vid s))).
Proof.
  intros Hdoc Hfiles. unfold Cleanup.doc_body.
  rewrite (bind_ok _ _ _ _ _ _ (try_get_ok env _ _ dj io s Hdoc)). cbv beta iota.
  assert (Hm : exists doc_j io2, Cleanup.materialize dj env (Py.push (ItemGet (item_id doc)) io, s)
                                 = (Ok doc_j, (io2, s)) /\ fst doc_j = dj
                                 /\ io_trace io2 = (io_trace io ++ [ItemGet (item_id doc)])%list).
  { unfold Cleanup.materialize. destruct (item_tags dj); do 2 eexists; split; [reflexivity| |reflexivity|];
    split; reflexivity. }
  destruct Hm as [doc_j [io2 [Hm [Hp T]]]].
  rewrite (bind_ok _ _ _ _ _ _ Hm). cbv beta. rewrite Hfiles.
  exists doc_j, io2. split; [exact Hp|]. split; [exact T|]. destruct s. reflexivity.
Qed.

Lemma split_go_absent sep s : contains sep s = false ->
  forall cur, split_go sep s 0 cur = [(rev_str cur ++ s)%string].
Proof.
  induction s as [|c r IH]; intros H cur; cbn [split_go].
  - rewrite str_app_nil_r. reflexivity.
  - cbn [contains] in H. apply orb_false_iff in H as [H1 H2]. rewrite H1. cbn [andb].
    rewrite (IH H2). cbn [rev_str]. rewrite <- str_app_assoc. reflexivity.
Qed.

(** X14: in cleanup mode a document with a file whose title does not contain
    " - " is skipped as not named like an upgraded document, after only its
    fetch. *)
Theorem doc_without_separator_skipped confirm all_docs all_itms doc env io s dj f0 fs :
  fetch_ok env (item_id doc) dj ->
  filter (fun f => negb (String.eqb (file_id f) EmptyString)) (files_of dj) = f0 :: fs ->
  contains " - " (item_title dj) = false ->
  exists doc_j io', fst doc_j = dj
    /\ io_trace io' = (io_trace io ++ [ItemGet (item_id doc)])%list
    /\ Cleanup.doc_body confirm all_docs all_itms doc env (io, s)
       = (Ok tt, (io', Cleanup.mkSt (Cleanup.reattached_docs s)
                         (dl_append "not named like document from 1P v7 upgrade" (Cleanup.DocJ doc_j None)
                            (Cleanup.skipped_docs s))
                         (Cleanup.removed_docs s) (Cleanup.removal_pending_docs s) (Cleanup.failed_docs s)
                         (Cleanup.removed_doc_ids s) (Cleanup.doc_vid s))).
Proof.
  intros Hdoc Hfiles Hsep.
  assert (Hn : Cleanup.not_upgrade_named (item_title dj) = true).
  { unfold Cleanup.not_upgrade_named, split. rewrite (split_go_absent _ _ Hsep). reflexivity. }
  unfold Cleanup.doc_body.
  rewrite (bind_ok _ _ _ _ _ _ (try_get_ok env _ _ dj io s Hdoc)). cbv beta iota.
  assert (Hm : exists doc_j io2, Cleanup.materialize dj env (Py.push (ItemGet (item_id doc)) io, s)
                                 = (Ok doc_j, (io2, s)) /\ fst doc_j = dj
                                 /\ io_trace io2 = (io_trace io ++ [ItemGet (item_id doc)])%list).
  { unfold Cleanup.materialize. destruct (item_tags dj); do 2 eexists; split; [reflexivity| |reflexivity|];
    split; reflexivity. }
  destruct Hm as [doc_j [io2 [Hm [Hp T]]]].
  rewrite (bind_ok _ _ _ _ _ _ Hm). cbv beta. rewrite Hfiles, Hn.
  exists doc_j, io2. split; [exact Hp|]. split; [exact T|]. destruct s. reflexivity.
Qed.


(** X15: every Windows reserved name is a possible result of [sanitize]: the
    reserved-name check runs before the over-long branch, which can rebuild
    a reserved name from the first character and the extension. *)
Theorem sanitize_can_return_reserved r : In r reserved -> exists s, sanitize s = r.
Proof.
  intros H. exists (probe r).
  assert (E : forallb (fun r => String.eqb (sanitize (probe r)) r) reserved = true) by (vm_compute; reflexivity).
  rewrite forallb_forall in E. apply String.eqb_eq, E, H.
Qed.


(** ** Witnesses of the further properties *)

Lemma sanitize_chars_ok_witness :
  str_all sanitize_ok_char (sanitize "a/b:c?.txt") = true.
Proof. apply sanitize_chars_ok. vm_compute. reflexivity. Defined.

Lemma sanitize_ends_witness :
  exists x c, sanitize " report. . " = (x ++ String c EmptyString)%string /\ mem_char ". " c = false.
Proof. apply sanitize_ends. vm_compute. reflexivity. Defined.

Lemma sanitize_length_bound_witness :
  String.length ("a." ++ repeat_char 507 "b"%char) <= 509
  /\ String.length (sanitize ("a." ++ repeat_char 507 "b"%char)) <= 255.
Proof.
  split; [apply Nat.leb_le; vm_compute; reflexivity|].
  apply sanitize_length_bound; [vm_compute; reflexivity|]. apply Nat.leb_le; vm_compute; reflexivity.
Defined.

Lemma sanitize_keeps_safe_name_witness :
  sanitize ("report.pd" ++ String "f" EmptyString) = ("report.pd" ++ String "f" EmptyString)%string.
Proof.
  apply sanitize_keeps_safe_name.
  - vm_compute. reflexivity.
  - vm_compute. reflexivity.
  - discriminate.
  - discriminate.
  - discriminate.
  - vm_compute. reflexivity.
  - apply Nat.leb_le; vm_compute; reflexivity.
Defined.

Lemma cleanup_download_in_tmp_dir_witness :
  exists r io' s',
    Cleanup.reattach_one live_args EmptyString "d1"
      (Cleanup.DocJ (passport_doc, None) (Some (jane_with_file, None))) passport_env
      (mkIO [] [] default_heap, Cleanup.mkSt [] [] [] [] [] [] (Some "v")) = (r, (io', s'))
    /\ exists n l,
      io_trace io' = ([] ++ DocumentGet "d1" "v" (tmp_dir ++ "/" ++ n) :: l)%list
      /\ str_all plain_name_char n = true.
Proof.
  do 3 eexists. split; [reflexivity|].
  eapply (cleanup_download_in_tmp_dir live_args EmptyString "d1" (passport_doc, None) (jane_with_file, None)
            passport_env (mkIO [] [] default_heap) (Cleanup.mkSt [] [] [] [] [] [] (Some "v"))).
  - vm_compute. reflexivity.
  - reflexivity.
Defined.

Lemma ref_download_absolute_name_witness :
  exists r io' s',
    RefMode.reattach_one (ref_cfg false) "d2" abs_queued owner_env (mkIO [] [] default_heap, RefMode.init)
      = (r, (io', s'))
    /\ exists l, io_trace io' = ([] ++ DocumentGet "d2" "v" (String "/" (out_name "etc/passport.pdf")) :: l)%list.
Proof.
  do 3 eexists. split; [reflexivity|].
  eapply (ref_download_absolute_name (ref_cfg false) "d2" abs_queued "etc/passport.pdf" owner_env
            (mkIO [] [] default_heap) RefMode.init); reflexivity.
Defined.

Lemma fuzzy_reattach_also_unmatched_witness :
  exists doc_j io' s', fst doc_j = passport_doc
    /\ Cleanup.doc_body false [passport_doc] [(archived_jane, None); (jane_other_scan, None)] passport_doc
         (mkEnv [passport_doc; archived_jane; jane_other_scan] no_fail) (mkIO [] [] default_heap, Cleanup.init)
       = (Ok tt, (io', s'))
    /\ Cleanup.reattached_docs s' = dl_append "d1" (Cleanup.DocJ doc_j (Some (jane_other_scan, None))) []
    /\ Cleanup.skipped_docs s' = dl_append "no matching items" (Cleanup.DocJ doc_j None) [].
Proof.
  apply (fuzzy_reattach_also_unmatched false [passport_doc] [(archived_jane, None); (jane_other_scan, None)]
           passport_doc (mkEnv [passport_doc; archived_jane; jane_other_scan] no_fail)
           (mkIO [] [] default_heap) Cleanup.init
           passport_doc (mkFile "f1" "passport.pdf" 100) [] [(archived_jane, None)] (jane_other_scan, None) []
           jane_other_scan).
  - split; reflexivity.
  - reflexivity.
  - vm_compute. reflexivity.
  - reflexivity.
  - vm_compute. reflexivity.
  - intros c it' Hin Ha [Hf _]. destruct Hin as [<-|[<-|[]]]; [|discriminate Ha].
    vm_compute in Hf. injection Hf as <-. reflexivity.
  - intros c it' [<-|[]] Ha. discriminate Ha.
  - reflexivity.
  - split; reflexivity.
  - discriminate.
  - reflexivity.
  - vm_compute. reflexivity.
Defined.

Lemma ref_check_failure_names_previous_witness :
  exists io' e,
    RefMode.ref_body (ref_cfg false) "i1" "Jane Doe" "v" EmptyString None
      (mkField "fld9" "REFERENCE" None None) owner_env
      (mkIO [] [] default_heap, RefMode.mkSt [] [] [] (Some "Passport"))
    = (Ok tt, (io', RefMode.mkSt [] []
                      (dl_append "failed to check document" (RefMode.mkEntry "Jane Doe" "Passport" EmptyString (Some e)) [])
                      (Some "Passport"))).
Proof.
  exact (ref_check_failure_names_previous (ref_cfg false) "i1" "Jane Doe" "v" EmptyString None
           (mkField "fld9" "REFERENCE" None None) owner_env (mkIO [] [] default_heap)
           (RefMode.mkSt [] [] [] (Some "Passport")) (or_introl eq_refl)).
Defined.

Lemma ref_verbose_without_tags_raises_witness :
  RefMode.run owner_env verbose_cfg []
  = (Exc ValueError, (mkIO [ItemList false []] [] [], RefMode.init)).
Proof.
  apply ref_verbose_without_tags_raises; reflexivity.
Defined.

Lemma cleanup_tagged_doc_stale_vault_witness :
  exists io' s' l,
    Cleanup.reattach_one live_args EmptyString "d1"
      (Cleanup.DocJ (passport_doc, Some 6) (Some (jane_with_file, None))) passport_env
      (mkIO [] [] (default_heap ++ [(6, [" deleted"])]), Cleanup.mkSt [] [] [] [] [] [] (Some "old"))
    = (Ok tt, (io', s'))
    /\ io_trace io' = ([] ++ l ++ [ItemDelete "d1" "old" true])%list.
Proof.
  exact (cleanup_tagged_doc_stale_vault live_args EmptyString "d1" (passport_doc, Some 6) (jane_with_file, None)
           passport_env (mkIO [] [] (default_heap ++ [(6, [" deleted"])]))
           (Cleanup.mkSt [] [] [] [] [] [] (Some "old")) 6 eq_refl eq_refl (or_introl eq_refl)).
Defined.

Lemma doc_without_files_removed_witness :
  exists doc_j io', fst doc_j = empty_doc
    /\ io_trace io' = ([] ++ [ItemGet "d3"])%list
    /\ Cleanup.doc_body false [empty_doc] [] empty_doc (mkEnv [empty_doc] no_fail)
         (mkIO [] [] default_heap, Cleanup.init)
       = (Ok tt, (io', Cleanup.mkSt [] [] (dl_append "no files" (Cleanup.DocJ doc_j None) []) [] [] ["d3"] None)).
Proof.
  apply (doc_without_files_removed false [empty_doc] [] empty_doc (mkEnv [empty_doc] no_fail)
           (mkIO [] [] default_heap) Cleanup.init empty_doc).
  - split; reflexivity.
  - reflexivity.
Defined.

Lemma doc_without_separator_skipped_witness :
  exists doc_j io', fst doc_j = one_file_doc
    /\ io_trace io' = ([] ++ [ItemGet "d2"])%list
    /\ Cleanup.doc_body false [one_file_doc] [] one_file_doc owner_env
         (mkIO [] [] default_heap, Cleanup.init)
       = (Ok tt, (io', Cleanup.mkSt []
                         (dl_append "not named like document from 1P v7 upgrade" (Cleanup.DocJ doc_j None) [])
                         [] [] [] [] None)).
Proof.
  apply (doc_without_separator_skipped false [one_file_doc] [] one_file_doc owner_env
           (mkIO [] [] default_heap) Cleanup.init one_file_doc (mkFile "f1" "passport.pdf" 100) []).
  - split; reflexivity.
  - reflexivity.
  - vm_compute. reflexivity.
Defined.

Lemma sanitize_can_return_reserved_witness : exists s, sanitize s = "CON".
Proof. apply sanitize_can_return_reserved. left. reflexivity. Defined.
